(** * Feature-store setup runner: splitter, execution engine, verifier

    A shallow embedding of [scripts/setup_feature_store.py] and of the part
    of [scripts/snowflake_connection.py] it drives, followed by the
    properties of the SQL statement splitter, of the sequential execution
    engine and of the post-setup verifier.

    Conventions of the embedding.
    - A Python [str] is a list of characters, [str := list ascii]; the
      character set is the 8-bit range.  [py "..."] turns a literal into
      such a list.
    - [list.append] is [l ++ [x]]; loops are folds over the list they
      iterate, with the loop variables as the accumulator.
    - Console output ([print]) is not modelled.
    - An exception is a value: [Raise e] against [Ok x].
    - The connection object is a record whose [calls] field is a ghost log
      of the client methods invoked on it, in order. *)

From Stdlib Require Import List Ascii String Arith Bool ZArith Lia Sorted.
Import ListNotations.

Set Implicit Arguments.

(* ===================================================================== *)
(** * Part I: definitions                                                 *)
(* ===================================================================== *)

(** ** Python strings *)

Module PyStr.

Definition str := list ascii.

Definition py (s : string) : str := list_ascii_of_string s.

Definition newline : ascii := ascii_of_nat 10.
Definition quote : ascii := ascii_of_nat 39.
Definition semicolon : ascii := ascii_of_nat 59.
Definition space : ascii := ascii_of_nat 32.

(** [bool(s)]: a string is truthy when it is not empty. *)
Definition truthy (s : str) : bool :=
  match s with [] => false | _ :: _ => true end.

(** [a == b] *)
Fixpoint str_eqb (a b : str) : bool :=
  match a, b with
  | [], [] => true
  | x :: a', y :: b' => Ascii.eqb x y && str_eqb a' b'
  | _, _ => false
  end.

(** [s.startswith(pat)] *)
Fixpoint startswith (pat s : str) : bool :=
  match pat, s with
  | [], _ => true
  | _ :: _, [] => false
  | p :: pat', c :: s' => Ascii.eqb p c && startswith pat' s'
  end.

(** [s.endswith(pat)] *)
Definition endswith (pat s : str) : bool := startswith (rev pat) (rev s).

(** [s.find(pat)]: the lowest index where [pat] occurs, [None] for
    Python's [-1]. *)
Fixpoint find (pat s : str) {struct s} : option nat :=
  if startswith pat s then Some 0
  else match s with
       | [] => None
       | _ :: s' => option_map S (find pat s')
       end.

(** [pat in s] *)
Definition contains (pat s : str) : bool :=
  match find pat s with Some _ => true | None => false end.

(** [s.count(c)] for a one-character pattern. *)
Fixpoint count (c : ascii) (s : str) : nat :=
  match s with
  | [] => 0
  | x :: s' => (if Ascii.eqb x c then 1 else 0) + count c s'
  end.

(** [str.isspace] on one character of the 8-bit range: TAB, LF, VT, FF,
    CR, the separators 0x1c-0x1f, SPACE, NEL (0x85) and NBSP (0xa0). *)
Definition is_space (c : ascii) : bool :=
  let n := nat_of_ascii c in
  ((9 <=? n) && (n <=? 13)) || ((28 <=? n) && (n <=? 32))
  || (n =? 133) || (n =? 160).

(** [s.lstrip(...)], by the predicate that selects the stripped set. *)
Fixpoint lstrip_with (p : ascii -> bool) (s : str) : str :=
  match s with
  | [] => []
  | c :: s' => if p c then lstrip_with p s' else s
  end.

(** [s.rstrip(...)] *)
Definition rstrip_with (p : ascii -> bool) (s : str) : str :=
  rev (lstrip_with p (rev s)).

(** [s.strip()] *)
Definition strip (s : str) : str :=
  rstrip_with is_space (lstrip_with is_space s).

(** [s.rstrip(';')] *)
Definition rstrip_semicolons (s : str) : str :=
  rstrip_with (fun c => Ascii.eqb c semicolon) s.

(** [sep.join(parts)] *)
Fixpoint join (sep : str) (parts : list str) : str :=
  match parts with
  | [] => []
  | p :: rest =>
      match rest with
      | [] => p
      | _ :: _ => p ++ sep ++ join sep rest
      end
  end.

(** [s.split('\n')]: never empty, one more piece than there are line
    feeds. *)
Fixpoint split_lines (s : str) : list str :=
  match s with
  | [] => [[]]
  | c :: s' =>
      if Ascii.eqb c newline then [] :: split_lines s'
      else match split_lines s' with
           | l :: ls => (c :: l) :: ls
           | [] => [[c]]
           end
  end.

(** [s.upper()] on one character: the letters a-z, and the Latin-1
    letters whose capital lies in the 8-bit range.  The three characters
    whose upper case leaves that range (0xb5, 0xdf, 0xff) are kept as they
    are; none of them maps to a letter of SELECT, SHOW or LIMIT in a way
    that could complete one of these words, so the tests of the engine
    are not affected. *)
Definition upper_char (c : ascii) : ascii :=
  let n := nat_of_ascii c in
  if ((97 <=? n) && (n <=? 122))
     || ((224 <=? n) && (n <=? 254) && negb (n =? 247))
  then ascii_of_nat (n - 32) else c.

Definition upper (s : str) : str := map upper_char s.

(** [s.replace('\n', ' ')] *)
Definition replace_newlines (s : str) : str :=
  map (fun c => if Ascii.eqb c newline then space else c) s.

(** The string holds no line feed. *)
Definition clean (s : str) : Prop := ~ In newline s.

(** The first and the last character of a string. *)
Definition first_char (s : str) : option ascii := hd_error s.
Definition last_char (s : str) : option ascii := hd_error (rev s).

(** Both ends of the string are characters that [p] does not strip. *)
Definition kept_ends (p : ascii -> bool) (s : str) : Prop :=
  (exists a, first_char s = Some a /\ p a = false)
  /\ (exists z, last_char s = Some z /\ p z = false).

End PyStr.

Export PyStr.

(** ** The statement splitter: [FeatureStoreSetup.split_sql_statements] *)

Module Splitter.

(** One iteration of the first loop (block comments).  The result is the
    new value of [in_block_comment] and the line appended to [lines], or
    [None] when the iteration ends in [continue]. *)
Definition strip_block_line (in_block_comment : bool) (line : str)
  : bool * option str :=
  let '(in_block_comment, line) :=
    match find (py "/*") line with
    | Some start =>
        match find (py "*/") line with
        | Some e =>
            (* Comment on same line, remove it *)
            (in_block_comment, firstn start line ++ skipn (e + 2) line)
        | None =>
            (* Start of block comment *)
            (true, firstn start line)
        end
    | None => (in_block_comment, line)
    end in
  if in_block_comment then
    match find (py "*/") line with
    | Some e =>
        (* End of block comment *)
        (false, Some (skipn (e + 2) line))
    | None =>
        (* Still in comment, skip line *)
        (true, None)
    end
  else (false, Some line).

(** The first loop, from a given value of [in_block_comment]. *)
Fixpoint strip_block_from (in_block_comment : bool) (raw : list str)
  : list str :=
  match raw with
  | [] => []
  | line :: rest =>
      match strip_block_line in_block_comment line with
      | (b, Some line') => line' :: strip_block_from b rest
      | (b, None) => strip_block_from b rest
      end
  end.

(** The first loop as the source runs it: [lines] after the loop. *)
Definition strip_block_comments (sql_content : str) : list str :=
  strip_block_from false (split_lines sql_content).

(** The inline-comment step at the head of the second loop. *)
Definition remove_inline_comment (line : str) : str :=
  match find (py "--") line with
  | Some comment_pos =>
      let before_comment := firstn comment_pos line in
      if Nat.even (count quote before_comment) then before_comment
      else line
  | None => line
  end.

(** The loop variables of the second loop. *)
Record split_state := SplitState {
  statements : list str;
  current_statement : list str
}.

(** One iteration of the second loop. *)
Definition split_step (st : split_state) (line : str) : split_state :=
  let stripped := strip (remove_inline_comment line) in
  if negb (truthy stripped) then st
  else
    let current := current_statement st ++ [stripped] in
    if endswith (py ";") stripped then
      let statement := strip (rstrip_semicolons (join (py " ") current)) in
      SplitState
        (if truthy statement then statements st ++ [statement]
         else statements st)
        []
    else SplitState (statements st) current.

(** The code after the second loop. *)
Definition split_finish (st : split_state) : list str :=
  match current_statement st with
  | [] => statements st
  | _ :: _ =>
      let statement := strip (join (py " ") (current_statement st)) in
      if truthy statement && negb (endswith (py ";") statement)
      then statements st ++ [statement]
      else statements st
  end.

(** The second loop and what follows it, on the list [lines]. *)
Definition split_lines_to_statements (lines : list str) : list str :=
  split_finish (fold_left split_step lines (SplitState [] [])).

Definition split_sql_statements (sql_content : str) : list str :=
  split_lines_to_statements (strip_block_comments sql_content).

End Splitter.

Export Splitter.

(** ** The client: [SnowflakeConnection] over the remote service *)

Module Client.

(** A raised exception: its class, as far as the callers tell classes
    apart, and [str(e)]. *)
Inductive exn :=
| FileNotFoundError (msg : str)
| Exception (msg : str).

Definition exn_str (e : exn) : str :=
  match e with FileNotFoundError m => m | Exception m => m end.

Inductive result (A : Type) :=
| Ok (x : A)
| Raise (e : exn).

Arguments Ok {A} x.
Arguments Raise {A} e.

(** [str(e)] of the exception a call ended with, [None] when it
    returned. *)
Definition raised_of {A : Type} (r : result A) : option str :=
  match r with Ok _ => None | Raise e => Some (exn_str e) end.

(** A [pandas.DataFrame] as the runner reads it: column labels and rows
    of cells. *)
Inductive cell :=
| CStr (s : str)
| CInt (z : Z)
| CNull.

Record DataFrame := MkFrame {
  columns : list str;
  rows : list (list cell)
}.

(** What a cursor holds after a successful [cursor.execute]. *)
Record ResultSet := MkResultSet {
  fetched : DataFrame;
  rowcount : Z
}.

(** The remote service behind [snowflake.connector]: opening a
    connection succeeds or not, and executing a statement fails with a
    message or leaves a result set. *)
Class Remote (R : Type) := {
  remote_connect : R -> R * bool;
  remote_execute : str -> R -> R * (str + ResultSet);
  remote_close : R -> R
}.

(** The ghost log: one entry per client method invoked, with the error
    message when the method raised. *)
Inductive call :=
| CallConnect (ok : bool)
| CallQuery (query : str) (raised : option str)
| CallUpdate (query : str) (raised : option str)
| CallClose.

Record SnowflakeConnection (R : Type) := MkConnection {
  conn : bool;      (* [self.conn] is not [None] *)
  cursor : bool;    (* [self.cursor] is not [None] *)
  remote : R;
  calls : list call
}.

Section Methods.

Context {R : Type} `{Remote R}.

Definition logged (sf : SnowflakeConnection R) (c : call)
  : SnowflakeConnection R :=
  MkConnection (conn sf) (cursor sf) (remote sf) (calls sf ++ [c]).

Definition set_remote (sf : SnowflakeConnection R) (r : R)
  : SnowflakeConnection R :=
  MkConnection (conn sf) (cursor sf) r (calls sf).

Definition connect (sf : SnowflakeConnection R)
  : SnowflakeConnection R * bool :=
  let '(r, ok) := remote_connect (remote sf) in
  if ok then (logged (MkConnection true true r (calls sf)) (CallConnect true), true)
  else (logged (set_remote sf r) (CallConnect false), false).

Definition not_connected : exn :=
  Exception (py "Not connected to Snowflake. Call connect() first.").

Definition execute_query (query : str) (sf : SnowflakeConnection R)
  : SnowflakeConnection R * result DataFrame :=
  if negb (conn sf) then
    (logged sf (CallQuery query (Some (exn_str not_connected))),
     Raise not_connected)
  else
    let '(r, out) := remote_execute query (remote sf) in
    match out with
    | inl msg =>
        (logged (set_remote sf r) (CallQuery query (Some msg)),
         Raise (Exception msg))
    | inr rs =>
        (logged (set_remote sf r) (CallQuery query None), Ok (fetched rs))
    end.

Definition execute_update (query : str) (sf : SnowflakeConnection R)
  : SnowflakeConnection R * result Z :=
  if negb (conn sf) then
    (logged sf (CallUpdate query (Some (exn_str not_connected))),
     Raise not_connected)
  else
    let '(r, out) := remote_execute query (remote sf) in
    match out with
    | inl msg =>
        (logged (set_remote sf r) (CallUpdate query (Some msg)),
         Raise (Exception msg))
    | inr rs =>
        (logged (set_remote sf r) (CallUpdate query None), Ok (rowcount rs))
    end.

(** [close] releases what is open and leaves [self.conn] and
    [self.cursor] bound. *)
Definition close (sf : SnowflakeConnection R) : SnowflakeConnection R :=
  logged
    (if conn sf then set_remote sf (remote_close (remote sf)) else sf)
    CallClose.

End Methods.

(** A remote service with fixed answers, for concrete runs. *)
Record Scripted := MkScripted {
  accepts : bool;
  answer : str -> str + ResultSet
}.

#[export] Instance Scripted_Remote : Remote Scripted := {
  remote_connect r := (r, accepts r);
  remote_execute q r := (r, answer r q);
  remote_close r := r
}.

Definition fresh_connection {R : Type} (r : R) : SnowflakeConnection R :=
  MkConnection false false r [].

End Client.

Export Client.

(** ** The execution engine: [FeatureStoreSetup.execute_setup] *)

Module Engine.

(** One entry of [results['errors']]. *)
Record ErrorEntry := MkError {
  statement_number : nat;
  statement : str;
  error : str
}.

(** The [results] dictionary. *)
Record Results := MkResults {
  total_statements : nat;
  successful : nat;
  failed : nat;
  errors : list ErrorEntry
}.

(** The exception [read_sql_file] raises. *)
Definition script_not_found (sql_file_path : str) : exn :=
  FileNotFoundError
    (py "SQL file not found: " ++ sql_file_path ++ [newline]
     ++ py "Please ensure sql/snowflake_feature_engineering.sql exists").

(** [read_sql_file]: [sql_file] is the content found at [sql_file_path],
    [None] when the path does not exist.  A file that exists and cannot
    be opened or decoded is the third case of [read_sql_file_io]. *)
Definition read_sql_file (sql_file_path : str) (sql_file : option str)
  : result str :=
  match sql_file with
  | None => Raise (script_not_found sql_file_path)
  | Some content => Ok content
  end.

Definition drop_statements : list str :=
  [ py "DROP VIEW IF EXISTS FEAT_DB.FEAT_SCHEMA.latest_features";
    py "DROP TABLE IF EXISTS FEAT_DB.FEAT_SCHEMA.feature_store";
    py "DROP VIEW IF EXISTS FEAT_DB.FEAT_SCHEMA.customer_agg_30d";
    py "DROP TABLE IF EXISTS FEAT_DB.FEAT_SCHEMA.tx_cleaned";
    py "DROP TABLE IF EXISTS FEAT_DB.FEAT_SCHEMA.customer_transactions";
    py "DROP SCHEMA IF EXISTS FEAT_DB.FEAT_SCHEMA";
    py "DROP DATABASE IF EXISTS FEAT_DB" ].

(** The test that sends a statement down the display path. *)
Definition is_display_query (statement : str) : bool :=
  startswith (py "SELECT") (upper (strip statement))
  && contains (py "LIMIT") (upper statement).

(** The test that chooses [execute_query] over [execute_update]. *)
Definition is_query (statement : str) : bool :=
  let stmt_upper := upper (strip statement) in
  startswith (py "SELECT") stmt_upper || startswith (py "SHOW") stmt_upper.

Definition statement_preview (statement : str) : str :=
  let preview := replace_newlines (firstn 60 statement) in
  if 60 <? List.length statement then preview ++ py "..." else preview.

Section Run.

Context {R : Type} `{Remote R}.

(** The cleanup loop: every failure is ignored. *)
Definition drop_existing_objects (sf : SnowflakeConnection R)
  : SnowflakeConnection R :=
  fold_left (fun sf stmt => fst (execute_update stmt sf)) drop_statements sf.

(** The [try] body of the main loop: run the statement through the
    method its leading keyword selects. *)
Definition run_statement (statement : str) (sf : SnowflakeConnection R)
  : SnowflakeConnection R * result unit :=
  if is_query statement then
    let '(sf', r) := execute_query statement sf in
    (sf', match r with Ok _ => Ok tt | Raise e => Raise e end)
  else
    let '(sf', r) := execute_update statement sf in
    (sf', match r with Ok _ => Ok tt | Raise e => Raise e end).

(** One iteration of the main loop, for statement number [i]. *)
Definition execute_statement (i : nat) (statement : str)
  (st : SnowflakeConnection R * Results) : SnowflakeConnection R * Results :=
  let '(sf, results) := st in
  if is_display_query statement then
    (* display query: executed, outcome dropped, then [continue] *)
    (fst (execute_query statement sf), results)
  else
    let '(sf', r) := run_statement statement sf in
    match r with
    | Ok _ =>
        (sf', MkResults (total_statements results) (successful results + 1)
                (failed results) (errors results))
    | Raise e =>
        (sf', MkResults (total_statements results) (successful results)
                (failed results + 1)
                (errors results
                 ++ [MkError i (statement_preview statement) (exn_str e)]))
    end.

(** The main loop over [enumerate(statements, i)]. *)
Fixpoint execute_statements (i : nat) (statements : list str)
  (st : SnowflakeConnection R * Results) : SnowflakeConnection R * Results :=
  match statements with
  | [] => st
  | statement :: rest =>
      execute_statements (S i) rest (execute_statement i statement st)
  end.

Definition initial_results (statements : list str) : Results :=
  MkResults (List.length statements) 0 0 [].

(** Steps 4 and 5 of [execute_setup]: from the statement list to the
    returned [results]. *)
Definition execute_all (drop_existing : bool) (statements : list str)
  (sf : SnowflakeConnection R) : SnowflakeConnection R * Results :=
  let sf := if drop_existing then drop_existing_objects sf else sf in
  execute_statements 1 statements (sf, initial_results statements).

Definition connect_failed : exn :=
  Exception (py "Failed to connect to Snowflake. Check your credentials.").

Definition execute_setup (drop_existing : bool)
  (sql_file_path : str) (sql_file : option str)
  (sf : SnowflakeConnection R) : SnowflakeConnection R * result Results :=
  (* Step 1: connect *)
  let '(sf, connected) := connect sf in
  if negb connected then (sf, Raise connect_failed)
  else
    (* Step 2: read the script *)
    match read_sql_file sql_file_path sql_file with
    | Raise e => (close sf, Raise e)
    | Ok sql_content =>
        (* Step 3: split *)
        let statements := split_sql_statements sql_content in
        let '(sf, results) := execute_all drop_existing statements sf in
        (sf, Ok results)
    end.

End Run.

End Engine.

Export Engine.

(** ** The verifier: [FeatureStoreSetup.verify_setup] *)

Module Verifier.

(** A dictionary with string keys, in insertion order. *)
Definition dict (V : Type) := list (str * V).

Fixpoint dict_set {V : Type} (k : str) (v : V) (d : dict V) : dict V :=
  match d with
  | [] => [(k, v)]
  | (k', v') :: d' =>
      if str_eqb k' k then (k, v) :: d' else (k', v') :: dict_set k v d'
  end.

Fixpoint dict_get {V : Type} (k : str) (d : dict V) : option V :=
  match d with
  | [] => None
  | (k', v') :: d' => if str_eqb k' k then Some v' else dict_get k d'
  end.

(** The [verification] dictionary. *)
Record Verification := MkVerification {
  database_exists : bool;
  schema_exists : bool;
  tables : dict bool;
  views : dict bool;
  data_counts : dict cell
}.

Definition initial_verification : Verification :=
  MkVerification false false [] [] [].

(** ['name' in df.columns] *)
Definition has_column (name : str) (df : DataFrame) : bool :=
  existsb (str_eqb name) (columns df).

Fixpoint position (name : str) (cols : list str) : option nat :=
  match cols with
  | [] => None
  | c :: cols' =>
      if str_eqb c name then Some 0 else option_map S (position name cols')
  end.

(** [df[name]] as the list of its cells, a [KeyError] when the label is
    missing.  This is the column of a frame in which the label stands
    once; with the label repeated pandas hands out a frame, a case the
    properties that depend on it exclude by [labelled_once]. *)
Definition column (name : str) (df : DataFrame) : result (list cell) :=
  match position name (columns df) with
  | Some i => Ok (map (fun row => nth i row CNull) (rows df))
  | None => Raise (Exception ([quote] ++ name ++ [quote]))
  end.

Definition cell_is (s : str) (c : cell) : bool :=
  match c with CStr s' => str_eqb s' s | _ => false end.

(** [len(df[df['name'] == value]) > 0 if 'name' in df.columns], [False]
    on the empty frame otherwise. *)
Definition name_listed (value : str) (df : DataFrame) : bool :=
  match column (py "name") df with
  | Ok cells => 0 <? List.length (filter (cell_is value) cells)
  | Raise _ => false
  end.

(** [df['name'].str.upper().tolist() if 'name' in df.columns else []]; a
    cell that is not a string upper-cases to a missing value.  This is
    the list on a column the [.str] accessor applies to; on a column of
    numbers the accessor raises, a case the properties that depend on it
    exclude by [str_accessor_applies]. *)
Definition upper_names (df : DataFrame) : list (option str) :=
  match column (py "name") df with
  | Ok cells =>
      map (fun c => match c with CStr s => Some (upper s) | _ => None end)
          cells
  | Raise _ => []
  end.

(** [name.upper() in existing] *)
Definition listed (name : str) (existing : list (option str)) : bool :=
  existsb (fun e => match e with Some s => str_eqb s (upper name)
                              | None => false end) existing.

Definition count_query (name : str) : str :=
  py "SELECT COUNT(*) AS cnt FROM FEAT_DB.FEAT_SCHEMA." ++ name.

(** [count_df['CNT'].iloc[0] if len(count_df) > 0 else 0] *)
Definition first_count (count_df : DataFrame) : result cell :=
  match rows count_df with
  | [] => Ok (CInt 0)
  | _ :: _ =>
      match column (py "CNT") count_df with
      | Ok cells => Ok (hd CNull cells)
      | Raise e => Raise e
      end
  end.

Inductive category := Tables | Views.

Definition listing_query (c : category) : str :=
  match c with
  | Tables => py "SHOW TABLES IN SCHEMA FEAT_DB.FEAT_SCHEMA"
  | Views => py "SHOW VIEWS IN SCHEMA FEAT_DB.FEAT_SCHEMA"
  end.

Definition tables_to_check : list str :=
  [py "customer_transactions"; py "tx_cleaned"; py "feature_store"].

Definition views_to_check : list str :=
  [py "customer_agg_30d"; py "latest_features"].

Definition names_to_check (c : category) : list str :=
  match c with Tables => tables_to_check | Views => views_to_check end.

(** [verification['tables'][name] = exists], or the same on ['views']. *)
Definition set_exists (c : category) (name : str) (b : bool)
  (v : Verification) : Verification :=
  match c with
  | Tables =>
      MkVerification (database_exists v) (schema_exists v)
        (dict_set name b (tables v)) (views v) (data_counts v)
  | Views =>
      MkVerification (database_exists v) (schema_exists v)
        (tables v) (dict_set name b (views v)) (data_counts v)
  end.

Definition set_count (name : str) (n : cell) (v : Verification)
  : Verification :=
  MkVerification (database_exists v) (schema_exists v)
    (tables v) (views v) (dict_set name n (data_counts v)).

Definition existence (c : category) (v : Verification) : dict bool :=
  match c with Tables => tables v | Views => views v end.

Section Verify.

Context {R : Type} `{Remote R}.

Definition vstate : Type := SnowflakeConnection R * Verification.

(** The database check with its [try]/[except]. *)
Definition check_database (st : vstate) : vstate :=
  let '(sf, v) := st in
  let '(sf, r) := execute_query (py "SHOW DATABASES") sf in
  match r with
  | Ok df =>
      (sf, MkVerification (name_listed (py "FEAT_DB") df) (schema_exists v)
             (tables v) (views v) (data_counts v))
  | Raise _ => (sf, v)
  end.

(** The schema check with its [try]/[except]. *)
Definition check_schema (st : vstate) : vstate :=
  let '(sf, v) := st in
  let '(sf, r) := execute_query (py "SHOW SCHEMAS IN DATABASE FEAT_DB") sf in
  match r with
  | Ok df =>
      (sf, MkVerification (database_exists v)
             (name_listed (py "FEAT_SCHEMA") df)
             (tables v) (views v) (data_counts v))
  | Raise _ => (sf, v)
  end.

(** The [for] loop over the expected names of one category.  An
    exception leaves the loop; the state reached so far is kept. *)
Fixpoint check_objects (c : category) (existing : list (option str))
  (names : list str) (st : vstate) : vstate * result unit :=
  match names with
  | [] => (st, Ok tt)
  | name :: rest =>
      let '(sf, v) := st in
      let exists_ := listed name existing in
      let v := set_exists c name exists_ v in
      if exists_ then
        let '(sf, r) := execute_query (count_query name) sf in
        match r with
        | Raise e => ((sf, v), Raise e)
        | Ok count_df =>
            match first_count count_df with
            | Raise e => ((sf, v), Raise e)
            | Ok n => check_objects c existing rest (sf, set_count name n v)
            end
        end
      else check_objects c existing rest (sf, v)
  end.

(** The tables check, or the views check, with its [try]/[except]. *)
Definition check_category (c : category) (st : vstate) : vstate :=
  let '(sf, v) := st in
  let '(sf, r) := execute_query (listing_query c) sf in
  match r with
  | Ok df => fst (check_objects c (upper_names df) (names_to_check c) (sf, v))
  | Raise _ => (sf, v)
  end.

Definition verify_setup (sf : SnowflakeConnection R)
  : SnowflakeConnection R * Verification :=
  let sf :=
    if negb (conn sf) || negb (cursor sf) then fst (connect sf) else sf in
  let '(sf, v) :=
    check_category Views
      (check_category Tables
         (check_schema (check_database (sf, initial_verification)))) in
  ((if conn sf then close sf else sf), v).

End Verify.

End Verifier.

Export Verifier.

(** ** The splitter as the design document words it

    Follows the wording of the design, not the code: the trimmed,
    non-blank lines are cut into groups, a group ending at each line whose
    last character is a semicolon; each closed group gives one statement
    when something is left of it, and what remains open at the end of the
    script gives a last one. *)

Module SplitSpec.

(** The trimmed line the boundary rule looks at. *)
Definition trimmed (line : str) : str := strip (remove_inline_comment line).

(** The trimmed lines that are not blank, in source order. *)
Definition trimmed_lines (lines : list str) : list str :=
  filter truthy (map trimmed lines).

Definition is_boundary (t : str) : bool := endswith (py ";") t.

(** A trimmed, non-blank line that is not a boundary. *)
Definition open_line (t : str) : Prop :=
  kept_ends is_space t /\ is_boundary t = false.

(** A group closed by a boundary: its last line is one, no other is. *)
Definition closed_group (g : list str) : Prop :=
  exists body t,
    g = body ++ [t] /\ is_boundary t = true
    /\ Forall (fun x => is_boundary x = false) body.

(** The closed groups and the open remainder, [buffer] being the lines
    accumulated so far. *)
Fixpoint groups (buffer : list str) (ts : list str)
  : list (list str) * list str :=
  match ts with
  | [] => ([], buffer)
  | t :: ts' =>
      if is_boundary t then
        let '(gs, open) := groups [] ts' in ((buffer ++ [t]) :: gs, open)
      else groups (buffer ++ [t]) ts'
  end.

(** The statement of a closed group: joined with single spaces, trailing
    semicolons and surrounding blanks removed; nothing when empty. *)
Definition emit_closed (g : list str) : list str :=
  let s := strip (rstrip_semicolons (join (py " ") g)) in
  if truthy s then [s] else [].

(** The statement of the open remainder. *)
Definition emit_open (g : list str) : list str :=
  match g with
  | [] => []
  | _ :: _ => [join (py " ") g]
  end.

Definition split_spec (lines : list str) : list str :=
  let '(gs, open) := groups [] (trimmed_lines lines) in
  flat_map emit_closed gs ++ emit_open open.

End SplitSpec.

(** ** Vocabulary of the statements proved below *)

Module Vocabulary.

(** The pattern [pat] occurs in [s] at index [n]. *)
Definition occurs_at (pat : str) (n : nat) (s : str) : bool :=
  startswith pat (skipn n s).

(** No line opens a block comment without closing it on the same line. *)
Definition comments_closed_on_line (raw : list str) : bool :=
  forallb (fun line => implb (contains (py "/*") line)
                             (contains (py "*/") line)) raw.

(** The calls appended to the log between two states of a connection. *)
Definition new_calls {R : Type} (before after : SnowflakeConnection R)
  : list call :=
  skipn (List.length (calls before)) (calls after).

(** The statement a logged call carried, and the error it raised. *)
Definition call_text (c : call) : option str :=
  match c with
  | CallQuery q _ | CallUpdate q _ => Some q
  | CallConnect _ | CallClose => None
  end.

Definition call_raised (c : call) : option str :=
  match c with
  | CallQuery _ r | CallUpdate _ r => r
  | CallConnect _ | CallClose => None
  end.

(** A statement the engine tallies: any statement off the display path. *)
Definition tallied (statement : str) : bool :=
  negb (is_display_query statement).

(** The error entries a sequence of logged statement calls accounts for,
    the first call being statement number [i]: one entry per tallied
    statement that raised, with its number, preview and message. *)
Fixpoint error_entries (i : nat) (cs : list call) : list ErrorEntry :=
  match cs with
  | [] => []
  | c :: cs' =>
      match call_text c, call_raised c with
      | Some q, Some msg =>
          if tallied q
          then MkError i (statement_preview q) msg :: error_entries (S i) cs'
          else error_entries (S i) cs'
      | _, _ => error_entries (S i) cs'
      end
  end.

(** The number of tallied statements among logged calls that returned
    normally. *)
Fixpoint successes (cs : list call) : nat :=
  match cs with
  | [] => 0
  | c :: cs' =>
      match call_text c, call_raised c with
      | Some q, None => (if tallied q then 1 else 0) + successes cs'
      | _, _ => successes cs'
      end
  end.

(** The catalog listings among logged calls, in order. *)
Definition listings (cs : list call) : list str :=
  flat_map (fun c => match c with
                     | CallQuery q _ =>
                         if startswith (py "SHOW") q then [q] else []
                     | _ => []
                     end) cs.

End Vocabulary.

Export Vocabulary.

(** ** Concrete services and scripts for the runs evaluated below *)

Module Scenarios.

Local Open Scope string_scope.

Definition lf : string := String newline EmptyString.

Definition no_rows : ResultSet := MkResultSet (MkFrame [] []) 0.

(** A service that accepts the connection and rejects exactly the
    statement [bad]. *)
Definition rejecting (bad : str) : Scripted :=
  MkScripted true
    (fun q => if str_eqb q bad then inl (py "SQL compilation error")
              else inr no_rows).

(** A service that accepts everything. *)
Definition accepting : Scripted := MkScripted true (fun _ => inr no_rows).

(** A service that refuses the connection. *)
Definition unreachable : Scripted := MkScripted false (fun _ => inr no_rows).

(** The connection object after a [connect] to the service [r]. *)
Definition connected_to (r : Scripted) : SnowflakeConnection Scripted :=
  fst (connect (fresh_connection r)).

Definition names_frame (names : list string) : ResultSet :=
  MkResultSet (MkFrame [py "name"] (map (fun n => [CStr (py n)]) names)) 0.

Definition count_frame (n : Z) : ResultSet :=
  MkResultSet (MkFrame [py "CNT"] [[CInt n]]) 0.

(** A catalog that lists every expected object and counts 7 rows in each,
    except that the count on [broken] fails. *)
Definition catalog (broken : str) : Scripted :=
  MkScripted true
    (fun q =>
       if str_eqb q (py "SHOW DATABASES") then inr (names_frame ["FEAT_DB"])
       else if str_eqb q (py "SHOW SCHEMAS IN DATABASE FEAT_DB")
       then inr (names_frame ["FEAT_SCHEMA"])
       else if str_eqb q (listing_query Tables)
       then inr (names_frame ["CUSTOMER_TRANSACTIONS"; "TX_CLEANED";
                              "FEATURE_STORE"])
       else if str_eqb q (listing_query Views)
       then inr (names_frame ["CUSTOMER_AGG_30D"; "LATEST_FEATURES"])
       else if str_eqb q (count_query broken)
       then inl (py "Object does not exist or not authorized")
       else inr (count_frame 7)).

(** Two lines, a block comment opened on the first and closed on the
    second. *)
Definition spanning_comment : str := py ("a /* x" ++ lf ++ "y */ b").

(** Two lines, a block comment opened and closed on the first. *)
Definition closed_comment : str := py ("a /* x */ b;" ++ lf ++ "c;").

(** A script of two statements, the second a display query. *)
Definition display_script : str :=
  py ("CREATE TABLE t (a INT);" ++ lf ++ "SELECT * FROM t LIMIT 5;").

(** The path the runner looks the script up at. *)
Definition script_path : str := py "../sql/snowflake_feature_engineering.sql".

Definition bad_insert : str := py "INSERT INTO missing VALUES (1)".

Definition five_statements : list str :=
  [py "CREATE DATABASE FEAT_DB"; py "CREATE SCHEMA FEAT_SCHEMA";
   bad_insert; py "SHOW TABLES"; py "CREATE VIEW v AS SELECT 1"].

(** A catalog listing with a row limit: a query, and not a SELECT. *)
Definition show_limit : str := py "SHOW TABLES LIMIT 5".

End Scenarios.

(** ** The command line: [main] of [setup_feature_store.py] *)

Module Cli.

(** [s.lower()] on one character: the letters A-Z and the Latin-1
    capitals. *)
Definition lower_char (c : ascii) : ascii :=
  let n := nat_of_ascii c in
  if ((65 <=? n) && (n <=? 90))
     || ((192 <=? n) && (n <=? 222) && negb (n =? 215))
  then ascii_of_nat (n + 32) else c.

Definition lower (s : str) : str := map lower_char s.

(** The parsed flags that steer [main]; [--config] only selects the
    credentials the connection object is built from. *)
Record Args := MkArgs {
  arg_verify_only : bool;
  arg_drop_existing : bool
}.

Section Main.

Context {R : Type} `{Remote R}.

(** [main], from the parsed arguments on.  [response] is the line
    [input] would read; [r] is the remote service, on which the
    constructor builds a connection object that is not connected yet.
    The result is the final connection object and the exit status of the
    process: [1] where the source reaches [sys.exit(1)], [0] where [main]
    returns.  These are the runs in which the constructor and the prompt
    return and the script, when there is one, can be read; [main_process]
    has the other ends of the [try] as well. *)
Definition main (args : Args) (response : str)
  (sql_file_path : str) (sql_file : option str)
  (r : R) : SnowflakeConnection R * nat :=
  let sf := fresh_connection r in
  if arg_verify_only args then
    (fst (verify_setup sf), 0)
  else if arg_drop_existing args
          && negb (str_eqb (lower response) (py "yes")) then
    (* Setup cancelled. *)
    (sf, 0)
  else
    let '(sf, r) :=
      execute_setup (arg_drop_existing args) sql_file_path sql_file sf in
    match r with
    | Raise _ => (sf, 1)
    | Ok results =>
        (* Always verify after setup (if successful) *)
        if failed results =? 0 then (fst (verify_setup sf), 0)
        else (close sf, 0)
    end.

End Main.

End Cli.

Export Cli.

(** ** The data refresh: [refresh_data] of [refresh_feature_data.py] *)

Module Refresh.

Local Open Scope string_scope.

Definition LF : string := String newline EmptyString.
Definition DQ : string := String (ascii_of_nat 34) EmptyString.

(** The statement text of line 24. *)
Definition use_database : str :=
  py ("USE DATABASE FEAT_DB").

(** The statement text of line 25. *)
Definition use_schema : str :=
  py ("USE SCHEMA FEAT_SCHEMA").

(** The statement text of lines 29-38. *)
Definition insert_query : str :=
  py (LF ++ "        INSERT INTO FEAT_DB.FEAT_SCHEMA.customer_transaction" ++
     "s " ++ LF ++ "        SELECT " ++ LF ++
     "            'tx0007'::STRING, 'cust02'::STRING, '2025-10-15 " ++
     "16:00:00'::TIMESTAMP_NTZ, 150.00::FLOAT, 'web'::STRING, PARS" ++
     "E_JSON('{" ++ DQ ++ "promo" ++ DQ ++ ":" ++ DQ ++ "Y" ++ DQ ++ "," ++
     DQ ++ "items" ++ DQ ++ ":[{" ++ DQ ++ "sku" ++ DQ ++ ":" ++ DQ ++ "F" ++
     DQ ++ "," ++ DQ ++ "qty" ++ DQ ++ ":2}]}')::VARIANT" ++ LF ++
     "        UNION ALL SELECT 'tx0008'::STRING, 'cust03'::STRING," ++
     " '2025-10-08 12:00:00'::TIMESTAMP_NTZ, 85.00::FLOAT, 'app'::" ++
     "STRING, PARSE_JSON('{" ++ DQ ++ "promo" ++ DQ ++ ":" ++ DQ ++ "X" ++ DQ ++
     "," ++ DQ ++ "items" ++ DQ ++ ":[{" ++ DQ ++ "sku" ++ DQ ++ ":" ++ DQ ++
     "G" ++ DQ ++ "," ++ DQ ++ "qty" ++ DQ ++ ":1}]}')::VARIANT" ++ LF ++
     "        UNION ALL SELECT 'tx0009'::STRING, 'cust04'::STRING," ++
     " '2025-10-05 14:30:00'::TIMESTAMP_NTZ, 200.00::FLOAT, 'pos':" ++
     ":STRING, PARSE_JSON('{" ++ DQ ++ "promo" ++ DQ ++ ":" ++ DQ ++ "Z" ++
     DQ ++ "," ++ DQ ++ "items" ++ DQ ++ ":[{" ++ DQ ++ "sku" ++ DQ ++ ":" ++
     DQ ++ "H" ++ DQ ++ "," ++ DQ ++ "qty" ++ DQ ++ ":3}]}')::VARIANT" ++ LF ++
     "        UNION ALL SELECT 'tx0010'::STRING, 'cust04'::STRING," ++
     " '2025-10-18 10:15:00'::TIMESTAMP_NTZ, 95.00::FLOAT, 'web'::" ++
     "STRING, PARSE_JSON('{" ++ DQ ++ "promo" ++ DQ ++ ":null," ++ DQ ++
     "items" ++ DQ ++ ":[{" ++ DQ ++ "sku" ++ DQ ++ ":" ++ DQ ++ "I" ++ DQ ++
     "," ++ DQ ++ "qty" ++ DQ ++ ":2}]}')::VARIANT" ++ LF ++
     "        UNION ALL SELECT 'tx0011'::STRING, 'cust05'::STRING," ++
     " '2025-10-03 09:45:00'::TIMESTAMP_NTZ, 180.00::FLOAT, 'app':" ++
     ":STRING, PARSE_JSON('{" ++ DQ ++ "promo" ++ DQ ++ ":" ++ DQ ++ "Y" ++
     DQ ++ "," ++ DQ ++ "items" ++ DQ ++ ":[{" ++ DQ ++ "sku" ++ DQ ++ ":" ++
     DQ ++ "J" ++ DQ ++ "," ++ DQ ++ "qty" ++ DQ ++ ":1}]}')::VARIANT" ++ LF ++
     "        UNION ALL SELECT 'tx0012'::STRING, 'cust05'::STRING," ++
     " '2025-10-20 15:20:00'::TIMESTAMP_NTZ, 60.00::FLOAT, 'web'::" ++
     "STRING, PARSE_JSON('{" ++ DQ ++ "promo" ++ DQ ++ ":" ++ DQ ++ "X" ++ DQ ++
     "," ++ DQ ++ "items" ++ DQ ++ ":[{" ++ DQ ++ "sku" ++ DQ ++ ":" ++ DQ ++
     "K" ++ DQ ++ "," ++ DQ ++ "qty" ++ DQ ++ ":4}]}')::VARIANT" ++ LF ++
     "        ").

(** The statement text of lines 45-61. *)
Definition refresh_cleaned : str :=
  py (LF ++ "        CREATE OR REPLACE TABLE FEAT_DB.FEAT_SCHEMA.tx_clean" ++
     "ed AS" ++ LF ++ "        SELECT" ++ LF ++ "          transaction_id," ++
     LF ++ "          customer_id," ++ LF ++ "          transaction_ts," ++
     LF ++ "          amount," ++ LF ++ "          channel," ++ LF ++
     "          metadata," ++ LF ++
     "          COALESCE(metadata:promo::STRING, 'NO_PROMO') AS pr" ++
     "omo_code," ++ LF ++
     "          DATE_TRUNC('day', transaction_ts)::DATE AS tx_date" ++ "," ++
     LF ++ "          DAYOFWEEK(transaction_ts) as day_of_week," ++ LF ++
     "          CASE WHEN amount IS NULL THEN 0.0 ELSE amount END " ++
     "as amount_filled," ++ LF ++
     "          CASE WHEN amount >= 100 THEN 1 ELSE 0 END as high_" ++
     "value_flag" ++ LF ++
     "        FROM FEAT_DB.FEAT_SCHEMA.customer_transactions" ++ LF ++
     "        WHERE transaction_ts IS NOT NULL" ++ LF ++ "        ").

(** The statement text of lines 66-77. *)
Definition refresh_view : str :=
  py (LF ++ "        CREATE OR REPLACE VIEW FEAT_DB.FEAT_SCHEMA.customer_" ++
     "agg_30d AS" ++ LF ++ "        SELECT" ++ LF ++ "          customer_id," ++
     LF ++ "          AVG(amount_filled) AS avg_tx_amount_30d," ++ LF ++
     "          COUNT(*) AS tx_count_30d," ++ LF ++
     "          SUM(high_value_flag) AS high_value_tx_count_30d" ++ LF ++
     "        FROM FEAT_DB.FEAT_SCHEMA.tx_cleaned" ++ LF ++
     "        WHERE transaction_ts >= DATEADD(day, -30, CURRENT_TI" ++
     "MESTAMP())" ++ LF ++ "        GROUP BY customer_id" ++ LF ++ "        ").

(** The statement text of lines 81-99. *)
Definition refresh_store : str :=
  py (LF ++ "        INSERT INTO FEAT_DB.FEAT_SCHEMA.feature_store " ++ LF ++
     "            (feature_id, entity_id, feature_name, feature_va" ++
     "lue, created_at, feature_ts, source)" ++ LF ++ "        SELECT" ++ LF ++
     "            CONCAT(customer_id, '_avg_tx_30d') as feature_id" ++ "," ++
     LF ++ "            customer_id AS entity_id," ++ LF ++
     "            'avg_tx_amount_30d' AS feature_name," ++ LF ++
     "            avg_tx_amount_30d AS feature_value," ++ LF ++
     "            CURRENT_TIMESTAMP() AS created_at," ++ LF ++
     "            CURRENT_TIMESTAMP() AS feature_ts," ++ LF ++
     "            'sql_agg_30d' AS source" ++ LF ++
     "        FROM FEAT_DB.FEAT_SCHEMA.customer_agg_30d" ++ LF ++
     "        WHERE customer_id NOT IN (" ++ LF ++
     "            SELECT entity_id " ++ LF ++
     "            FROM FEAT_DB.FEAT_SCHEMA.feature_store " ++ LF ++
     "            WHERE feature_ts >= DATEADD('hour', -1, CURRENT_" ++
     "TIMESTAMP())" ++ LF ++
     "                AND feature_name = 'avg_tx_amount_30d'" ++ LF ++
     "        )" ++ LF ++ "        ").

(** The statement text of line 104. *)
Definition count_customers : str :=
  py ("SELECT COUNT(DISTINCT entity_id) AS customer_count FROM FEAT" ++
     "_DB.FEAT_SCHEMA.latest_features").

Local Close Scope string_scope.

(** A step of a [try] body: it runs on the connection object and either
    returns a value or raises. *)
Definition action (R A : Type) : Type :=
  SnowflakeConnection R -> SnowflakeConnection R * result A.

(** Sequencing inside a [try] body: an exception skips what follows. *)
Definition and_then {R A B : Type} (m : action R A) (k : A -> action R B)
  : action R B :=
  fun sf =>
    let '(sf', r) := m sf in
    match r with
    | Ok x => k x sf'
    | Raise e => (sf', Raise e)
    end.

Definition pure {R A : Type} (r : result A) : action R A :=
  fun sf => (sf, r).

Notation "x <- m ;; k" := (and_then m (fun x => k))
  (at level 61, m at next level, right associativity).

(** [count_df['CUSTOMER_COUNT'].iloc[0] if len(count_df) > 0 else 0] *)
Definition customer_count_of (count_df : DataFrame) : result cell :=
  match rows count_df with
  | [] => Ok (CInt 0)
  | _ :: _ =>
      match column (py "CUSTOMER_COUNT") count_df with
      | Ok cells => Ok (hd CNull cells)
      | Raise e => Raise e
      end
  end.

Section RefreshData.

Context {R : Type} `{Remote R}.

(** The body of the [try]: six updates, then the count of customers. *)
Definition refresh_body : action R cell :=
  _ <- execute_update use_database ;;
  _ <- execute_update use_schema ;;
  rows_added <- execute_update insert_query ;;
  _ <- execute_update refresh_cleaned ;;
  _ <- execute_update refresh_view ;;
  _ <- execute_update refresh_store ;;
  count_df <- execute_query count_customers ;;
  customer_count <- pure (customer_count_of count_df) ;;
  pure (Ok customer_count).

(** [refresh_data]: the final connection object. *)
Definition refresh_data (sf : SnowflakeConnection R) : SnowflakeConnection R :=
  let '(sf, connected) := connect sf in
  if negb connected then sf
  else
    (* [except] reports the exception; [finally] closes *)
    close (fst (refresh_body sf)).

End RefreshData.

(** The client calls of a complete refresh, each awaiting its outcome. *)
Definition refresh_steps : list (option str -> call) :=
  [CallUpdate use_database; CallUpdate use_schema; CallUpdate insert_query;
   CallUpdate refresh_cleaned; CallUpdate refresh_view;
   CallUpdate refresh_store; CallQuery count_customers].

End Refresh.

Export Refresh.

(** ** The context manager and [main] of [snowflake_connection.py] *)

Module ClientMain.

Definition version_query : str :=
  py "SELECT CURRENT_VERSION() AS snowflake_version".

Definition tables_query : str := py "SHOW TABLES IN SCHEMA FEAT_DB.FEAT_SCHEMA".

Section ContextManager.

Context {R : Type} `{Remote R}.

(** [__enter__]: connect, whatever comes of it, and hand out the
    object. *)
Definition enter (sf : SnowflakeConnection R) : SnowflakeConnection R :=
  fst (connect sf).

(** [__exit__]: close; it returns [None], so an exception of the body
    goes on to the caller. *)
Definition exit (sf : SnowflakeConnection R) : SnowflakeConnection R :=
  close sf.

(** [with SnowflakeConnection(...) as sf: body] *)
Definition with_connection {A : Type} (body : action R A) : action R A :=
  fun sf =>
    let '(sf', r) := body (enter sf) in
    (exit sf', r).

(** [main]: the two example queries under the context manager, on the
    connection object the constructor builds; both [except] clauses only
    print. *)
Definition connection_main (r : R) : SnowflakeConnection R :=
  fst (with_connection
         (df <- execute_query version_query ;;
          df <- execute_query tables_query ;;
          pure (Ok tt))
         (fresh_connection r)).

End ContextManager.

End ClientMain.

Export ClientMain.

(** ** Vocabulary of the further properties *)

Module Vocabulary2.

(** The keys of a dictionary, in insertion order. *)
Definition keys {V : Type} (d : dict V) : list str := map fst d.

(** The calls obtained by giving each step its outcome, as far as the
    outcomes go. *)
Fixpoint with_outcomes (steps : list (option str -> call))
  (outcomes : list (option str)) : list call :=
  match steps, outcomes with
  | step :: steps', o :: outcomes' => step o :: with_outcomes steps' outcomes'
  | _, _ => []
  end.

(** Outcomes of a sequence that stops at its first failure: none but the
    last is a failure. *)
Fixpoint stops_at_failure (outcomes : list (option str)) : bool :=
  match outcomes with
  | [] => true
  | o :: outcomes' =>
      match o, outcomes' with
      | Some _, _ :: _ => false
      | _, _ => stops_at_failure outcomes'
      end
  end.

(** A call the verifier may make: connecting, closing, one of the four
    catalog listings, or a row count on an expected table or view. *)
Definition verifier_call (c : call) : bool :=
  match c with
  | CallConnect _ | CallClose => true
  | CallUpdate _ _ => false
  | CallQuery q _ =>
      existsb (str_eqb q)
        ([py "SHOW DATABASES"; py "SHOW SCHEMAS IN DATABASE FEAT_DB";
          listing_query Tables; listing_query Views]
         ++ map count_query (tables_to_check ++ views_to_check))
  end.

(** The script built from statements written one per line, each closed
    by a semicolon and a line feed. *)
Definition script_of (stmts : list str) : str :=
  flat_map (fun s => s ++ [semicolon; newline]) stmts.

(** A statement as a script author writes it on one line: trimmed, not
    empty, without line feed, comment marker or closing semicolon. *)
Definition plain_statement (s : str) : Prop :=
  kept_ends is_space s
  /\ clean s
  /\ (forall i, occurs_at (py "/*") i (s ++ [semicolon]) = false)
  /\ (forall i, occurs_at (py "--") i (s ++ [semicolon]) = false)
  /\ endswith (py ";") s = false.

(** A line the second loop skips: blank once its inline comment is
    removed and it is trimmed. *)
Definition skipped_line (line : str) : bool :=
  negb (truthy (strip (remove_inline_comment line))).

(** Every row count in the report belongs to an object the report shows
    as existing. *)
Definition counts_backed (v : Verification) : Prop :=
  forall name,
    In name (keys (data_counts v)) ->
    dict_get name (tables v) = Some true
    \/ dict_get name (views v) = Some true.

(** What the report says of the objects of a category is what the
    listing [existing] says. *)
Definition agrees (c : category) (existing : list (option str))
  (v : Verification) : Prop :=
  forall name b,
    dict_get name (existence c v) = Some b -> b = listed name existing.

(** A call that is a query. *)
Definition is_query_call (c : call) : bool :=
  match c with CallQuery _ _ => true | _ => false end.

(** A call that carries a statement: a query or an update. *)
Definition is_statement_call (c : call) : bool :=
  match c with
  | CallQuery _ _ | CallUpdate _ _ => true
  | CallConnect _ | CallClose => false
  end.

(** The confirmation [main] accepts before a teardown. *)
Definition confirmed (args : Args) (response : str) : bool :=
  negb (arg_drop_existing args) || str_eqb (lower response) (py "yes").

End Vocabulary2.

Export Vocabulary2.

(** ** Further concrete services *)

Module Scenarios2.

(** A connection object that was connected to [r] and then closed. *)
Definition closed_after_use (r : Scripted) : SnowflakeConnection Scripted :=
  close (fst (connect (fresh_connection r))).

(** A script of two statements, the second being [bad_insert]. *)
Definition failing_script : str :=
  py "CREATE TABLE t (a INT);" ++ [newline]
  ++ Scenarios.bad_insert ++ [semicolon].

End Scenarios2.

(** ** The wording of the design, as predicates

    Independent of the code's own expressions: what a preview, a joined
    and trimmed statement and an opening line are, said over the
    characters themselves. *)

Module Wording.

(** [preview] is the preview of [statement]: its first 60 characters,
    each line feed turned into a blank, then three dots when the
    statement is longer than that. *)
Definition preview_of (statement preview : str) : Prop :=
  List.length preview
  = (if 60 <? List.length statement then 63 else List.length statement)
  /\ (forall i c,
        i < 60 -> nth_error statement i = Some c ->
        nth_error preview i
        = Some (if Ascii.eqb c newline then space else c))
  /\ (60 < List.length statement -> skipn 60 preview = py "...").

(** The parts one after the other, a single blank between two of them. *)
Definition spaced (parts : list str) : str :=
  match parts with
  | [] => []
  | p :: rest => p ++ flat_map (fun q => space :: q) rest
  end.

(** [r] is [s] without the semicolons at its end: nothing but semicolons
    was taken off, and [r] does not end with one. *)
Definition without_trailing_semicolons (s r : str) : Prop :=
  (exists k, s = r ++ repeat semicolon k)
  /\ last_char r <> Some semicolon.

(** [t] is [s] trimmed: nothing but blanks was taken off at the two
    ends, and [t] neither begins nor ends with one. *)
Definition trimmed_of (s t : str) : Prop :=
  (exists lead trail,
     s = lead ++ t ++ trail
     /\ Forall (fun c => is_space c = true) lead
     /\ Forall (fun c => is_space c = true) trail)
  /\ (t = [] \/ kept_ends is_space t).

(** What a group of lines closed by a boundary gives: its lines joined
    with single blanks, the semicolons at the end taken off, the result
    trimmed; one statement, or none when nothing is left. *)
Definition closed_statement (g : list str) (out : list str) : Prop :=
  exists r t,
    without_trailing_semicolons (spaced g) r
    /\ trimmed_of r t
    /\ out = match t with [] => [] | _ :: _ => [t] end.

(** What the lines left open at the end of the script give. *)
Definition open_statement (rest : list str) : list str :=
  match rest with
  | [] => []
  | _ :: _ => [spaced rest]
  end.

(** The last character of the line is a semicolon. *)
Definition ends_with_semicolon (t : str) : Prop :=
  exists body, t = body ++ [semicolon].

(** A group of lines closed by a boundary: its last line ends with a
    semicolon and none before it does. *)
Definition closed_by_boundary (g : list str) : Prop :=
  exists body t,
    g = body ++ [t]
    /\ ends_with_semicolon t
    /\ Forall (fun x => ~ ends_with_semicolon x) body.

(** The boundary rule, from the lines left by the comment stripper to
    the statements: each line, its inline comment removed, is trimmed;
    the trimmed lines that are not empty, kept in their order, are cut
    after every line that ends with a semicolon and nowhere else; each
    group so closed gives its statement, in order; the lines after the
    last boundary give a last one. *)
Definition follows_boundary_rule (lines out : list str) : Prop :=
  exists ts gs rest outs,
    Forall2 (fun line t => trimmed_of (remove_inline_comment line) t)
            lines ts
    /\ List.concat gs ++ rest = filter truthy ts
    /\ Forall closed_by_boundary gs
    /\ Forall (fun t => ~ ends_with_semicolon t) rest
    /\ Forall2 closed_statement gs outs
    /\ out = List.concat outs ++ open_statement rest.

(** The line holds a block-comment start marker and no end marker. *)
Definition opens_comment (line : str) : bool :=
  contains (py "/*") line && negb (contains (py "*/") line).

(** The cells are such that the [.str] accessor of pandas applies to
    their column: a string among them, or nothing but missing values. *)
Definition str_accessor_applies (cells : list cell) : bool :=
  existsb (fun c => match c with CStr _ => true | _ => false end) cells
  || forallb (fun c => match c with CNull => true | _ => false end) cells.

(** The label stands once among the columns of the frame, so that
    [df[name]] is a column and not a frame. *)
Definition labelled_once (name : str) (df : DataFrame) : bool :=
  List.length (filter (str_eqb name) (columns df)) =? 1.

End Wording.

Export Wording.

(** ** The process around [main]: constructor, prompt and script file *)

Module Process.

(** The script file as [read_sql_file] can find it: no file at the path,
    a file whose opening or decoding raises, or a file with its text. *)
Inductive ScriptFile :=
| NoSuchFile
| Unreadable (e : exn)
| Holds (content : str).

(** [read_sql_file] on such a file. *)
Definition read_sql_file_io (sql_file_path : str) (file : ScriptFile)
  : result str :=
  match file with
  | NoSuchFile => Raise (script_not_found sql_file_path)
  | Unreadable e => Raise e
  | Holds content => Ok content
  end.

(** The file [read_sql_file] takes for an optional content. *)
Definition file_of (sql_file : option str) : ScriptFile :=
  match sql_file with None => NoSuchFile | Some content => Holds content end.




Section MainProcess.

Context {R : Type} `{Remote R}.

(** [execute_setup] with the script file in its three states. *)
Definition execute_setup_io (drop_existing : bool)
  (sql_file_path : str) (file : ScriptFile)
  (sf : SnowflakeConnection R) : SnowflakeConnection R * result Results :=
  let '(sf, connected) := connect sf in
  if negb connected then (sf, Raise connect_failed)
  else
    match read_sql_file_io sql_file_path file with
    | Raise e => (close sf, Raise e)
    | Ok sql_content =>
        let statements := split_sql_statements sql_content in
        let '(sf, results) := execute_all drop_existing statements sf in
        (sf, Ok results)
    end.

(** The setup branch of [main] past the prompt: the calls made and the
    exit status. *)
Definition setup_then_verify (args : Args) (sql_file_path : str)
  (file : ScriptFile) (sf : SnowflakeConnection R) : list call * nat :=
  let '(sf, r) :=
    execute_setup_io (arg_drop_existing args) sql_file_path file sf in
  match r with
  | Raise _ => (calls sf, 1)
  | Ok results =>
      if failed results =? 0 then (calls (fst (verify_setup sf)), 0)
      else (calls (close sf), 0)
  end.

(** The whole [try] of [main].  [constructed] is what
    [FeatureStoreSetup(args.config)] comes to, the remote service behind
    the new object or the exception of the constructor; [answer] is what
    [input] comes to when it is called.  Either [except] clause ends in
    [sys.exit(1)].  Printing and the release of the connection are taken
    not to raise.  The result is the client calls made and the exit
    status. *)
Definition main_process (args : Args) (constructed : result R)
  (answer : result str) (sql_file_path : str) (file : ScriptFile)
  : list call * nat :=
  match constructed with
  | Raise _ => ([], 1)
  | Ok r =>
      let sf := fresh_connection r in
      if arg_verify_only args then (calls (fst (verify_setup sf)), 0)
      else if arg_drop_existing args then
        match answer with
        | Raise _ => (calls sf, 1)
        | Ok response =>
            if negb (str_eqb (lower response) (py "yes")) then
              (* Setup cancelled. *)
              (calls sf, 0)
            else setup_then_verify args sql_file_path file sf
        end
      else setup_then_verify args sql_file_path file sf
  end.

End MainProcess.

End Process.

Export Process.

(** ** Scripts and services of the later runs *)

Module Scenarios3.

(** Five statements, the first a display query, the third [bad_insert]. *)
Definition five_with_display : list str :=
  [py "SELECT * FROM t LIMIT 5"; py "CREATE SCHEMA FEAT_SCHEMA";
   Scenarios.bad_insert; py "SHOW TABLES"; py "CREATE VIEW v AS SELECT 1"].

(** The script that holds these five statements, one per line. *)
Definition five_line_script : str := script_of five_with_display.

(** A statement of 66 characters. *)
Definition long_statement : str :=
  py "CREATE OR REPLACE TABLE FEAT_DB.FEAT_SCHEMA.tx_cleaned AS SELECT 1".

(** Five tallied statements, the third the long one. *)
Definition five_with_long : list str :=
  [py "CREATE DATABASE FEAT_DB"; py "CREATE SCHEMA FEAT_SCHEMA";
   long_statement; py "SHOW TABLES"; py "CREATE VIEW v AS SELECT 1"].

(** Lines of a script: a statement over three lines with an inline
    comment, a blank line, a line with a semicolon in its middle and two
    at its end, and a last line left open. *)
Definition sample_lines : list str :=
  [py "CREATE TABLE t ("; py "  a INT -- the key"; py ");"; py "   ";
   py "SELECT 1; SELECT 2 ;;"; py "tail"].

(** Three lines: a comment opened and closed on the first, which then
    opens another; the third line holds an end marker. *)
Definition reopened_comment : list str :=
  [py "a /* x */ b /* y"; py "c"; py "d */ e"].

(** A line with two line-comment markers, the second after one quote. *)
Definition two_markers : str := py "a -- 'b -- c".

(** A catalog listing whose names are in lower case, beside a column of
    another label. *)
Definition lower_case_listing : DataFrame :=
  MkFrame [py "kind"; py "name"]
    [[CStr (py "TABLE"); CStr (py "tx_cleaned")];
     [CStr (py "TABLE"); CStr (py "other")]].

(** A service that answers the listing of tables with that frame and
    counts 7 rows in whatever it is asked to count. *)
Definition lower_case_catalog : Scripted :=
  MkScripted true
    (fun q => if str_eqb q (listing_query Tables)
              then inr (MkResultSet lower_case_listing 0)
              else inr (Scenarios.count_frame 7)).




End Scenarios3.

(* ===================================================================== *)
(** * Part II: properties                                                 *)
(* ===================================================================== *)

Unset Implicit Arguments.

Import SplitSpec Scenarios.

(** ** Searching a string *)

Section Searching.

Variable pat : str.

Lemma find_unfold (s : str) :
  find pat s =
  if startswith pat s then Some 0
  else match s with
       | [] => None
       | _ :: s' => option_map S (find pat s')
       end.
Proof. destruct s; reflexivity. Qed.

(** What [find] returns is an occurrence, and the lowest one. *)
Lemma find_some (s : str) (n : nat) :
  find pat s = Some n ->
  occurs_at pat n s = true /\ forall i, i < n -> occurs_at pat i s = false.
Proof.
  revert n. induction s as [|c s IH]; intros n; rewrite find_unfold.
  - destruct (startswith pat []) eqn:E; [|discriminate].
    intros [= <-]. split; [exact E | intros i Hi; lia].
  - destruct (startswith pat (c :: s)) eqn:E.
    + intros [= <-]. split; [exact E | intros i Hi; lia].
    + destruct (find pat s) as [m|] eqn:F; simpl; [|discriminate].
      intros [= <-]. destruct (IH m eq_refl) as [Hm Hlt]. split.
      * exact Hm.
      * intros [|i] Hi; [exact E | apply Hlt; lia].
Qed.

(** The lowest occurrence is what [find] returns. *)
Lemma find_lowest (s : str) (n : nat) :
  occurs_at pat n s = true ->
  (forall i, i < n -> occurs_at pat i s = false) ->
  find pat s = Some n.
Proof.
  revert s. induction n as [|n IH]; intros s Hn Hlt; rewrite find_unfold.
  - unfold occurs_at in Hn. simpl in Hn. now rewrite Hn.
  - assert (H0 : startswith pat s = false) by (apply (Hlt 0); lia).
    rewrite H0. destruct s as [|c s].
    + unfold occurs_at in Hn. simpl in Hn. congruence.
    + rewrite (IH s); [reflexivity | exact Hn |].
      intros i Hi. apply (Hlt (S i)). lia.
Qed.

Lemma find_none (s : str) :
  find pat s = None -> forall i, occurs_at pat i s = false.
Proof.
  induction s as [|c s IH]; rewrite find_unfold.
  - destruct (startswith pat []) eqn:E; [discriminate|].
    intros _ i. unfold occurs_at. now rewrite skipn_nil.
  - destruct (startswith pat (c :: s)) eqn:E; [discriminate|].
    destruct (find pat s) eqn:F; simpl; [discriminate|].
    intros _ [|i]; [exact E | now apply IH].
Qed.

Lemma find_none_iff (s : str) :
  find pat s = None <-> forall i, occurs_at pat i s = false.
Proof.
  split; [apply find_none|].
  intros Hall. destruct (find pat s) as [n|] eqn:F; [|reflexivity].
  apply find_some in F. destruct F as [Hn _]. rewrite Hall in Hn. discriminate.
Qed.

Lemma startswith_firstn (n : nat) (s : str) :
  startswith pat (firstn n s) = true -> startswith pat s = true.
Proof.
  revert n s. induction pat as [|p pat' IH]; intros n s; [reflexivity|].
  destruct n, s; simpl; try discriminate.
  intros H. apply andb_true_iff in H. destruct H as [-> H].
  simpl. now apply IH with n.
Qed.

(** A pattern absent from a line is absent from every prefix of it. *)
Lemma contains_firstn (n : nat) (s : str) :
  contains pat s = false -> contains pat (firstn n s) = false.
Proof.
  unfold contains. destruct (find pat s) eqn:F; [discriminate|]. intros _.
  destruct (find pat (firstn n s)) as [m|] eqn:G; [|reflexivity].
  apply find_some in G. destruct G as [Hm _].
  unfold occurs_at in Hm. rewrite skipn_firstn_comm in Hm.
  apply startswith_firstn in Hm.
  pose proof (find_none s F m) as Hn. unfold occurs_at in Hn. congruence.
Qed.

End Searching.

(** ** Inline comments *)

Lemma remove_inline_comment_no_marker (line : str) :
  (forall i, occurs_at (py "--") i line = false) ->
  remove_inline_comment line = line.
Proof.
  intros Hall. unfold remove_inline_comment.
  now rewrite (proj2 (find_none_iff (py "--") line) Hall).
Qed.

(** C6, as the code has it. On a line whose first line-comment marker
    sits at index [n], the marker and what follows are removed exactly
    when the number of single quotes before index [n] is even; when it is
    odd the line is kept as it is, marker and rest included.  A later
    marker is not looked at: it goes or stays with the rest of the
    line. *)
Theorem inline_comment_quote_parity (line : str) (n : nat) :
  occurs_at (py "--") n line = true ->
  (forall i, i < n -> occurs_at (py "--") i line = false) ->
  (Nat.even (count quote (firstn n line)) = true ->
     remove_inline_comment line = firstn n line)
  /\ (Nat.even (count quote (firstn n line)) = false ->
        remove_inline_comment line = line)
  /\ (remove_inline_comment line <> line ->
        Nat.even (count quote (firstn n line)) = true).
Proof.
  intros Hn Hlt. unfold remove_inline_comment.
  rewrite (find_lowest (py "--") line n Hn Hlt).
  destruct (Nat.even (count quote (firstn n line))); repeat split;
    congruence.
Qed.

Lemma inline_comment_quote_parity_witness :
  remove_inline_comment (py "x = 'a--b' -- note") = py "x = 'a--b' -- note"
  /\ remove_inline_comment (py "x = 'ab' -- note") = py "x = 'ab' "
  /\ Nat.even (count quote (firstn 9 (py "x = 'ab' -- note"))) = true.
Proof.
  assert (Hfirst : forall i, i < 9 ->
            occurs_at (py "--") i (py "x = 'ab' -- note") = false).
  { intros i Hi. do 9 (destruct i as [|i]; [reflexivity|]). lia. }
  split; [|split].
  - apply (inline_comment_quote_parity (py "x = 'a--b' -- note") 6).
    + reflexivity.
    + intros i Hi. do 6 (destruct i as [|i]; [reflexivity|]). lia.
    + reflexivity.
  - apply (inline_comment_quote_parity (py "x = 'ab' -- note") 9).
    + reflexivity.
    + exact Hfirst.
    + reflexivity.
  - apply (inline_comment_quote_parity (py "x = 'ab' -- note") 9).
    + reflexivity.
    + exact Hfirst.
    + discriminate.
Defined.

(** ** Block comments *)

Lemma contains_find_none (pat s : str) :
  contains pat s = false -> find pat s = None.
Proof. unfold contains. now destruct (find pat s). Qed.

Lemma contains_find_some (pat s : str) :
  contains pat s = true -> exists n, find pat s = Some n.
Proof. unfold contains. destruct (find pat s) as [n|]; [eauto | discriminate]. Qed.

(** A line that opens a comment and does not close it is skipped, and the
    loop goes on inside the comment. *)
Lemma strip_block_line_opening (b : bool) (line : str) :
  contains (py "/*") line = true ->
  contains (py "*/") line = false ->
  strip_block_line b line = (true, None).
Proof.
  intros Hopen Hclose. unfold strip_block_line.
  destruct (contains_find_some _ _ Hopen) as [start ->].
  rewrite (contains_find_none _ _ Hclose).
  now rewrite (contains_find_none _ _ (contains_firstn _ start _ Hclose)).
Qed.

(** Inside a comment, a line without the end marker is skipped. *)
Lemma strip_block_line_inside (line : str) :
  contains (py "*/") line = false ->
  strip_block_line true line = (true, None).
Proof.
  intros Hclose. destruct (contains (py "/*") line) eqn:Hopen.
  - now apply strip_block_line_opening.
  - unfold strip_block_line.
    rewrite (contains_find_none _ _ Hopen).
    now rewrite (contains_find_none _ _ Hclose).
Qed.

(** Outside a comment, a line that closes what it opens gives one line. *)
Lemma strip_block_line_outside (line : str) :
  implb (contains (py "/*") line) (contains (py "*/") line) = true ->
  exists line', strip_block_line false line = (false, Some line').
Proof.
  intros Himp. unfold strip_block_line.
  destruct (find (py "/*") line) as [start|] eqn:Fo.
  - destruct (find (py "*/") line) as [e|] eqn:Fc; [eauto|].
    unfold contains in Himp. rewrite Fo, Fc in Himp. discriminate.
  - eauto.
Qed.

Lemma strip_block_from_inside (inner rest : list str) :
  Forall (fun l => contains (py "*/") l = false) inner ->
  strip_block_from true (inner ++ rest) = strip_block_from true rest.
Proof.
  induction 1 as [|l inner Hl _ IH]; [reflexivity|].
  simpl. now rewrite (strip_block_line_inside l Hl).
Qed.

(** The loop over a concatenation: the second part resumes in the comment
    state the first part ends in. *)
Lemma strip_block_from_app (b : bool) (before : list str) :
  exists b', forall after,
    strip_block_from b (before ++ after)
    = strip_block_from b before ++ strip_block_from b' after.
Proof.
  revert b. induction before as [|l before IH]; intros b.
  - exists b. reflexivity.
  - simpl. destruct (strip_block_line b l) as [b1 [l'|]];
      destruct (IH b1) as [b' Hb']; exists b'; intros after;
      now rewrite Hb'.
Qed.

Lemma strip_block_from_length (b : bool) (raw : list str) :
  List.length (strip_block_from b raw) <= List.length raw.
Proof.
  revert b. induction raw as [|l raw IH]; intros b; simpl; [lia|].
  destruct (strip_block_line b l) as [b1 [l'|]]; simpl;
    specialize (IH b1); lia.
Qed.

Lemma strip_block_from_closed_length (raw : list str) :
  comments_closed_on_line raw = true ->
  List.length (strip_block_from false raw) = List.length raw.
Proof.
  induction raw as [|l raw IH]; simpl; [reflexivity|].
  intros H. apply andb_true_iff in H. destruct H as [Hl Hraw].
  destruct (strip_block_line_outside l Hl) as [l' ->].
  simpl. now rewrite IH.
Qed.

(** C5 as stated fails: a comment opened on the first of two lines and
    closed on the second leaves one line. *)
Lemma line_count_not_preserved :
  strip_block_comments spanning_comment = [py " b"]
  /\ List.length (split_lines spanning_comment) = 2
  /\ List.length (strip_block_comments spanning_comment)
     <> List.length (split_lines spanning_comment).
Proof. repeat split. vm_compute. discriminate. Qed.

(** C10, as the code has it. Whatever precedes it and in whatever state
    the loop reaches it, a line that holds a start marker and no end
    marker anywhere yields no output line, so the text before its start
    marker is lost with the comment; the following lines yield none
    either as long as they hold no end marker; the output resumes, inside
    the comment, with the first line after them. *)
Theorem unclosed_comment_drops_lines
  (b : bool) (before : list str) (line : str) (inner rest : list str) :
  contains (py "/*") line = true ->
  contains (py "*/") line = false ->
  Forall (fun l => contains (py "*/") l = false) inner ->
  strip_block_from b (before ++ line :: inner ++ rest)
  = strip_block_from b before ++ strip_block_from true rest.
Proof.
  intros Hopen Hclose Hinner.
  destruct (strip_block_from_app b before) as [b' Happ].
  rewrite Happ. f_equal. simpl.
  rewrite (strip_block_line_opening b' line Hopen Hclose).
  now apply strip_block_from_inside.
Qed.

Lemma unclosed_comment_drops_lines_witness :
  strip_block_from false
    ([py "a;"] ++ py "b /* note" :: [py "more"; py "/* again"] ++ [py "end */ c;"; py "d;"])
  = [py "a;"; py " c;"; py "d;"].
Proof.
  rewrite (unclosed_comment_drops_lines false [py "a;"] (py "b /* note")
             [py "more"; py "/* again"] [py "end */ c;"; py "d;"]).
  - reflexivity.
  - reflexivity.
  - reflexivity.
  - repeat constructor.
Defined.

(** ** Trimming *)

Section Stripping.

Variable p : ascii -> bool.

Lemma lstrip_with_first (s : str) :
  lstrip_with p s = []
  \/ exists a, first_char (lstrip_with p s) = Some a /\ p a = false.
Proof.
  induction s as [|c s IH]; simpl; [now left|].
  destruct (p c) eqn:E; [exact IH|]. right. exists c. now split.
Qed.

Lemma lstrip_with_kept (s : str) (a : ascii) :
  first_char s = Some a -> p a = false -> lstrip_with p s = s.
Proof.
  destruct s as [|c s]; simpl; [discriminate|].
  intros [= ->] ->. reflexivity.
Qed.

(** What [lstrip] removes is a prefix. *)
Lemma lstrip_with_suffix (s : str) :
  exists removed, s = removed ++ lstrip_with p s.
Proof.
  induction s as [|c s [removed IH]]; simpl.
  - now exists [].
  - destruct (p c).
    + exists (c :: removed). simpl. now f_equal.
    + now exists [].
Qed.

Lemma rstrip_with_last (s : str) :
  rstrip_with p s = []
  \/ exists z, last_char (rstrip_with p s) = Some z /\ p z = false.
Proof.
  unfold rstrip_with, last_char. rewrite rev_involutive.
  destruct (lstrip_with_first (rev s)) as [-> | H]; [now left | now right].
Qed.

Lemma rstrip_with_kept (s : str) (z : ascii) :
  last_char s = Some z -> p z = false -> rstrip_with p s = s.
Proof.
  unfold rstrip_with, last_char. intros Hz Hp.
  rewrite (lstrip_with_kept (rev s) z Hz Hp). apply rev_involutive.
Qed.

(** What [rstrip] removes is a suffix. *)
Lemma rstrip_with_prefix (s : str) :
  exists removed, s = rstrip_with p s ++ removed.
Proof.
  unfold rstrip_with.
  destruct (lstrip_with_suffix (rev s)) as [removed Hr].
  exists (rev removed). rewrite <- rev_app_distr, <- Hr.
  symmetry. apply rev_involutive.
Qed.

Lemma rstrip_with_first (s : str) :
  rstrip_with p s <> [] -> first_char (rstrip_with p s) = first_char s.
Proof.
  destruct (rstrip_with_prefix s) as [removed Hr]. intros Hne.
  rewrite Hr at 2. destruct (rstrip_with p s); [congruence | reflexivity].
Qed.

(** A string stripped on both sides is empty or keeps both its ends. *)
Lemma strip_both_kept_ends (s : str) :
  rstrip_with p (lstrip_with p s) <> [] ->
  kept_ends p (rstrip_with p (lstrip_with p s)).
Proof.
  intros Hne. split.
  - rewrite (rstrip_with_first _ Hne).
    destruct (lstrip_with_first s) as [E | H]; [|exact H].
    rewrite E in Hne. now elim Hne.
  - destruct (rstrip_with_last (lstrip_with p s)) as [E | H]; [congruence|exact H].
Qed.

(** Stripping leaves a string with kept ends as it is. *)
Lemma kept_ends_fixed (s : str) :
  kept_ends p s -> rstrip_with p (lstrip_with p s) = s.
Proof.
  intros [[a [Ha Hpa]] [z [Hz Hpz]]].
  rewrite (lstrip_with_kept s a Ha Hpa). now apply rstrip_with_kept with z.
Qed.

End Stripping.

Lemma truthy_nonempty (s : str) : truthy s = true <-> s <> [].
Proof. destruct s; simpl; split; congruence. Qed.

Lemma strip_kept_ends (s : str) :
  truthy (strip s) = true -> kept_ends is_space (strip s).
Proof. intros H. apply strip_both_kept_ends, truthy_nonempty, H. Qed.

Lemma strip_fixed (s : str) : kept_ends is_space s -> strip s = s.
Proof. apply kept_ends_fixed. Qed.

Lemma kept_ends_truthy (p : ascii -> bool) (s : str) :
  kept_ends p s -> truthy s = true.
Proof. intros [[a [Ha _]] _]. destruct s; [discriminate | reflexivity]. Qed.

(** ** Joining *)

Lemma join_cons (sep t : str) (ts : list str) :
  ts <> [] -> join sep (t :: ts) = t ++ sep ++ join sep ts.
Proof. destruct ts; [congruence | reflexivity]. Qed.

Lemma join_snoc (sep t : str) (ts : list str) :
  ts <> [] -> join sep (ts ++ [t]) = join sep ts ++ sep ++ t.
Proof.
  induction ts as [|u ts IH]; [congruence|]. intros _.
  destruct ts as [|v ts]; [reflexivity|].
  change (join sep ((u :: v :: ts) ++ [t]))
    with (u ++ sep ++ join sep ((v :: ts) ++ [t])).
  rewrite IH by discriminate.
  change (join sep (u :: v :: ts)) with (u ++ sep ++ join sep (v :: ts)).
  now rewrite <- !app_assoc.
Qed.

Lemma first_char_app (s t : str) :
  s <> [] -> first_char (s ++ t) = first_char s.
Proof. destruct s; [congruence | reflexivity]. Qed.

Lemma last_char_app (s t : str) :
  t <> [] -> last_char (s ++ t) = last_char t.
Proof.
  intros Ht. unfold last_char. rewrite rev_app_distr.
  apply first_char_app. intros E. apply Ht.
  rewrite <- (rev_involutive t), E. reflexivity.
Qed.

Lemma first_char_join (sep t : str) (ts : list str) :
  t <> [] -> first_char (join sep (t :: ts)) = first_char t.
Proof.
  intros Ht. destruct ts as [|u ts]; [reflexivity|].
  rewrite join_cons by discriminate. now apply first_char_app.
Qed.

Lemma last_char_join (sep t : str) (ts : list str) :
  t <> [] -> last_char (join sep (ts ++ [t])) = last_char t.
Proof.
  intros Ht. destruct ts as [|u ts]; [reflexivity|].
  rewrite join_snoc by discriminate.
  rewrite app_assoc. now apply last_char_app.
Qed.

Lemma endswith_last_char (c : ascii) (s : str) :
  endswith [c] s = match last_char s with
                   | Some z => Ascii.eqb c z
                   | None => false
                   end.
Proof.
  unfold endswith, last_char. simpl. destruct (rev s); simpl;
    [reflexivity | apply andb_true_r].
Qed.

(** ** The statement splitter *)

Lemma semicolon_literal : py ";" = [semicolon].
Proof. reflexivity. Qed.

Lemma is_boundary_last_char (t : str) :
  is_boundary t = match last_char t with
                  | Some z => Ascii.eqb semicolon z
                  | None => false
                  end.
Proof.
  unfold is_boundary. rewrite semicolon_literal. apply endswith_last_char.
Qed.

(** The join of a non-empty buffer of open lines is itself trimmed,
    non-blank and not terminated. *)
Lemma join_open_lines (buffer : list str) :
  buffer <> [] -> Forall open_line buffer ->
  open_line (join (py " ") buffer).
Proof.
  intros Hne Hall.
  assert (Hlast : exists front z, buffer = front ++ [z]).
  { destruct (exists_last Hne) as [front [z E]]. eauto. }
  destruct Hlast as [front [z Ez]].
  assert (Hz : open_line z).
  { rewrite Ez in Hall. apply Forall_app in Hall.
    destruct Hall as [_ Hz]. now inversion Hz. }
  destruct buffer as [|t ts]; [congruence|].
  assert (Ht : open_line t) by now inversion Hall.
  destruct Ht as [[[a [Ha Hpa]] _] _].
  destruct Hz as [[_ [y [Hy Hpy]]] Hbz].
  assert (Hzne : z <> []).
  { intros ->. discriminate. }
  assert (Htne : t <> []).
  { intros ->. discriminate. }
  assert (Hl : last_char (join (py " ") (t :: ts)) = last_char z).
  { rewrite Ez. now apply last_char_join. }
  split; [split|].
  - exists a. split; [|exact Hpa]. now rewrite first_char_join.
  - exists y. split; [|exact Hpy]. now rewrite Hl.
  - rewrite is_boundary_last_char in *. now rewrite Hl.
Qed.

(** After the loop: the open buffer, when not empty, always becomes the
    last statement. *)
Lemma split_finish_open (out buffer : list str) :
  Forall open_line buffer ->
  split_finish (SplitState out buffer) = out ++ emit_open buffer.
Proof.
  intros Hall. unfold split_finish, emit_open.
  cbn [current_statement statements].
  destruct buffer as [|t ts]; [now rewrite app_nil_r|].
  destruct (join_open_lines (t :: ts)) as [Hk Hb];
    [discriminate | exact Hall |].
  rewrite (strip_fixed _ Hk).
  rewrite (kept_ends_truthy _ _ Hk).
  unfold is_boundary in Hb. now rewrite Hb.
Qed.

Lemma trimmed_open_line (line : str) :
  truthy (trimmed line) = true -> is_boundary (trimmed line) = false ->
  open_line (trimmed line).
Proof.
  intros Ht Hb. split; [|exact Hb]. now apply strip_kept_ends.
Qed.

Lemma split_step_blank (st : split_state) (line : str) :
  truthy (trimmed line) = false -> split_step st line = st.
Proof. intros H. unfold split_step. fold (trimmed line). now rewrite H. Qed.

Lemma split_step_boundary (st : split_state) (line : str) :
  truthy (trimmed line) = true -> is_boundary (trimmed line) = true ->
  split_step st line
  = SplitState
      (statements st ++ emit_closed (current_statement st ++ [trimmed line]))
      [].
Proof.
  intros Ht Hb. unfold split_step. fold (trimmed line). rewrite Ht. cbn [negb].
  unfold is_boundary in Hb. rewrite Hb. unfold emit_closed.
  destruct (truthy (strip _)); [reflexivity | now rewrite app_nil_r].
Qed.

Lemma split_step_open (st : split_state) (line : str) :
  truthy (trimmed line) = true -> is_boundary (trimmed line) = false ->
  split_step st line
  = SplitState (statements st) (current_statement st ++ [trimmed line]).
Proof.
  intros Ht Hb. unfold split_step. fold (trimmed line). rewrite Ht. cbn [negb].
  unfold is_boundary in Hb. now rewrite Hb.
Qed.

(** The loop from any reachable state: the statements found so far,
    followed by what the grouping of the remaining lines gives. *)
Lemma split_loop_groups (lines out buffer : list str) :
  Forall open_line buffer ->
  split_finish (fold_left split_step lines (SplitState out buffer))
  = out ++ (let '(gs, rest) := groups buffer (trimmed_lines lines) in
            flat_map emit_closed gs ++ emit_open rest).
Proof.
  revert out buffer.
  induction lines as [|line lines IH]; intros out buffer Hbuf.
  - simpl. now apply split_finish_open.
  - cbn [fold_left]. unfold trimmed_lines. cbn [map filter].
    fold (trimmed_lines lines).
    destruct (truthy (trimmed line)) eqn:Ht.
    + cbn [groups]. destruct (is_boundary (trimmed line)) eqn:Hb.
      * rewrite (split_step_boundary _ line Ht Hb). cbn [statements current_statement].
        rewrite (IH _ [] (Forall_nil _)).
        destruct (groups [] (trimmed_lines lines)) as [gs rest].
        cbn [flat_map]. now rewrite <- !app_assoc.
      * rewrite (split_step_open _ line Ht Hb). cbn [statements current_statement].
        apply IH. apply Forall_app. split; [exact Hbuf|].
        constructor; [|constructor]. now apply trimmed_open_line.
    + rewrite (split_step_blank _ line Ht). now apply IH.
Qed.

(** The grouping loses nothing and keeps the order. *)
Lemma groups_concat (ts buffer : list str) :
  List.concat (fst (groups buffer ts)) ++ snd (groups buffer ts) = buffer ++ ts.
Proof.
  revert buffer. induction ts as [|t ts IH]; intros buffer; cbn [groups].
  - simpl. now rewrite app_nil_r.
  - destruct (is_boundary t).
    + specialize (IH []). destruct (groups [] ts) as [gs rest].
      simpl in *. rewrite <- !app_assoc. simpl. now rewrite IH.
    + rewrite IH. now rewrite <- app_assoc.
Qed.

(** The grouping closes a group at every boundary line and nowhere else. *)
Lemma groups_boundaries (ts buffer : list str) :
  Forall (fun x => is_boundary x = false) buffer ->
  Forall closed_group (fst (groups buffer ts))
  /\ Forall (fun x => is_boundary x = false) (snd (groups buffer ts)).
Proof.
  revert buffer. induction ts as [|t ts IH]; intros buffer Hbuf; cbn [groups].
  - simpl. split; [constructor | exact Hbuf].
  - destruct (is_boundary t) eqn:Hb.
    + destruct (IH [] (Forall_nil _)) as [Hgs Hrest].
      destruct (groups [] ts) as [gs rest]. simpl in *. split; [|exact Hrest].
      constructor; [|exact Hgs]. exists buffer, t. now repeat split.
    + apply IH. apply Forall_app. split; [exact Hbuf|]. now repeat constructor.
Qed.

(** ** The call log *)

Lemma new_calls_app {R : Type} (sf sf' : SnowflakeConnection R)
  (new : list call) :
  calls sf' = calls sf ++ new -> new_calls sf sf' = new.
Proof.
  intros E. unfold new_calls. rewrite E, skipn_app, skipn_all, Nat.sub_diag.
  reflexivity.
Qed.

Section ClientLog.

Context {R : Type} `{Remote R}.

Lemma connect_calls (sf : SnowflakeConnection R) :
  calls (fst (connect sf)) = calls sf ++ [CallConnect (snd (connect sf))].
Proof.
  unfold connect. destruct (remote_connect (remote sf)) as [r [|]];
    reflexivity.
Qed.

Lemma connect_conn (sf : SnowflakeConnection R) :
  snd (connect sf) = true -> conn (fst (connect sf)) = true.
Proof.
  unfold connect. destruct (remote_connect (remote sf)) as [r [|]];
    [reflexivity | discriminate].
Qed.

Lemma close_calls (sf : SnowflakeConnection R) :
  calls (close sf) = calls sf ++ [CallClose].
Proof. unfold close. destruct (conn sf); reflexivity. Qed.

(** Every [execute_query] leaves one entry in the log, with the message
    of the exception it raised. *)
Lemma execute_query_calls (query : str) (sf : SnowflakeConnection R) :
  calls (fst (execute_query query sf))
  = calls sf ++ [CallQuery query (raised_of (snd (execute_query query sf)))].
Proof.
  unfold execute_query. destruct (conn sf); simpl; [|reflexivity].
  destruct (remote_execute query (remote sf)) as [r [msg|rs]]; reflexivity.
Qed.

Lemma execute_update_calls (query : str) (sf : SnowflakeConnection R) :
  calls (fst (execute_update query sf))
  = calls sf ++ [CallUpdate query (raised_of (snd (execute_update query sf)))].
Proof.
  unfold execute_update. destruct (conn sf); simpl; [|reflexivity].
  destruct (remote_execute query (remote sf)) as [r [msg|rs]]; reflexivity.
Qed.

(** ** The execution engine *)

(** A statement off the display path leaves one call in the log, carrying
    its text and its outcome. *)
Lemma run_statement_calls (statement : str) (sf : SnowflakeConnection R) :
  exists c,
    calls (fst (run_statement statement sf)) = calls sf ++ [c]
    /\ call_text c = Some statement
    /\ call_raised c = raised_of (snd (run_statement statement sf)).
Proof.
  unfold run_statement. destruct (is_query statement).
  - pose proof (execute_query_calls statement sf) as E.
    destruct (execute_query statement sf) as [sf' [df|e]];
      eexists; (split; [exact E | split; reflexivity]).
  - pose proof (execute_update_calls statement sf) as E.
    destruct (execute_update statement sf) as [sf' [n|e]];
      eexists; (split; [exact E | split; reflexivity]).
Qed.

(** One iteration: one call, and the tallies move as its outcome says. *)
Lemma execute_statement_step (i : nat) (statement : str)
  (sf : SnowflakeConnection R) (results : Results) :
  exists c,
    calls (fst (execute_statement i statement (sf, results)))
    = calls sf ++ [c]
    /\ call_text c = Some statement
    /\ snd (execute_statement i statement (sf, results))
       = MkResults (total_statements results)
           (successful results + successes [c])
           (failed results + List.length (error_entries i [c]))
           (errors results ++ error_entries i [c]).
Proof.
  unfold execute_statement, tallied.
  destruct (is_display_query statement) eqn:D.
  - exists (CallQuery statement
              (raised_of (snd (execute_query statement sf)))).
    split; [apply execute_query_calls|]. split; [reflexivity|].
    cbn [snd successes error_entries call_text call_raised].
    unfold tallied. rewrite D. cbn [negb].
    destruct (raised_of _); simpl; rewrite ?Nat.add_0_r, ?app_nil_r;
      now destruct results.
  - destruct (run_statement_calls statement sf) as [c [Hc [Ht Hr]]].
    exists c. destruct (run_statement statement sf) as [sf' [[]|e]];
      cbn [fst snd] in *; (split; [exact Hc|]); (split; [exact Ht|]);
      cbn [successes error_entries]; rewrite Ht, Hr; cbn [raised_of];
      unfold tallied; rewrite D; cbn [negb List.length];
      rewrite ?Nat.add_0_r, ?app_nil_r; reflexivity.
Qed.

Lemma error_entries_app (i : nat) (cs ds : list call) :
  error_entries i (cs ++ ds)
  = error_entries i cs ++ error_entries (i + List.length cs) ds.
Proof.
  revert i. induction cs as [|c cs IH]; intros i; cbn [app error_entries List.length].
  - now rewrite Nat.add_0_r.
  - rewrite IH. replace (S i + List.length cs) with (i + S (List.length cs)) by lia.
    destruct (call_text c), (call_raised c); try reflexivity.
    destruct (tallied s); reflexivity.
Qed.

Lemma successes_app (cs ds : list call) :
  successes (cs ++ ds) = successes cs + successes ds.
Proof.
  induction cs as [|c cs IH]; cbn [app successes]; [reflexivity|].
  rewrite IH. destruct (call_text c), (call_raised c); lia.
Qed.

(** The loop: one call per statement, in order, and a report that is a
    function of the outcomes logged. *)
Lemma execute_statements_log (statements : list str) (i : nat)
  (sf : SnowflakeConnection R) (results : Results) :
  exists new,
    calls (fst (execute_statements i statements (sf, results)))
    = calls sf ++ new
    /\ map call_text new = map Some statements
    /\ snd (execute_statements i statements (sf, results))
       = MkResults (total_statements results)
           (successful results + successes new)
           (failed results + List.length (error_entries i new))
           (errors results ++ error_entries i new).
Proof.
  revert i sf results.
  induction statements as [|s statements IH]; intros i sf results.
  - exists []. cbn. rewrite !app_nil_r, !Nat.add_0_r. now destruct results.
  - cbn [execute_statements].
    destruct (execute_statement_step i s sf results) as [c [Hc [Ht Hs]]].
    destruct (execute_statement i s (sf, results)) as [sf1 r1].
    cbn [fst snd] in Hc, Hs.
    destruct (IH (S i) sf1 r1) as [new [Hnew [Htexts Hres]]].
    exists (c :: new). split; [|split].
    + rewrite Hnew, Hc, <- app_assoc. reflexivity.
    + cbn [map]. now rewrite Ht, Htexts.
    + rewrite Hres, Hs. cbn [total_statements successful failed errors].
      change (c :: new) with ([c] ++ new).
      rewrite error_entries_app, successes_app, length_app, <- app_assoc.
      cbn [List.length]. replace (i + 1) with (S i) by lia.
      f_equal; lia.
Qed.

End ClientLog.

(** Every tallied statement is counted once, as a success or as a
    failure. *)
Lemma tallies_partition (statements : list str) (new : list call) (i : nat) :
  map call_text new = map Some statements ->
  successes new + List.length (error_entries i new)
  = List.length (filter tallied statements).
Proof.
  revert new i. induction statements as [|s statements IH];
    intros [|c new] i E; try discriminate; [reflexivity|].
  cbn [map] in E. injection E as Ht E.
  cbn [successes error_entries filter]. rewrite Ht.
  specialize (IH new (S i) E).
  destruct (call_raised c), (tallied s); cbn [List.length]; lia.
Qed.

(** An entry of [error_entries] for each tallied statement that raised. *)
Lemma error_entries_in (new : list call) (i k : nat) (c : call)
  (statement msg : str) :
  nth_error new k = Some c ->
  call_text c = Some statement -> call_raised c = Some msg ->
  tallied statement = true ->
  In (MkError (i + k) (statement_preview statement) msg)
     (error_entries i new).
Proof.
  revert i k. induction new as [|d new IH]; intros i [|k] Hk Ht Hr Hd;
    try discriminate.
  - injection Hk as ->. cbn [error_entries]. rewrite Ht, Hr, Hd.
    rewrite Nat.add_0_r. now left.
  - cbn [nth_error] in Hk. cbn [error_entries].
    replace (i + S k) with (S i + k) by lia.
    specialize (IH (S i) k Hk Ht Hr Hd).
    destruct (call_text d), (call_raised d); try exact IH.
    destruct (tallied s); [now right | exact IH].
Qed.

Section EngineProperties.

Context {R : Type} `{Remote R}.

(** C1, as the code has it. The report a run returns has [total] equal
    to the number of statements the splitter produced, and [successful]
    plus [failed] equal to the number of those statements that are off
    the display path; display queries are part of [total] and of neither
    tally. *)
Theorem report_tallies
  (drop_existing : bool) (sql_file_path : str) (sql_file : option str)
  (sf sf' : SnowflakeConnection R) (results : Results) :
  execute_setup drop_existing sql_file_path sql_file sf = (sf', Ok results) ->
  exists sql_content,
    sql_file = Some sql_content
    /\ total_statements results
       = List.length (split_sql_statements sql_content)
    /\ successful results + failed results
       = List.length (filter tallied (split_sql_statements sql_content))
    /\ successful results + failed results <= total_statements results
    /\ failed results = List.length (errors results).
Proof.
  unfold execute_setup. destruct (connect sf) as [sf1 [|]]; [|discriminate].
  cbn [negb]. destruct sql_file as [sql_content|]; [|discriminate].
  cbn [read_sql_file]. unfold execute_all.
  set (sf2 := if drop_existing then drop_existing_objects sf1 else sf1).
  set (statements := split_sql_statements sql_content).
  destruct (execute_statements_log statements 1 sf2
              (initial_results statements)) as [new [_ [Ht Hr]]].
  destruct (execute_statements 1 statements (sf2, initial_results statements))
    as [sf3 r3]. cbn [snd] in Hr. intros [= _ <-]. rewrite Hr.
  cbn [total_statements successful failed errors initial_results app Nat.add].
  pose proof (tallies_partition statements new 1 Ht) as Hp.
  pose proof (filter_length_le tallied statements) as Hle.
  subst statements.
  exists sql_content. split; [reflexivity|]. repeat split; lia.
Qed.

(** C4, as the code has it. A statement takes the display path when its
    trimmed, upper-cased text starts with SELECT and its upper-cased text
    contains LIMIT: it is sent once through [execute_query] and the report
    is left as it was, whether the call returned or raised.  Any other
    statement, a SHOW query included, is counted once. *)
Theorem display_query_is_not_tallied
  (i : nat) (statement : str) (sf : SnowflakeConnection R)
  (results : Results) :
  let out := execute_statement i statement (sf, results) in
  (startswith (py "SELECT") (upper (strip statement)) = true ->
   contains (py "LIMIT") (upper statement) = true ->
   snd out = results
   /\ exists raised, new_calls sf (fst out) = [CallQuery statement raised])
  /\ (startswith (py "SELECT") (upper (strip statement)) = false
      \/ contains (py "LIMIT") (upper statement) = false ->
      successful (snd out) + failed (snd out)
      = successful results + failed results + 1).
Proof.
  cbv zeta. split.
  - intros Hsel Hlim. unfold execute_statement, is_display_query.
    rewrite Hsel, Hlim. cbn [andb fst snd]. split; [reflexivity|].
    eexists. apply new_calls_app. apply execute_query_calls.
  - intros Hnot.
    assert (D : is_display_query statement = false).
    { unfold is_display_query. destruct Hnot as [-> | ->];
        [reflexivity | apply andb_false_r]. }
    unfold execute_statement. rewrite D.
    destruct (run_statement statement sf) as [sf1 [[]|e]];
      cbn [snd successful failed]; lia.
Qed.

(** C7, as the code has it. With no script at the path, the run connects
    first.  When the connection is refused the run ends there with the
    connection error; when it is accepted the run closes it and ends with
    the script-not-found error.  No statement is sent in either case. *)
Theorem missing_script_fails_after_connect
  (drop_existing : bool) (sql_file_path : str)
  (sf : SnowflakeConnection R) :
  let out := execute_setup drop_existing sql_file_path None sf in
  let connected := snd (connect sf) in
  new_calls sf (fst out)
  = CallConnect connected :: (if connected then [CallClose] else [])
  /\ snd out
     = Raise (if connected then script_not_found sql_file_path
              else connect_failed).
Proof.
  cbv zeta. unfold execute_setup.
  pose proof (connect_calls sf) as Hc.
  destruct (connect sf) as [sf1 [|]]; cbn [fst snd negb read_sql_file] in *.
  - split; [|reflexivity].
    apply new_calls_app. rewrite close_calls, Hc, <- app_assoc. reflexivity.
  - split; [|reflexivity].
    now apply new_calls_app.
Qed.

End EngineProperties.

Lemma report_tallies_witness :
  exists sql_content,
    Some display_script = Some sql_content
    /\ 2 = List.length (split_sql_statements sql_content)
    /\ 1 + 0 = List.length (filter tallied (split_sql_statements sql_content))
    /\ 1 + 0 <= 2
    /\ 0 = @List.length ErrorEntry [].
Proof.
  apply (report_tallies false script_path (Some display_script)
           (fresh_connection accepting)
           (fst (execute_setup false script_path (Some display_script)
                   (fresh_connection accepting)))
           (MkResults 2 1 0 [])).
  reflexivity.
Defined.

(** The design document's C1 fails on a script with a display query: two
    statements, one success, no failure. *)
Lemma display_query_breaks_total :
  exists results,
    snd (execute_setup false script_path (Some display_script)
           (fresh_connection accepting)) = Ok results
    /\ total_statements results <> successful results + failed results
    /\ successful results + failed results
       <> List.length (split_sql_statements display_script).
Proof.
  exists (MkResults 2 1 0 []). repeat split; vm_compute; discriminate.
Qed.

Lemma display_query_is_not_tallied_witness :
  snd (execute_statement 2 (py "SELECT * FROM t LIMIT 5")
         (connected_to (rejecting (py "SELECT * FROM t LIMIT 5")),
          MkResults 2 1 0 []))
  = MkResults 2 1 0 []
  /\ successful (snd (execute_statement 1 show_limit
                        (connected_to (rejecting show_limit),
                         MkResults 1 0 0 [])))
     + failed (snd (execute_statement 1 show_limit
                      (connected_to (rejecting show_limit),
                       MkResults 1 0 0 [])))
     = 0 + 0 + 1.
Proof.
  split.
  - apply (display_query_is_not_tallied 2 (py "SELECT * FROM t LIMIT 5")
             (connected_to (rejecting (py "SELECT * FROM t LIMIT 5")))
             (MkResults 2 1 0 [])); reflexivity.
  - apply (display_query_is_not_tallied 1 show_limit
             (connected_to (rejecting show_limit)) (MkResults 1 0 0 [])).
    left. reflexivity.
Defined.

(** The design document's C4 fails on a SHOW query with a row limit: it
    is a query and holds the limiting clause, and its failure is tallied
    and reported. *)
Lemma show_limit_failure_is_tallied :
  is_query show_limit = true
  /\ contains (py "LIMIT") (upper show_limit) = true
  /\ is_display_query show_limit = false
  /\ snd (execute_statements 1 [show_limit]
            (connected_to (rejecting show_limit), initial_results [show_limit]))
     = MkResults 1 0 1
         [MkError 1 show_limit (py "SQL compilation error")].
Proof. repeat split. Qed.

(** The design document's C7 fails: with no script at the path and a
    service that accepts connections, the run has connected, and closed
    the connection again, by the time it fails. *)
Lemma missing_script_connects_first :
  snd (execute_setup false script_path None (fresh_connection accepting))
  = Raise (script_not_found script_path)
  /\ calls (fst (execute_setup false script_path None
                   (fresh_connection accepting)))
     = [CallConnect true; CallClose].
Proof. split; reflexivity. Qed.

(** ** The verifier *)


(** A row-count query is not a catalog listing. *)
Lemma listings_count_query (name : str) (raised : option str) :
  listings [CallQuery (count_query name) raised] = [].
Proof. reflexivity. Qed.

Section VerifierProperties.

Context {R : Type} `{Remote R}.









End VerifierProperties.




(** ** What does hold of every returned statement *)

Lemma clean_app (s t : str) : clean s -> clean t -> clean (s ++ t).
Proof. unfold clean. intros Hs Ht Hin. apply in_app_or in Hin. tauto. Qed.

Lemma clean_firstn (n : nat) (s : str) : clean s -> clean (firstn n s).
Proof.
  intros Hs Hin. apply Hs. rewrite <- (firstn_skipn n s).
  apply in_or_app. now left.
Qed.

Lemma clean_skipn (n : nat) (s : str) : clean s -> clean (skipn n s).
Proof.
  intros Hs Hin. apply Hs. rewrite <- (firstn_skipn n s).
  apply in_or_app. now right.
Qed.

Lemma clean_lstrip (p : ascii -> bool) (s : str) :
  clean s -> clean (lstrip_with p s).
Proof.
  intros Hs Hin. apply Hs. destruct (lstrip_with_suffix p s) as [removed E].
  rewrite E. apply in_or_app. now right.
Qed.

Lemma clean_rstrip (p : ascii -> bool) (s : str) :
  clean s -> clean (rstrip_with p s).
Proof.
  intros Hs Hin. apply Hs. destruct (rstrip_with_prefix p s) as [removed E].
  rewrite E. apply in_or_app. now left.
Qed.

Lemma clean_strip (s : str) : clean s -> clean (strip s).
Proof. intros Hs. now apply clean_rstrip, clean_lstrip. Qed.

Lemma clean_join (parts : list str) :
  Forall clean parts -> clean (join (py " ") parts).
Proof.
  induction 1 as [|t ts Ht Hts IH]; [intros []|].
  destruct ts as [|u ts]; [exact Ht|].
  rewrite join_cons by discriminate.
  apply clean_app; [exact Ht|]. apply clean_app; [|exact IH].
  intros [E | []]. discriminate.
Qed.

Lemma split_lines_clean (s : str) : Forall clean (split_lines s).
Proof.
  induction s as [|c s IH]; cbn [split_lines].
  - constructor; [intros [] | constructor].
  - destruct (Ascii.eqb c newline) eqn:E.
    + constructor; [intros [] | exact IH].
    + assert (Hc : forall l, clean l -> clean (c :: l)).
      { intros l Hl [-> | Hin]; [|contradiction].
        now rewrite Ascii.eqb_refl in E. }
      destruct (split_lines s) as [|l ls].
      * constructor; [|constructor]. apply Hc. intros [].
      * inversion IH; subst. constructor; [now apply Hc | assumption].
Qed.

Lemma strip_block_line_clean (b b' : bool) (line line' : str) :
  clean line -> strip_block_line b line = (b', Some line') -> clean line'.
Proof.
  intros Hl. unfold strip_block_line.
  destruct (find (py "/*") line) as [start|].
  - destruct (find (py "*/") line) as [e|].
    + assert (Hc : clean (firstn start line ++ skipn (e + 2) line))
        by (apply clean_app; [apply clean_firstn | apply clean_skipn]; exact Hl).
      destruct b.
      * destruct (find (py "*/") _); intros [= _ <-]. now apply clean_skipn.
      * now intros [= _ <-].
    + destruct (find (py "*/") _); intros [= _ <-].
      now apply clean_skipn, clean_firstn.
  - destruct b.
    + destruct (find (py "*/") line); intros [= _ <-]. now apply clean_skipn.
    + now intros [= _ <-].
Qed.

Lemma strip_block_from_clean (b : bool) (raw : list str) :
  Forall clean raw -> Forall clean (strip_block_from b raw).
Proof.
  intros H. revert b. induction H as [|l raw Hl _ IH]; intros b;
    [constructor|].
  cbn [strip_block_from].
  destruct (strip_block_line b l) as [b' [l'|]] eqn:E; [|apply IH].
  constructor; [|apply IH]. now apply strip_block_line_clean with b b' l.
Qed.

Lemma trimmed_clean (line : str) : clean line -> clean (trimmed line).
Proof.
  intros Hl. apply clean_strip. unfold remove_inline_comment.
  destruct (find (py "--") line); [|exact Hl].
  destruct (Nat.even _); [now apply clean_firstn | exact Hl].
Qed.

(** The state of the second loop, on lines free of line feeds: the
    statements found are trimmed, non-blank and free of line feeds; the
    buffer holds open lines free of line feeds. *)
Lemma split_step_shape (st : split_state) (line : str) :
  clean line ->
  Forall (fun s => kept_ends is_space s /\ clean s) (statements st) ->
  Forall (fun t => open_line t /\ clean t) (current_statement st) ->
  Forall (fun s => kept_ends is_space s /\ clean s)
         (statements (split_step st line))
  /\ Forall (fun t => open_line t /\ clean t)
            (current_statement (split_step st line)).
Proof.
  intros Hl Hs Hb.
  destruct (truthy (trimmed line)) eqn:Ht;
    [|now rewrite (split_step_blank st line Ht)].
  assert (Hcur : Forall clean (current_statement st ++ [trimmed line])).
  { apply Forall_app. split.
    - eapply Forall_impl; [|exact Hb]. now intros t [_ Hc].
    - constructor; [now apply trimmed_clean | constructor]. }
  destruct (is_boundary (trimmed line)) eqn:Hbd.
  - rewrite (split_step_boundary st line Ht Hbd).
    cbn [statements current_statement]. split; [|constructor].
    apply Forall_app. split; [exact Hs|]. unfold emit_closed.
    destruct (truthy (strip _)) eqn:E; constructor; [|constructor].
    split; [now apply strip_kept_ends|].
    now apply clean_strip, clean_rstrip, clean_join.
  - rewrite (split_step_open st line Ht Hbd).
    cbn [statements current_statement]. split; [exact Hs|].
    apply Forall_app. split; [exact Hb|]. constructor; [|constructor].
    split; [now apply trimmed_open_line | now apply trimmed_clean].
Qed.

Lemma split_loop_shape (lines : list str) (st : split_state) :
  Forall clean lines ->
  Forall (fun s => kept_ends is_space s /\ clean s) (statements st) ->
  Forall (fun t => open_line t /\ clean t) (current_statement st) ->
  Forall (fun s => kept_ends is_space s /\ clean s)
         (split_finish (fold_left split_step lines st)).
Proof.
  intros H. revert st. induction H as [|l lines Hl _ IH]; intros st Hs Hb.
  - cbn [fold_left].
    assert (Hopen : Forall open_line (current_statement st))
      by (eapply Forall_impl; [|exact Hb]; now intros t [Ho _]).
    destruct st as [out buffer]. cbn [statements current_statement] in *.
    rewrite (split_finish_open out buffer Hopen).
    apply Forall_app. split; [exact Hs|]. unfold emit_open.
    destruct buffer as [|t ts]; constructor; [|constructor]. split.
    + now apply join_open_lines.
    + apply clean_join. eapply Forall_impl; [|exact Hb]. now intros u [_ Hc].
  - cbn [fold_left]. destruct (split_step_shape st l Hl Hs Hb) as [Hs' Hb'].
    now apply IH.
Qed.

(** X18. Every statement the splitter returns is non-empty after
    trimming (it is already trimmed) and holds no line feed. *)
Lemma split_sql_statements_shape (sql_content : str) :
  Forall (fun s => strip s = s /\ truthy (strip s) = true
                   /\ ~ In newline s)
         (split_sql_statements sql_content).
Proof.
  unfold split_sql_statements, split_lines_to_statements, strip_block_comments.
  eapply Forall_impl;
    [|apply split_loop_shape;
      [apply strip_block_from_clean, split_lines_clean
      | constructor | constructor]].
  intros s [Hk Hc]. rewrite (strip_fixed s Hk). repeat split.
  - now apply kept_ends_truthy with is_space.
  - exact Hc.
Qed.

(** ** Statements that keep a semicolon *)

(** C9 at the input [a; ;]. The line ends with a semicolon, so it closes
    a statement; [rstrip(';')] removes the last semicolon, [strip()] then
    removes the blank before it, and the statement returned is [a;],
    which ends with a semicolon. *)
Theorem statement_keeps_semicolon :
  split_sql_statements (py "a; ;") = [py "a;"]
  /\ Forall (fun s => endswith (py ";") s = true)
            (split_sql_statements (py "a; ;")).
Proof. split; [reflexivity | repeat constructor]. Qed.

(* ===================================================================== *)
(** * Part III: further properties of the code                            *)
(* ===================================================================== *)

Import Scenarios2.

(** ** The splitter on scripts without block comments *)

Lemma occurs_at_beyond (pat : str) (i : nat) (s : str) :
  pat <> [] -> List.length s <= i -> occurs_at pat i s = false.
Proof.
  intros Hp Hi. unfold occurs_at. rewrite skipn_all2 by exact Hi.
  destruct pat; [congruence | reflexivity].
Qed.

(** A pattern that does not occur in a string does not occur in any
    prefix of it. *)
Lemma occurs_at_firstn (pat : str) (n i : nat) (s : str) :
  occurs_at pat i (firstn n s) = true -> occurs_at pat i s = true.
Proof.
  unfold occurs_at. rewrite skipn_firstn_comm. apply startswith_firstn.
Qed.

Lemma no_block_comment_lines (sql_content : str) :
  Forall (fun line => contains (py "/*") line = false)
         (split_lines sql_content) ->
  strip_block_comments sql_content = split_lines sql_content.
Proof.
  unfold strip_block_comments.
  induction 1 as [|line raw Hline _ IH]; [reflexivity|].
  cbn [strip_block_from]. unfold strip_block_line.
  rewrite (contains_find_none _ _ Hline). now rewrite IH.
Qed.

(** X1. The comment stripper leaves a script alone when no line holds a
    block-comment start marker: every line comes out unchanged, in
    order, whatever end markers the lines hold. *)
Theorem no_block_comment_no_change (sql_content : str) :
  Forall (fun line => contains (py "/*") line = false)
         (split_lines sql_content) ->
  strip_block_comments sql_content = split_lines sql_content
  /\ List.length (strip_block_comments sql_content)
     = List.length (split_lines sql_content).
Proof.
  intros H. rewrite (no_block_comment_lines sql_content H). now split.
Qed.

Lemma no_block_comment_no_change_witness :
  strip_block_comments closed_comment <> split_lines closed_comment
  /\ strip_block_comments (py "a; -- */ b") = [py "a; -- */ b"].
Proof.
  split; [discriminate|].
  apply (no_block_comment_no_change (py "a; -- */ b")).
  repeat constructor.
Defined.

(** ** Inline comments, further *)

(** X2. Removing the inline comment only ever cuts the end of a line,
    and what is left is either the line itself or a text without any
    line-comment marker; removing twice removes nothing more. *)
Theorem inline_comment_cuts_a_suffix (line : str) :
  (exists removed, line = remove_inline_comment line ++ removed)
  /\ (remove_inline_comment line = line
      \/ forall i, occurs_at (py "--") i (remove_inline_comment line) = false)
  /\ remove_inline_comment (remove_inline_comment line)
     = remove_inline_comment line.
Proof.
  assert (Hcases : remove_inline_comment line = line
                   \/ exists n, find (py "--") line = Some n
                                /\ remove_inline_comment line = firstn n line).
  { unfold remove_inline_comment. destruct (find (py "--") line) as [n|];
      [|now left].
    destruct (Nat.even _); [right; eauto | now left]. }
  assert (Hfree : remove_inline_comment line = line
                  \/ forall i, occurs_at (py "--") i
                                 (remove_inline_comment line) = false).
  { destruct Hcases as [E | [n [Hn E]]]; [now left | right].
    rewrite E. intros i.
    destruct (find_some (py "--") line n Hn) as [_ Hlow].
    destruct (occurs_at (py "--") i (firstn n line)) eqn:Ho; [|reflexivity].
    destruct (Nat.lt_ge_cases i n) as [Hi | Hi].
    - apply occurs_at_firstn in Ho. rewrite (Hlow i Hi) in Ho. discriminate.
    - rewrite occurs_at_beyond in Ho; [discriminate | discriminate |].
      rewrite length_firstn. lia. }
  split; [|split; [exact Hfree|]].
  - destruct Hcases as [E | [n [_ E]]]; rewrite E.
    + exists []. now rewrite app_nil_r.
    + exists (skipn n line). symmetry. apply firstn_skipn.
  - destruct Hfree as [E | Hnone]; [now rewrite E|].
    now apply remove_inline_comment_no_marker.
Qed.

(** ** Lines the splitter skips *)

Lemma fold_split_step_skipped (lines : list str) (st : split_state) :
  fold_left split_step (filter (fun l => negb (skipped_line l)) lines) st
  = fold_left split_step lines st.
Proof.
  revert st. induction lines as [|line lines IH]; intros st; [reflexivity|].
  cbn [filter fold_left]. unfold skipped_line at 1. rewrite negb_involutive.
  fold (trimmed line). destruct (truthy (trimmed line)) eqn:Ht.
  - cbn [fold_left]. apply IH.
  - rewrite (split_step_blank st line Ht). apply IH.
Qed.

(** X3. Lines that are blank once their inline comment is removed count
    for nothing: the statements are the same as for the script without
    these lines, wherever the lines stand, also in the middle of a
    statement. *)
Theorem skipped_lines_change_nothing (lines : list str) :
  split_lines_to_statements lines
  = split_lines_to_statements
      (filter (fun line => negb (skipped_line line)) lines).
Proof.
  unfold split_lines_to_statements. now rewrite fold_split_step_skipped.
Qed.

(** ** Scripts written one statement per line *)

Lemma split_lines_line (s rest : str) :
  clean s -> split_lines (s ++ newline :: rest) = s :: split_lines rest.
Proof.
  induction s as [|c s IH]; intros Hs.
  - cbn [app split_lines]. now rewrite Ascii.eqb_refl.
  - cbn [app split_lines].
    assert (Hc : Ascii.eqb c newline = false).
    { apply Ascii.eqb_neq. intros ->. apply Hs. now left. }
    rewrite Hc, IH; [reflexivity|]. intros Hin. apply Hs. now right.
Qed.

(** A pattern free of the character [c] occurs in [s ++ [c]] only where
    it occurs in [s]. *)
Lemma startswith_snoc (pat s : str) (c : ascii) :
  pat <> [] -> ~ In c pat ->
  startswith pat (s ++ [c]) = true -> startswith pat s = true.
Proof.
  revert s. induction pat as [|p pat IH]; intros s Hne Hc; [congruence|].
  destruct s as [|a s]; cbn [app startswith].
  - intros H. apply andb_true_iff in H. destruct H as [H _].
    apply Ascii.eqb_eq in H. subst. elim Hc. now left.
  - intros H. apply andb_true_iff in H. destruct H as [-> H]. cbn [andb].
    destruct pat as [|q pat]; [now destruct s|].
    apply IH; [discriminate | | exact H]. intros Hin. apply Hc. now right.
Qed.

Lemma occurs_at_snoc (pat s : str) (c : ascii) :
  pat <> [] -> ~ In c pat ->
  (forall i, occurs_at pat i s = false) ->
  forall i, occurs_at pat i (s ++ [c]) = false.
Proof.
  intros Hne Hc Hnone i.
  destruct (occurs_at pat i (s ++ [c])) eqn:Ho; [|reflexivity].
  destruct (Nat.lt_ge_cases i (List.length s)) as [Hi | Hi].
  - unfold occurs_at in Ho. rewrite skipn_app in Ho.
    replace (i - List.length s) with 0 in Ho by lia. cbn [skipn] in Ho.
    apply startswith_snoc in Ho; try assumption.
    specialize (Hnone i). unfold occurs_at in Hnone. congruence.
  - unfold occurs_at in Ho. rewrite skipn_app, (skipn_all2 s) in Ho by exact Hi.
    cbn [app] in Ho.
    assert (Hs : startswith pat (skipn (i - List.length s) [c]) = false).
    { destruct (i - List.length s) as [|k].
      - cbn [skipn]. destruct pat as [|p pat]; [congruence|].
        cbn [startswith].
        destruct (Ascii.eqb p c) eqn:E; [|reflexivity].
        apply Ascii.eqb_eq in E. subst. elim Hc. now left.
      - rewrite skipn_all2 by (cbn; lia). destruct pat; [congruence|reflexivity]. }
    congruence.
Qed.

Lemma rstrip_with_snoc_stripped (p : ascii -> bool) (s : str) (c : ascii) :
  p c = true -> rstrip_with p (s ++ [c]) = rstrip_with p s.
Proof.
  intros Hc. unfold rstrip_with. rewrite rev_app_distr. cbn [rev app lstrip_with].
  now rewrite Hc.
Qed.

(** The line a plain statement makes, once the splitter has trimmed it,
    is the statement with its semicolon, and it closes a statement. *)
Lemma plain_statement_line (s : str) :
  plain_statement s ->
  trimmed (s ++ [semicolon]) = s ++ [semicolon]
  /\ is_boundary (s ++ [semicolon]) = true
  /\ emit_closed [s ++ [semicolon]] = [s].
Proof.
  intros (Hk & Hclean & Hblock & Hline & Hsemi).
  assert (Hne : s <> []).
  { apply truthy_nonempty. now apply kept_ends_truthy with is_space. }
  assert (Hlast : last_char (s ++ [semicolon]) = Some semicolon).
  { now rewrite last_char_app by discriminate. }
  split; [|split].
  - unfold trimmed.
    rewrite remove_inline_comment_no_marker.
    + apply strip_fixed. destruct Hk as [[a [Ha Hpa]] _]. split.
      * exists a. split; [|exact Hpa]. now rewrite first_char_app.
      * exists semicolon. split; [exact Hlast | reflexivity].
    + exact Hline.
  - rewrite is_boundary_last_char, Hlast. reflexivity.
  - unfold emit_closed. cbn [join]. unfold rstrip_semicolons.
    rewrite rstrip_with_snoc_stripped by reflexivity.
    assert (Hr : rstrip_with (fun c => Ascii.eqb c semicolon) s = s).
    { destruct Hk as [_ [z [Hz _]]]. apply rstrip_with_kept with z; [exact Hz|].
      change (endswith (py ";") s) with (is_boundary s) in Hsemi.
      rewrite is_boundary_last_char, Hz in Hsemi.
      rewrite Ascii.eqb_sym. exact Hsemi. }
    rewrite Hr, (strip_fixed s Hk). now rewrite (kept_ends_truthy _ _ Hk).
Qed.

Lemma split_lines_script_of (stmts : list str) :
  Forall plain_statement stmts ->
  split_lines (script_of stmts)
  = map (fun s => s ++ [semicolon]) stmts ++ [[]].
Proof.
  induction 1 as [|s stmts Hs _ IH]; [reflexivity|].
  cbn [script_of flat_map map app]. fold (script_of stmts).
  rewrite <- app_assoc. cbn [app].
  change (s ++ semicolon :: newline :: script_of stmts)
    with (s ++ [semicolon] ++ newline :: script_of stmts).
  rewrite app_assoc, split_lines_line, IH; [reflexivity|].
  destruct Hs as (_ & Hclean & _). apply clean_app; [exact Hclean|].
  intros [E | []]. discriminate.
Qed.

Lemma fold_split_step_plain (stmts out : list str) :
  Forall plain_statement stmts ->
  fold_left split_step (map (fun s => s ++ [semicolon]) stmts)
            (SplitState out [])
  = SplitState (out ++ stmts) [].
Proof.
  intros H. revert out. induction H as [|s stmts Hs _ IH]; intros out.
  - cbn. now rewrite app_nil_r.
  - cbn [map fold_left].
    destruct (plain_statement_line s Hs) as (Ht & Hb & He).
    assert (Htruthy : truthy (trimmed (s ++ [semicolon])) = true).
    { rewrite Ht. now destruct s. }
    rewrite (split_step_boundary _ _ Htruthy); [|now rewrite Ht].
    cbn [statements current_statement app]. rewrite Ht.
    unfold str in *. rewrite He, IH.
    now rewrite <- app_assoc.
Qed.

(** X4. Splitting gives back the statements of a script written one
    statement per line: for statements that are trimmed, not empty, free
    of line feeds and of comment start markers, and not ending with a
    semicolon, the script that closes each with a semicolon and a line
    feed splits into exactly these statements, in order. *)
Theorem split_recovers_plain_statements (stmts : list str) :
  Forall (fun s =>
            kept_ends is_space s /\ clean s
            /\ (forall i, occurs_at (py "/*") i s = false)
            /\ (forall i, occurs_at (py "--") i s = false)
            /\ endswith (py ";") s = false) stmts ->
  split_sql_statements (script_of stmts) = stmts.
Proof.
  intros Hall.
  assert (Hplain : Forall plain_statement stmts).
  { eapply Forall_impl; [|exact Hall].
    intros s (Hk & Hc & Hb & Hl & Hs).
    split; [exact Hk|]. split; [exact Hc|]. split; [|split; [|exact Hs]].
    - apply occurs_at_snoc; [discriminate | | exact Hb].
      cbn. intros [E | [E | []]]; discriminate.
    - apply occurs_at_snoc; [discriminate | | exact Hl].
      cbn. intros [E | [E | []]]; discriminate. }
  unfold split_sql_statements.
  rewrite no_block_comment_lines.
  - rewrite (split_lines_script_of stmts Hplain).
    unfold split_lines_to_statements.
    rewrite fold_left_app.
    pose proof (fold_split_step_plain stmts [] Hplain) as Hfold.
    unfold str in *. rewrite Hfold. reflexivity.
  - rewrite (split_lines_script_of stmts Hplain).
    apply Forall_app. split; [|now repeat constructor].
    apply Forall_map. eapply Forall_impl; [|exact Hplain].
    intros s (_ & _ & Hb & _). unfold contains.
    now rewrite (proj2 (find_none_iff (py "/*") _) Hb).
Qed.

Lemma clean_check (s : str) :
  forallb (fun c => negb (Ascii.eqb c newline)) s = true -> clean s.
Proof.
  intros H Hin. rewrite forallb_forall in H. specialize (H newline Hin).
  now rewrite Ascii.eqb_refl in H.
Qed.

Lemma split_recovers_plain_statements_witness :
  split_sql_statements
    (script_of [py "USE DATABASE FEAT_DB"; py "SELECT 'a' AS x"])
  = [py "USE DATABASE FEAT_DB"; py "SELECT 'a' AS x"].
Proof.
  apply split_recovers_plain_statements.
  repeat constructor;
    try (eexists; split; reflexivity);
    try (apply clean_check; reflexivity);
    try (apply find_none; reflexivity).
Defined.

(** ** The preview of a statement *)

Lemma replace_newlines_clean (s : str) : clean (replace_newlines s).
Proof.
  unfold clean, replace_newlines. intros Hin. apply in_map_iff in Hin.
  destruct Hin as [c [Hc _]].
  destruct (Ascii.eqb c newline) eqn:E; [discriminate|].
  apply Ascii.eqb_neq in E. congruence.
Qed.

Lemma replace_newlines_fixed (s : str) : clean s -> replace_newlines s = s.
Proof.
  unfold clean, replace_newlines. induction s as [|c s IH]; intros Hs;
    [reflexivity|].
  cbn [map]. destruct (Ascii.eqb c newline) eqn:E.
  - apply Ascii.eqb_eq in E. subst. elim Hs. now left.
  - rewrite IH; [reflexivity|]. intros Hin. apply Hs. now right.
Qed.

(** X5. The preview kept in an error entry is one line of at most 63
    characters: a statement of at most 60 characters is kept whole, its
    line feeds turned into blanks; a longer one is cut to its first 60
    characters followed by three dots. *)
Theorem preview_is_short_and_on_one_line (statement : str) :
  List.length (statement_preview statement) <= 63
  /\ clean (statement_preview statement)
  /\ (List.length statement <= 60 ->
      statement_preview statement = replace_newlines statement)
  /\ (List.length statement <= 60 -> clean statement ->
      statement_preview statement = statement)
  /\ (60 < List.length statement ->
      statement_preview statement
      = replace_newlines (firstn 60 statement) ++ py "..."
      /\ List.length (statement_preview statement) = 63).
Proof.
  unfold statement_preview.
  assert (Hlen : List.length (replace_newlines (firstn 60 statement))
                 = Nat.min 60 (List.length statement)).
  { unfold replace_newlines. now rewrite length_map, length_firstn. }
  destruct (60 <? List.length statement) eqn:E.
  - apply Nat.ltb_lt in E. split; [|split; [|split; [|split]]].
    + rewrite length_app, Hlen. change (List.length (py "...")) with 3. lia.
    + apply clean_app; [apply replace_newlines_clean|].
      apply clean_check. reflexivity.
    + lia.
    + lia.
    + intros _. split; [reflexivity|]. rewrite length_app, Hlen.
      change (List.length (py "...")) with 3. lia.
  - apply Nat.ltb_ge in E. split; [|split; [|split; [|split]]].
    + rewrite Hlen. lia.
    + apply replace_newlines_clean.
    + intros _. now rewrite firstn_all2.
    + intros _ Hc. rewrite firstn_all2 by exact E.
      now apply replace_newlines_fixed.
    + lia.
Qed.

Lemma preview_is_short_and_on_one_line_witness :
  statement_preview (py "SELECT 1") = py "SELECT 1"
  /\ List.length
       (statement_preview
          (py "CREATE OR REPLACE TABLE FEAT_DB.FEAT_SCHEMA.tx_cleaned AS SELECT 1"))
     = 63.
Proof.
  split.
  - apply (preview_is_short_and_on_one_line (py "SELECT 1")).
    + cbn. lia.
    + apply clean_check. reflexivity.
  - apply (preview_is_short_and_on_one_line
             (py "CREATE OR REPLACE TABLE FEAT_DB.FEAT_SCHEMA.tx_cleaned AS SELECT 1")).
    cbn. lia.
Defined.

(** ** Classification and letter case *)

Lemma upper_char_idempotent (c : ascii) :
  upper_char (upper_char c) = upper_char c.
Proof.
  destruct c as [b0 b1 b2 b3 b4 b5 b6 b7].
  destruct b0, b1, b2, b3, b4, b5, b6, b7; reflexivity.
Qed.

Lemma upper_char_space (c : ascii) : is_space (upper_char c) = is_space c.
Proof.
  destruct c as [b0 b1 b2 b3 b4 b5 b6 b7].
  destruct b0, b1, b2, b3, b4, b5, b6, b7; reflexivity.
Qed.

Lemma upper_idempotent (s : str) : upper (upper s) = upper s.
Proof.
  unfold upper. rewrite map_map. apply map_ext. apply upper_char_idempotent.
Qed.

Lemma lstrip_upper (s : str) :
  lstrip_with is_space (upper s) = upper (lstrip_with is_space s).
Proof.
  induction s as [|c s IH]; [reflexivity|].
  cbn [upper map lstrip_with]. rewrite upper_char_space.
  destruct (is_space c); [exact IH | reflexivity].
Qed.

Lemma strip_upper (s : str) : strip (upper s) = upper (strip s).
Proof.
  unfold strip, rstrip_with. rewrite lstrip_upper.
  unfold upper at 1. rewrite <- map_rev. fold (upper (rev (lstrip_with is_space s))).
  rewrite lstrip_upper. unfold upper. now rewrite map_rev.
Qed.

Lemma strip_idempotent (s : str) : strip (strip s) = strip s.
Proof.
  destruct (truthy (strip s)) eqn:E.
  - apply strip_fixed, strip_kept_ends, E.
  - destruct (strip s); [reflexivity | discriminate].
Qed.

(** X6. The engine classifies a statement by its leading keyword without
    regard to letter case or surrounding blanks: upper-casing a statement
    changes neither whether it goes through the query path nor whether
    it is a display query, and trimming it does not change the path. *)
Theorem classification_ignores_case_and_blanks (statement : str) :
  is_query (upper statement) = is_query statement
  /\ is_display_query (upper statement) = is_display_query statement
  /\ is_query (strip statement) = is_query statement.
Proof.
  unfold is_query, is_display_query.
  rewrite strip_upper, !upper_idempotent, strip_idempotent.
  repeat split.
Qed.

(** ** Teardown and the log of a whole run *)

Section Teardown.

Context {R : Type} `{Remote R}.

(** A loop of updates whose failures are ignored sends every statement,
    in order, through the update path. *)
Lemma ignored_updates_log (stmts : list str) (sf : SnowflakeConnection R) :
  exists outcomes,
    List.length outcomes = List.length stmts
    /\ calls (fold_left (fun sf stmt => fst (execute_update stmt sf)) stmts sf)
       = calls sf ++ with_outcomes (map CallUpdate stmts) outcomes.
Proof.
  revert sf. induction stmts as [|stmt stmts IH]; intros sf.
  - exists []. split; [reflexivity|]. now rewrite app_nil_r.
  - cbn [fold_left].
    destruct (IH (fst (execute_update stmt sf))) as [outcomes [Hlen Hc]].
    exists (raised_of (snd (execute_update stmt sf)) :: outcomes).
    split; [cbn; now rewrite Hlen|].
    rewrite Hc, execute_update_calls, <- app_assoc. reflexivity.
Qed.

(** X7. A run that gets its connection and its script logs, in this
    order: the connection; with [drop_existing], the seven teardown
    statements, each through the update path and each sent whatever
    became of the ones before; then one call per statement of the script.
    The connection is not closed.  The report is made of the script's
    calls alone, so a teardown failure is never counted or listed. *)
Theorem run_log_and_teardown
  (drop_existing : bool) (sql_file_path sql_content : str)
  (sf : SnowflakeConnection R) :
  snd (connect sf) = true ->
  let out := execute_setup drop_existing sql_file_path (Some sql_content) sf in
  exists outcomes script_calls results,
    new_calls sf (fst out)
    = CallConnect true
      :: with_outcomes (map CallUpdate drop_statements) outcomes
      ++ script_calls
    /\ List.length outcomes = (if drop_existing then 7 else 0)
    /\ map call_text script_calls
       = map Some (split_sql_statements sql_content)
    /\ snd out = Ok results
    /\ errors results = error_entries 1 script_calls
    /\ failed results = List.length (error_entries 1 script_calls)
    /\ successful results = successes script_calls.
Proof.
  intros Hok. cbv zeta. unfold execute_setup.
  pose proof (connect_calls sf) as Hc.
  destruct (connect sf) as [sf1 ok]. cbn [fst snd] in Hc, Hok. subst ok.
  cbn [negb read_sql_file]. unfold execute_all.
  set (statements := split_sql_statements sql_content).
  set (sf2 := if drop_existing then drop_existing_objects sf1 else sf1).
  assert (Hdrop : exists outcomes,
             List.length outcomes = (if drop_existing then 7 else 0)
             /\ calls sf2
                = calls sf1
                  ++ with_outcomes (map CallUpdate drop_statements) outcomes).
  { subst sf2. destruct drop_existing.
    - apply (ignored_updates_log drop_statements sf1).
    - exists []. split; [reflexivity|]. cbn. now rewrite app_nil_r. }
  destruct Hdrop as [outcomes [Hlen Hd]].
  destruct (execute_statements_log statements 1 sf2
              (initial_results statements)) as [new [Hn [Ht Hr]]].
  destruct (execute_statements 1 statements (sf2, initial_results statements))
    as [sf3 r3]. cbn [fst snd] in *.
  exists outcomes, new, r3. split; [|split; [exact Hlen|split; [exact Ht|]]].
  - apply new_calls_app. rewrite Hn, Hd, Hc, <- !app_assoc. reflexivity.
  - rewrite Hr. cbn. repeat split.
Qed.

End Teardown.

Lemma run_log_and_teardown_witness :
  exists outcomes script_calls results,
    new_calls (fresh_connection (rejecting (py "DROP SCHEMA IF EXISTS FEAT_DB.FEAT_SCHEMA")))
      (fst (execute_setup true script_path (Some display_script)
              (fresh_connection (rejecting (py "DROP SCHEMA IF EXISTS FEAT_DB.FEAT_SCHEMA")))))
    = CallConnect true
      :: with_outcomes (map CallUpdate drop_statements) outcomes
      ++ script_calls
    /\ List.length outcomes = 7
    /\ map call_text script_calls
       = map Some (split_sql_statements display_script)
    /\ snd (execute_setup true script_path (Some display_script)
              (fresh_connection (rejecting (py "DROP SCHEMA IF EXISTS FEAT_DB.FEAT_SCHEMA"))))
       = Ok results
    /\ errors results = error_entries 1 script_calls
    /\ failed results = List.length (error_entries 1 script_calls)
    /\ successful results = successes script_calls.
Proof.
  apply (run_log_and_teardown true script_path display_script
           (fresh_connection
              (rejecting (py "DROP SCHEMA IF EXISTS FEAT_DB.FEAT_SCHEMA")))).
  reflexivity.
Defined.

(** ** Dictionaries *)

Lemma str_eqb_eq (a b : str) : str_eqb a b = true <-> a = b.
Proof.
  revert b. induction a as [|x a IH]; intros [|y b]; cbn [str_eqb];
    try (split; [discriminate | congruence]); [tauto|].
  rewrite andb_true_iff, Ascii.eqb_eq, IH. split.
  - intros [-> ->]. reflexivity.
  - intros [= -> ->]. now split.
Qed.

Lemma str_eqb_refl (a : str) : str_eqb a a = true.
Proof. now apply str_eqb_eq. Qed.

Section Dict.

Context {V : Type}.

(** Looking up after an assignment. *)
Lemma dict_get_set (k k0 : str) (x : V) (d : dict V) :
  dict_get k (dict_set k0 x d)
  = if str_eqb k0 k then Some x else dict_get k d.
Proof.
  induction d as [|[k' v'] d IH]; [reflexivity|].
  cbn [dict_set]. destruct (str_eqb k' k0) eqn:E.
  - apply str_eqb_eq in E. subst k'. cbn [dict_get].
    now destruct (str_eqb k0 k).
  - cbn [dict_get]. rewrite IH.
    destruct (str_eqb k' k) eqn:E1; [|reflexivity].
    destruct (str_eqb k0 k) eqn:E2; [|reflexivity].
    apply str_eqb_eq in E1, E2. subst.
    now rewrite str_eqb_refl in E.
Qed.

Lemma keys_dict_set (k : str) (x : V) (d : dict V) :
  incl (keys (dict_set k x d)) (k :: keys d)
  /\ incl (k :: keys d) (keys (dict_set k x d)).
Proof.
  unfold keys. induction d as [|[k' v'] d [IH1 IH2]]; cbn [dict_set map fst].
  - split; apply incl_refl.
  - destruct (str_eqb k' k) eqn:E; cbn [map fst].
    + apply str_eqb_eq in E. subst k'. split.
      * intros n Hn. now right.
      * intros n [<- | Hn]; [now left | exact Hn].
    + split.
      * intros n [<- | Hn]; [right; now left|].
        destruct (IH1 n Hn) as [<- | Hd]; [now left | right; now right].
      * intros n Hn.
        assert (Hcases : n = k' \/ In n (k :: map fst d))
          by (destruct Hn as [<- | [<- | Hd]];
              [right; now left | now left | right; now right]).
        destruct Hcases as [-> | Hd]; [now left | right; now apply IH2].
Qed.

End Dict.

(** ** The report of the verifier *)

Section VerifierReport.

Context {R : Type} `{Remote R}.

Lemma set_exists_existence (c : category) (name : str) (b : bool)
  (v : Verification) :
  existence c (set_exists c name b v) = dict_set name b (existence c v).
Proof. now destruct c. Qed.

(** Setting the existence of an object already counted keeps the counts
    backed, as long as the record agrees with the listing. *)
Lemma set_exists_backed (c : category) (existing : list (option str))
  (name : str) (v : Verification) :
  counts_backed v -> agrees c existing v ->
  counts_backed (set_exists c name (listed name existing) v)
  /\ agrees c existing (set_exists c name (listed name existing) v).
Proof.
  intros Hb Ha. split.
  - intros n Hn.
    assert (Hn' : In n (keys (data_counts v))) by (now destruct c).
    specialize (Hb n Hn'). destruct c; cbn [set_exists tables views].
    + destruct Hb as [Ht | Hv]; [left | now right].
      rewrite dict_get_set. destruct (str_eqb name n) eqn:E; [|exact Ht].
      apply str_eqb_eq in E. subst n.
      now rewrite <- (Ha name true Ht).
    + destruct Hb as [Ht | Hv]; [now left | right].
      rewrite dict_get_set. destruct (str_eqb name n) eqn:E; [|exact Hv].
      apply str_eqb_eq in E. subst n.
      now rewrite <- (Ha name true Hv).
  - intros n b. rewrite set_exists_existence, dict_get_set.
    destruct (str_eqb name n) eqn:E; [|apply Ha].
    apply str_eqb_eq in E. subst n. now intros [= <-].
Qed.

Lemma set_count_backed (c : category) (existing : list (option str))
  (name : str) (n : cell) (v : Verification) :
  counts_backed v -> agrees c existing v ->
  dict_get name (existence c v) = Some true ->
  counts_backed (set_count name n v)
  /\ agrees c existing (set_count name n v).
Proof.
  intros Hb Ha He. split.
  - intros m Hm. cbn [set_count tables views data_counts] in *.
    apply (proj1 (keys_dict_set name n (data_counts v))) in Hm.
    destruct Hm as [<- | Hm]; [|now apply Hb].
    destruct c; [now left | now right].
  - intros m b. now destruct c; apply Ha.
Qed.

(** The loop of a category keeps the counts backed. *)
Lemma check_objects_backed (c : category) (existing : list (option str))
  (names : list str) (st : vstate) :
  counts_backed (snd st) -> agrees c existing (snd st) ->
  counts_backed (snd (fst (check_objects c existing names st)))
  /\ agrees c existing (snd (fst (check_objects c existing names st))).
Proof.
  revert st. induction names as [|name names IH]; intros [sf v] Hb Ha;
    [now split|].
  cbn [check_objects snd] in *.
  destruct (set_exists_backed c existing name v Hb Ha) as [Hb1 Ha1].
  destruct (listed name existing) eqn:El.
  - destruct (execute_query (count_query name) sf) as [sf1 [df|e]];
      [|now split].
    destruct (first_count df) as [n|e]; [|now split].
    apply IH; cbn [snd];
      apply (set_count_backed c existing name n _ Hb1 Ha1);
      rewrite set_exists_existence, dict_get_set, str_eqb_refl; reflexivity.
  - now apply IH.
Qed.

(** What the loop of a category may add to the report: keys among the
    names it is given, in its own mapping and in the counts. *)
Lemma check_objects_keys (c : category) (existing : list (option str))
  (names : list str) (st : vstate) :
  let v := snd st in
  let v' := snd (fst (check_objects c existing names st)) in
  incl (keys (existence c v')) (keys (existence c v) ++ names)
  /\ incl (keys (data_counts v')) (keys (data_counts v) ++ names)
  /\ database_exists v' = database_exists v
  /\ schema_exists v' = schema_exists v
  /\ match c with
     | Tables => views v' = views v
     | Views => tables v' = tables v
     end.
Proof.
  cbv zeta. revert st. induction names as [|name names IH]; intros [sf v].
  - cbn [check_objects fst snd]. rewrite !app_nil_r.
    repeat split; try apply incl_refl. now destruct c.
  - cbn [check_objects].
    set (v1 := set_exists c name (listed name existing) v).
    assert (H1 : incl (keys (existence c v1)) (keys (existence c v) ++ [name])
                 /\ data_counts v1 = data_counts v
                 /\ database_exists v1 = database_exists v
                 /\ schema_exists v1 = schema_exists v
                 /\ match c with
                    | Tables => views v1 = views v
                    | Views => tables v1 = tables v
                    end).
    { subst v1. rewrite set_exists_existence. split.
      - intros n Hn. apply (proj1 (keys_dict_set _ _ _)) in Hn.
        apply in_or_app. destruct Hn as [<- | Hn]; [right; now left | now left].
      - now destruct c. }
    destruct H1 as (Hk1 & Hd1 & Hdb1 & Hs1 & Ho1).
    assert (Hstop : incl (keys (existence c v1))
                         (keys (existence c v) ++ name :: names)
                    /\ incl (keys (data_counts v1))
                            (keys (data_counts v) ++ name :: names)
                    /\ database_exists v1 = database_exists v
                    /\ schema_exists v1 = schema_exists v
                    /\ match c with
                       | Tables => views v1 = views v
                       | Views => tables v1 = tables v
                       end).
    { split; [|split; [|now repeat split]].
      - intros n Hn. apply Hk1 in Hn. apply in_app_or in Hn. apply in_or_app.
        destruct Hn as [Hn | [<- | []]]; [now left | right; now left].
      - rewrite Hd1. now apply incl_appl, incl_refl. }
    assert (Hgo : forall sf' v2,
               incl (keys (existence c v2)) (keys (existence c v) ++ [name]) ->
               incl (keys (data_counts v2)) (keys (data_counts v) ++ [name]) ->
               database_exists v2 = database_exists v ->
               schema_exists v2 = schema_exists v ->
               match c with
               | Tables => views v2 = views v
               | Views => tables v2 = tables v
               end ->
               let v' := snd (fst (check_objects c existing names (sf', v2))) in
               incl (keys (existence c v')) (keys (existence c v) ++ name :: names)
               /\ incl (keys (data_counts v'))
                       (keys (data_counts v) ++ name :: names)
               /\ database_exists v' = database_exists v
               /\ schema_exists v' = schema_exists v
               /\ match c with
                  | Tables => views v' = views v
                  | Views => tables v' = tables v
                  end).
    { intros sf' v2 Hk2 Hd2 Hdb2 Hs2 Ho2. cbv zeta.
      destruct (IH (sf', v2)) as (Ik & Id & Idb & Is & Io). cbn [snd] in *.
      split; [|split; [|split; [congruence|split; [congruence|]]]].
      - intros n Hn. apply Ik in Hn. apply in_app_or in Hn. apply in_or_app.
        destruct Hn as [Hn | Hn]; [|right; now right].
        apply Hk2 in Hn. apply in_app_or in Hn.
        destruct Hn as [Hn | [<- | []]]; [now left | right; now left].
      - intros n Hn. apply Id in Hn. apply in_app_or in Hn. apply in_or_app.
        destruct Hn as [Hn | Hn]; [|right; now right].
        apply Hd2 in Hn. apply in_app_or in Hn.
        destruct Hn as [Hn | [<- | []]]; [now left | right; now left].
      - destruct c; congruence. }
    destruct (listed name existing).
    + destruct (execute_query (count_query name) sf) as [sf1 [df|e]];
        [|exact Hstop].
      destruct (first_count df) as [n|e]; [|exact Hstop].
      apply Hgo.
      * now destruct c.
      * intros m Hm. cbn [set_count data_counts] in Hm.
        apply (proj1 (keys_dict_set _ _ _)) in Hm. rewrite Hd1 in Hm.
        apply in_or_app. destruct Hm as [<- | Hm]; [right; now left | now left].
      * exact Hdb1.
      * exact Hs1.
      * now destruct c.
    + apply Hgo; try assumption. rewrite Hd1. now apply incl_appl, incl_refl.
Qed.

Lemma check_database_report (st : vstate) :
  tables (snd (check_database st)) = tables (snd st)
  /\ views (snd (check_database st)) = views (snd st)
  /\ data_counts (snd (check_database st)) = data_counts (snd st).
Proof.
  destruct st as [sf v]. unfold check_database.
  destruct (execute_query (py "SHOW DATABASES") sf) as [sf1 [df|e]];
    now repeat split.
Qed.

Lemma check_schema_report (st : vstate) :
  tables (snd (check_schema st)) = tables (snd st)
  /\ views (snd (check_schema st)) = views (snd st)
  /\ data_counts (snd (check_schema st)) = data_counts (snd st).
Proof.
  destruct st as [sf v]. unfold check_schema.
  destruct (execute_query (py "SHOW SCHEMAS IN DATABASE FEAT_DB") sf)
    as [sf1 [df|e]]; now repeat split.
Qed.

(** One category, started with an empty mapping of its own. *)
Lemma check_category_report (c : category) (st : vstate) :
  counts_backed (snd st) -> existence c (snd st) = [] ->
  let v := snd st in
  let v' := snd (check_category c st) in
  counts_backed v'
  /\ incl (keys (existence c v')) (names_to_check c)
  /\ incl (keys (data_counts v')) (keys (data_counts v) ++ names_to_check c)
  /\ match c with
     | Tables => views v' = views v
     | Views => tables v' = tables v
     end.
Proof.
  destruct st as [sf v]. cbn [snd]. intros Hb He. cbv zeta.
  unfold check_category.
  destruct (execute_query (listing_query c) sf) as [sf1 [df|e]].
  - assert (Ha : agrees c (upper_names df) v).
    { intros n b. rewrite He. discriminate. }
    destruct (check_objects_backed c (upper_names df) (names_to_check c)
                (sf1, v) Hb Ha) as [Hb' _].
    destruct (check_objects_keys c (upper_names df) (names_to_check c)
                (sf1, v)) as (Hk & Hd & _ & _ & Ho).
    cbn [snd] in *. rewrite He in Hk. now repeat split.
  - cbn [snd]. rewrite He. repeat split.
    + exact Hb.
    + intros n [].
    + now apply incl_appl, incl_refl.
    + now destruct c.
Qed.

(** X8. The verification report speaks of the expected objects only, and
    backs every count: the keys of [tables] are among the three expected
    tables, those of [views] among the two expected views, those of
    [data_counts] among the five; and an object has a row count only if
    the report shows it as existing. *)
Theorem report_covers_the_manifest_only (sf : SnowflakeConnection R) :
  let v := snd (verify_setup sf) in
  incl (keys (tables v)) tables_to_check
  /\ incl (keys (views v)) views_to_check
  /\ incl (keys (data_counts v)) (tables_to_check ++ views_to_check)
  /\ (forall name n,
        dict_get name (data_counts v) = Some n ->
        dict_get name (tables v) = Some true
        \/ dict_get name (views v) = Some true).
Proof.
  cbv zeta. unfold verify_setup.
  set (sf0 := if negb (conn sf) || negb (cursor sf)
              then fst (connect sf) else sf).
  set (st1 := check_database (sf0, initial_verification)).
  destruct (check_database_report (sf0, initial_verification))
    as (Ht1 & Hv1 & Hd1). fold st1 in Ht1, Hv1, Hd1. cbn [snd] in Ht1, Hv1, Hd1.
  set (st2 := check_schema st1).
  destruct (check_schema_report st1) as (Ht2 & Hv2 & Hd2).
  fold st2 in Ht2, Hv2, Hd2. rewrite Ht1 in Ht2. rewrite Hv1 in Hv2.
  rewrite Hd1 in Hd2. cbn in Ht2, Hv2, Hd2.
  assert (Hb2 : counts_backed (snd st2)).
  { intros n Hn. rewrite Hd2 in Hn. destruct Hn. }
  destruct (check_category_report Tables st2 Hb2 Ht2) as (Hb3 & Hk3 & Hd3 & Hv3).
  set (st3 := check_category Tables st2) in *.
  rewrite Hv2 in Hv3. rewrite Hd2 in Hd3. cbn [keys map app] in Hd3.
  destruct (check_category_report Views st3 Hb3 Hv3) as (Hb4 & Hk4 & Hd4 & Ht4).
  set (st4 := check_category Views st3) in *.
  destruct st4 as [sf4 v4] eqn:E4. cbn [snd fst] in *.
  split; [|split; [|split]].
  - rewrite Ht4. exact Hk3.
  - exact Hk4.
  - intros n Hn. apply Hd4 in Hn. apply in_app_or in Hn. apply in_or_app.
    destruct Hn as [Hn | Hn]; [left; now apply Hd3 | now right].
  - intros name n Hn. apply Hb4. clear - Hn.
    induction (data_counts v4) as [|[k x] d IH]; [discriminate|].
    cbn [dict_get] in Hn. cbn [keys map fst].
    destruct (str_eqb k name) eqn:E.
    + left. now apply str_eqb_eq.
    + right. now apply IH.
Qed.

(** The loop of a category, run to its end, has recorded every name it
    was given. *)
Lemma check_objects_complete (c : category) (existing : list (option str))
  (names done : list str) (st : vstate) :
  (forall name, In name done ->
     dict_get name (existence c (snd st)) = Some (listed name existing)
     /\ (listed name existing = true ->
         In name (keys (data_counts (snd st))))) ->
  snd (check_objects c existing names st) = Ok tt ->
  forall name, In name (done ++ names) ->
    let v' := snd (fst (check_objects c existing names st)) in
    dict_get name (existence c v') = Some (listed name existing)
    /\ (listed name existing = true -> In name (keys (data_counts v'))).
Proof.
  revert done st. induction names as [|name names IH];
    intros done [sf v] Hdone Hok n Hn.
  - rewrite app_nil_r in Hn. now apply Hdone.
  - cbn [check_objects] in *. cbn [snd] in Hdone.
    set (v1 := set_exists c name (listed name existing) v) in *.
    assert (H1 : forall m, In m (done ++ [name]) ->
               dict_get m (existence c v1) = Some (listed m existing)
               /\ (listed m existing = true -> listed name existing = true ->
                   m <> name -> In m (keys (data_counts v1)))).
    { intros m Hm. subst v1. rewrite set_exists_existence, dict_get_set.
      apply in_app_or in Hm. destruct (str_eqb name m) eqn:E.
      - apply str_eqb_eq in E. subst m. split; [reflexivity|]. congruence.
      - destruct Hm as [Hm | [<- | []]]; [|now rewrite str_eqb_refl in E].
        destruct (Hdone m Hm) as [Hg Hc]. split; [exact Hg|].
        intros Hl _ _. destruct c; now apply Hc. }
    assert (Hn' : In n ((done ++ [name]) ++ names))
      by (rewrite <- app_assoc; exact Hn).
    destruct (listed name existing) eqn:El.
    + destruct (execute_query (count_query name) sf) as [sf1 [df|e]];
        [|discriminate].
      destruct (first_count df) as [cnt|e]; [|discriminate].
      apply (IH (done ++ [name]) (sf1, set_count name cnt v1)); try assumption.
      intros m Hm. cbn [snd]. destruct (H1 m Hm) as [Hg Hc]. split.
      * now destruct c.
      * intros Hl. cbn [set_count data_counts].
        apply (proj2 (keys_dict_set name cnt (data_counts v1))).
        destruct (str_eqb name m) eqn:E.
        -- apply str_eqb_eq in E. now left.
        -- right. apply Hc; [exact Hl | reflexivity |].
           intros ->. now rewrite str_eqb_refl in E.
    + apply (IH (done ++ [name]) (sf, v1)); try assumption.
      intros m Hm. cbn [snd]. destruct (H1 m Hm) as [Hg Hc]. split; [exact Hg|].
      intros Hl. apply in_app_or in Hm. destruct Hm as [Hm | [<- | []]].
      * destruct (Hdone m Hm) as [_ Hc']. subst v1. destruct c; now apply Hc'.
      * congruence.
Qed.

End VerifierReport.

(** ** The calls of the verifier *)

Section VerifierCalls.

Context {R : Type} `{Remote R}.

Lemma execute_query_conn (query : str) (sf : SnowflakeConnection R) :
  conn (fst (execute_query query sf)) = conn sf
  /\ cursor (fst (execute_query query sf)) = cursor sf.
Proof.
  unfold execute_query. destruct (conn sf) eqn:E; cbn [negb].
  - destruct (remote_execute query (remote sf)) as [r [msg|rs]];
      cbn; now rewrite E.
  - cbn. now rewrite E.
Qed.

Lemma execute_update_conn (query : str) (sf : SnowflakeConnection R) :
  conn (fst (execute_update query sf)) = conn sf
  /\ cursor (fst (execute_update query sf)) = cursor sf.
Proof.
  unfold execute_update. destruct (conn sf) eqn:E; cbn [negb].
  - destruct (remote_execute query (remote sf)) as [r [msg|rs]];
      cbn; now rewrite E.
  - cbn. now rewrite E.
Qed.

Lemma count_query_allowed (name : str) (raised : option str) :
  In name (tables_to_check ++ views_to_check) ->
  verifier_call (CallQuery (count_query name) raised) = true.
Proof.
  intros Hin. cbn in Hin.
  repeat (destruct Hin as [<- | Hin]; [reflexivity|]). destruct Hin.
Qed.

(** The loop of a category: row counts on the names it is given, and the
    connection object keeps its fields. *)
Lemma check_objects_calls (c : category) (existing : list (option str))
  (names : list str) (st : vstate) :
  exists new,
    calls (fst (fst (check_objects c existing names st)))
    = calls (fst st) ++ new
    /\ Forall (fun cl => exists name raised,
                 In name names /\ cl = CallQuery (count_query name) raised)
              new
    /\ conn (fst (fst (check_objects c existing names st))) = conn (fst st)
    /\ cursor (fst (fst (check_objects c existing names st)))
       = cursor (fst st).
Proof.
  revert st. induction names as [|name names IH]; intros [sf v].
  - exists []. cbn. rewrite app_nil_r. now repeat split.
  - cbn [check_objects].
    assert (Hweak : forall sf' v',
               (exists new,
                  calls (fst (fst (check_objects c existing names (sf', v'))))
                  = calls sf' ++ new
                  /\ Forall (fun cl => exists name0 raised,
                               In name0 (name :: names)
                               /\ cl = CallQuery (count_query name0) raised)
                            new
                  /\ conn (fst (fst (check_objects c existing names (sf', v'))))
                     = conn sf'
                  /\ cursor (fst (fst (check_objects c existing names (sf', v'))))
                     = cursor sf')).
    { intros sf' v'. destruct (IH (sf', v')) as [new (Hc & Hf & Hcn & Hcu)].
      exists new. cbn [fst] in *. repeat split; try assumption.
      eapply Forall_impl; [|exact Hf].
      intros cl [n [r [Hn ->]]]. exists n, r. split; [now right | reflexivity]. }
    destruct (listed name existing); [|apply Hweak].
    pose proof (execute_query_calls (count_query name) sf) as Hq.
    pose proof (execute_query_conn (count_query name) sf) as [Hcn Hcu].
    destruct (execute_query (count_query name) sf) as [sf1 res].
    cbn [fst snd] in Hq, Hcn, Hcu.
    assert (Hstop : exists new,
               calls sf1 = calls sf ++ new
               /\ Forall (fun cl => exists name0 raised,
                            In name0 (name :: names)
                            /\ cl = CallQuery (count_query name0) raised) new
               /\ conn sf1 = conn sf /\ cursor sf1 = cursor sf).
    { eexists. split; [exact Hq|]. repeat split; try assumption.
      constructor; [|constructor]. eexists _, _. split; [now left|reflexivity]. }
    destruct res as [df|e]; [|exact Hstop].
    destruct (first_count df) as [n|e]; [|exact Hstop].
    destruct (Hweak sf1 (set_count name n
                           (set_exists c name true v)))
      as [new (Hc & Hf & Hcn' & Hcu')].
    eexists. cbn [fst]. split; [rewrite Hc, Hq, <- app_assoc; reflexivity|].
    repeat split; try congruence.
    constructor; [|exact Hf]. eexists _, _. split; [now left|reflexivity].
Qed.

Lemma check_database_calls (st : vstate) :
  exists raised,
    calls (fst (check_database st))
    = calls (fst st) ++ [CallQuery (py "SHOW DATABASES") raised]
    /\ conn (fst (check_database st)) = conn (fst st)
    /\ cursor (fst (check_database st)) = cursor (fst st).
Proof.
  destruct st as [sf v]. unfold check_database.
  pose proof (execute_query_calls (py "SHOW DATABASES") sf) as Hq.
  pose proof (execute_query_conn (py "SHOW DATABASES") sf) as [Hcn Hcu].
  destruct (execute_query (py "SHOW DATABASES") sf) as [sf1 [df|e]];
    eexists; (split; [exact Hq | now split]).
Qed.

Lemma check_schema_calls (st : vstate) :
  exists raised,
    calls (fst (check_schema st))
    = calls (fst st)
      ++ [CallQuery (py "SHOW SCHEMAS IN DATABASE FEAT_DB") raised]
    /\ conn (fst (check_schema st)) = conn (fst st)
    /\ cursor (fst (check_schema st)) = cursor (fst st).
Proof.
  destruct st as [sf v]. unfold check_schema.
  pose proof (execute_query_calls (py "SHOW SCHEMAS IN DATABASE FEAT_DB") sf)
    as Hq.
  pose proof (execute_query_conn (py "SHOW SCHEMAS IN DATABASE FEAT_DB") sf)
    as [Hcn Hcu].
  destruct (execute_query (py "SHOW SCHEMAS IN DATABASE FEAT_DB") sf)
    as [sf1 [df|e]]; eexists; (split; [exact Hq | now split]).
Qed.

Lemma check_category_calls (c : category) (st : vstate) :
  exists new,
    calls (fst (check_category c st)) = calls (fst st) ++ new
    /\ Forall (fun cl => is_query_call cl = true /\ verifier_call cl = true)
              new
    /\ conn (fst (check_category c st)) = conn (fst st)
    /\ cursor (fst (check_category c st)) = cursor (fst st).
Proof.
  destruct st as [sf v]. unfold check_category.
  pose proof (execute_query_calls (listing_query c) sf) as Hq.
  pose proof (execute_query_conn (listing_query c) sf) as [Hcn Hcu].
  destruct (execute_query (listing_query c) sf) as [sf1 [df|e]];
    cbn [fst snd] in *.
  - destruct (check_objects_calls c (upper_names df) (names_to_check c)
                (sf1, v)) as [new (Hc & Hf & Hcn' & Hcu')].
    cbn [fst] in *. eexists. split; [rewrite Hc, Hq, <- app_assoc; reflexivity|].
    repeat split; try congruence.
    constructor; [split; [reflexivity | now destruct c]|].
    eapply Forall_impl; [|exact Hf].
    intros cl [n [r [Hn ->]]]. split; [reflexivity|].
    apply count_query_allowed. apply in_or_app. destruct c; [now left | now right].
  - eexists. split; [exact Hq|]. repeat split; try assumption.
    constructor; [|constructor]. split; [reflexivity | now destruct c].
Qed.

(** The calls of a verification run: a connection when the object holds
    none, then queries the verifier may make, then the release when the
    object holds a connection. *)
Lemma verify_setup_calls (sf : SnowflakeConnection R) :
  let reconnects := negb (conn sf) || negb (cursor sf) in
  let sf0 := if reconnects then fst (connect sf) else sf in
  exists queries,
    calls (fst (verify_setup sf))
    = calls sf
      ++ (if reconnects then [CallConnect (snd (connect sf))] else [])
      ++ queries ++ (if conn sf0 then [CallClose] else [])
    /\ Forall (fun cl => is_query_call cl = true /\ verifier_call cl = true)
              queries.
Proof.
  cbv zeta. unfold verify_setup.
  set (reconnects := negb (conn sf) || negb (cursor sf)).
  set (sf0 := if reconnects then fst (connect sf) else sf).
  assert (H0 : calls sf0
               = calls sf
                 ++ (if reconnects then [CallConnect (snd (connect sf))]
                     else [])).
  { subst sf0. destruct reconnects; [apply connect_calls | now rewrite app_nil_r]. }
  destruct (check_database_calls (sf0, initial_verification))
    as [r1 (H1 & C1 & _)].
  set (st1 := check_database (sf0, initial_verification)) in *.
  destruct (check_schema_calls st1) as [r2 (H2 & C2 & _)].
  set (st2 := check_schema st1) in *.
  destruct (check_category_calls Tables st2) as [n3 (H3 & F3 & C3 & _)].
  set (st3 := check_category Tables st2) in *.
  destruct (check_category_calls Views st3) as [n4 (H4 & F4 & C4 & _)].
  set (st4 := check_category Views st3) in *.
  destruct st4 as [sf4 v4]. cbn [fst] in *.
  assert (Hconn : conn sf4 = conn sf0) by congruence.
  exists ([CallQuery (py "SHOW DATABASES") r1]
          ++ [CallQuery (py "SHOW SCHEMAS IN DATABASE FEAT_DB") r2]
          ++ n3 ++ n4).
  split.
  - rewrite Hconn. destruct (conn sf0).
    + rewrite close_calls, H4, H3, H2, H1, H0. now rewrite <- !app_assoc.
    + rewrite H4, H3, H2, H1, H0. now rewrite <- !app_assoc, app_nil_r.
  - repeat (apply Forall_app; split); try assumption;
      repeat constructor.
Qed.

(** X10. A verification run only reads: apart from connecting and
    closing, every call it makes is a query, and each is one of the four
    catalog listings or a row count on one of the five expected objects.
    It never sends an update. *)
Theorem verifier_only_reads (sf : SnowflakeConnection R) :
  Forall (fun cl => verifier_call cl = true
                    /\ forall q raised, cl <> CallUpdate q raised)
         (new_calls sf (fst (verify_setup sf))).
Proof.
  destruct (verify_setup_calls sf) as [queries [E Hq]].
  rewrite (new_calls_app _ _ _ E).
  repeat (apply Forall_app; split).
  - destruct (negb (conn sf) || negb (cursor sf)); repeat constructor.
    discriminate.
  - eapply Forall_impl; [|exact Hq]. intros cl [Hk Hv]. split; [exact Hv|].
    intros q r ->. discriminate.
  - match goal with
    | |- Forall _ (if ?b then _ else _) => destruct b
    end; repeat constructor. discriminate.
Qed.

(** X11. A connection object that was used and closed still holds its
    connection and cursor, so a verification run on it does not connect
    again: it goes straight to its queries, and closes once more at the
    end. *)
Theorem closed_object_is_not_reconnected (sf : SnowflakeConnection R) :
  conn sf = true -> cursor sf = true ->
  exists queries,
    new_calls (close sf) (fst (verify_setup (close sf)))
    = queries ++ [CallClose]
    /\ Forall (fun cl => is_query_call cl = true) queries.
Proof.
  intros Hc Hu.
  assert (Hc' : conn (close sf) = true)
    by (unfold close; rewrite Hc; exact Hc).
  assert (Hu' : cursor (close sf) = true)
    by (unfold close; rewrite Hc; exact Hu).
  destruct (verify_setup_calls (close sf)) as [queries [E Hq]].
  rewrite Hc', Hu' in E. cbn [negb orb app] in E. rewrite Hc' in E.
  exists queries. split; [exact (new_calls_app _ _ _ E)|].
  eapply Forall_impl; [|exact Hq]. now intros cl [Hk _].
Qed.

(** X12. When the object holds no connection and the service refuses
    one, a verification run raises nothing and reports nothing: each of
    its four checks fails on the missing connection, the report is the
    initial one, and the connection is not closed. *)
Theorem verification_without_connection (sf : SnowflakeConnection R) :
  conn sf = false -> snd (connect sf) = false ->
  snd (verify_setup sf) = initial_verification
  /\ new_calls sf (fst (verify_setup sf))
     = CallConnect false
       :: map (fun q => CallQuery q (Some (exn_str not_connected)))
            [py "SHOW DATABASES"; py "SHOW SCHEMAS IN DATABASE FEAT_DB";
             listing_query Tables; listing_query Views].
Proof.
  intros Hc Hk. unfold verify_setup. rewrite Hc. cbn [negb orb].
  unfold connect in *. destruct (remote_connect (remote sf)) as [r [|]];
    [discriminate|]. cbn [fst].
  unfold check_category, check_schema, check_database, execute_query.
  repeat (cbn [conn logged set_remote negb fst snd]; rewrite ?Hc).
  split; [reflexivity|].
  apply new_calls_app. cbn [calls logged set_remote].
  rewrite <- !app_assoc. reflexivity.
Qed.

End VerifierCalls.

Lemma closed_object_is_not_reconnected_witness :
  exists queries,
    new_calls (closed_after_use accepting)
      (fst (verify_setup (closed_after_use accepting)))
    = queries ++ [CallClose]
    /\ Forall (fun cl => is_query_call cl = true) queries.
Proof.
  apply (closed_object_is_not_reconnected (connected_to accepting));
    reflexivity.
Defined.

Lemma verification_without_connection_witness :
  snd (verify_setup (fresh_connection unreachable)) = initial_verification
  /\ new_calls (fresh_connection unreachable)
       (fst (verify_setup (fresh_connection unreachable)))
     = CallConnect false
       :: map (fun q => CallQuery q (Some (exn_str not_connected)))
            [py "SHOW DATABASES"; py "SHOW SCHEMAS IN DATABASE FEAT_DB";
             listing_query Tables; listing_query Views].
Proof.
  apply (verification_without_connection (fresh_connection unreachable));
    reflexivity.
Defined.

(** ** The command line *)

Section MainProperties.

Context {R : Type} `{Remote R}.

Lemma connect_fresh (r : R) :
  snd (connect (fresh_connection r)) = snd (remote_connect r).
Proof.
  unfold connect, fresh_connection. cbn [remote].
  now destruct (remote_connect r) as [r' [|]].
Qed.

Lemma connect_cursor (sf : SnowflakeConnection R) :
  snd (connect sf) = true -> cursor (fst (connect sf)) = true.
Proof.
  unfold connect. destruct (remote_connect (remote sf)) as [r [|]];
    [reflexivity | discriminate].
Qed.

Lemma with_outcomes_statement_calls (stmts : list str)
  (outcomes : list (option str)) :
  Forall (fun cl => is_statement_call cl = true)
         (with_outcomes (map CallUpdate stmts) outcomes).
Proof.
  revert outcomes. induction stmts as [|s stmts IH]; intros [|o outcomes];
    cbn [map with_outcomes]; constructor; [reflexivity | apply IH].
Qed.

Lemma call_text_statement_calls (new : list call) (stmts : list str) :
  map call_text new = map Some stmts ->
  Forall (fun cl => is_statement_call cl = true) new.
Proof.
  revert stmts. induction new as [|c new IH]; intros [|s stmts] E;
    try discriminate; constructor.
  - cbn [map] in E. injection E as Hc _. now destruct c.
  - cbn [map] in E. injection E as _ E. now apply IH with stmts.
Qed.

Lemma ignored_updates_conn (stmts : list str) (sf : SnowflakeConnection R) :
  conn (fold_left (fun sf stmt => fst (execute_update stmt sf)) stmts sf)
  = conn sf
  /\ cursor (fold_left (fun sf stmt => fst (execute_update stmt sf)) stmts sf)
     = cursor sf.
Proof.
  revert sf. induction stmts as [|s stmts IH]; intros sf; [now split|].
  cbn [fold_left]. destruct (IH (fst (execute_update s sf))) as [-> ->].
  apply execute_update_conn.
Qed.

Lemma execute_statement_conn (i : nat) (statement : str)
  (sf : SnowflakeConnection R) (results : Results) :
  conn (fst (execute_statement i statement (sf, results))) = conn sf
  /\ cursor (fst (execute_statement i statement (sf, results))) = cursor sf.
Proof.
  unfold execute_statement, run_statement.
  pose proof (execute_query_conn statement sf) as Hq.
  pose proof (execute_update_conn statement sf) as Hu.
  destruct (is_display_query statement); [exact Hq|].
  destruct (is_query statement).
  - destruct (execute_query statement sf) as [sf1 [df|e]]; exact Hq.
  - destruct (execute_update statement sf) as [sf1 [n|e]]; exact Hu.
Qed.

Lemma execute_statements_conn (statements : list str) (i : nat)
  (sf : SnowflakeConnection R) (results : Results) :
  conn (fst (execute_statements i statements (sf, results))) = conn sf
  /\ cursor (fst (execute_statements i statements (sf, results)))
     = cursor sf.
Proof.
  revert i sf results. induction statements as [|s statements IH];
    intros i sf results; [now split|].
  cbn [execute_statements].
  pose proof (execute_statement_conn i s sf results) as [Hc Hu].
  destruct (execute_statement i s (sf, results)) as [sf1 r1].
  cbn [fst] in Hc, Hu. destruct (IH (S i) sf1 r1) as [-> ->]. now split.
Qed.

(** Teardown and the main loop: statement calls only, on an unchanged
    connection object. *)
Lemma execute_all_calls (drop_existing : bool) (statements : list str)
  (sf : SnowflakeConnection R) :
  exists middle,
    calls (fst (execute_all drop_existing statements sf))
    = calls sf ++ middle
    /\ Forall (fun cl => is_statement_call cl = true) middle
    /\ conn (fst (execute_all drop_existing statements sf)) = conn sf
    /\ cursor (fst (execute_all drop_existing statements sf)) = cursor sf.
Proof.
  unfold execute_all.
  set (sf1 := if drop_existing then drop_existing_objects sf else sf).
  assert (H1 : exists drops,
             calls sf1 = calls sf ++ drops
             /\ Forall (fun cl => is_statement_call cl = true) drops
             /\ conn sf1 = conn sf /\ cursor sf1 = cursor sf).
  { subst sf1. destruct drop_existing.
    - destruct (ignored_updates_log drop_statements sf) as [outcomes [_ Hc]].
      destruct (ignored_updates_conn drop_statements sf) as [Hn Hu].
      eexists. split; [exact Hc|]. split; [|now split].
      apply with_outcomes_statement_calls.
    - exists []. rewrite app_nil_r. now repeat split. }
  destruct H1 as [drops (Hd & Fd & Cd & Ud)].
  destruct (execute_statements_log statements 1 sf1
              (initial_results statements)) as [new (Hn & Ht & _)].
  destruct (execute_statements_conn statements 1 sf1
              (initial_results statements)) as [Cn Un].
  exists (drops ++ new). split; [|split; [|split]].
  - rewrite Hn, Hd. now rewrite app_assoc.
  - apply Forall_app. split; [exact Fd|].
    now apply call_text_statement_calls with statements.
  - congruence.
  - congruence.
Qed.

(** X14. Whenever [main] gets its connection, it connects once, at the
    start, and closes once, at the end: in a verification-only run, in a
    setup run whose script is missing, in one whose statements fail, and
    in one that goes on to verification.  Everything between the two is
    a query or an update. *)
Theorem main_connects_once_and_closes_once
  (args : Args) (response : str) (sql_file_path : str)
  (sql_file : option str) (r : R) :
  arg_verify_only args = true \/ confirmed args response = true ->
  snd (remote_connect r) = true ->
  exists middle,
    calls (fst (main args response sql_file_path sql_file r))
    = CallConnect true :: middle ++ [CallClose]
    /\ Forall (fun cl => is_statement_call cl = true) middle.
Proof.
  intros Hgo Hok. rewrite <- connect_fresh in Hok.
  pose proof (connect_calls (fresh_connection r)) as Hc.
  pose proof (connect_conn (fresh_connection r) Hok) as Hcn.
  pose proof (connect_cursor (fresh_connection r) Hok) as Hcu.
  rewrite Hok in Hc. cbn [fresh_connection calls app] in Hc.
  unfold main. destruct (arg_verify_only args) eqn:Ev.
  - destruct (verify_setup_calls (fresh_connection r)) as [queries [E Hq]].
    cbn [fresh_connection conn cursor negb orb calls app] in E.
    fold (fresh_connection r) in E. rewrite Hok, Hcn in E.
    exists queries. cbn [fst]. split; [exact E|].
    eapply Forall_impl; [|exact Hq]. intros cl [Hk _]. now destruct cl.
  - destruct Hgo as [Hgo | Hgo]; [discriminate|].
    unfold confirmed in Hgo.
    assert (Hcancel : arg_drop_existing args
                      && negb (str_eqb (lower response) (py "yes")) = false).
    { destruct (arg_drop_existing args), (str_eqb (lower response) (py "yes"));
        try reflexivity; discriminate. }
    rewrite Hcancel. unfold execute_setup.
    destruct (connect (fresh_connection r)) as [sf1 ok].
    cbn [fst snd] in *. subst ok. cbn [negb].
    destruct sql_file as [sql_content|]; cbn [read_sql_file].
    + destruct (execute_all_calls (arg_drop_existing args)
                  (split_sql_statements sql_content) sf1)
        as [middle (Hm & Fm & Cm & Um)].
      destruct (execute_all (arg_drop_existing args)
                  (split_sql_statements sql_content) sf1) as [sf2 results].
      cbn [fst] in *. destruct (failed results =? 0).
      * destruct (verify_setup_calls sf2) as [queries [E Hq]].
        rewrite Cm, Um, Hcn, Hcu in E. cbn [negb orb app] in E.
        rewrite Cm, Hcn in E.
        exists (middle ++ queries). cbn [fst]. split.
        -- rewrite E, Hm, Hc. cbn [app]. now rewrite <- app_assoc.
        -- apply Forall_app. split; [exact Fm|].
           eapply Forall_impl; [|exact Hq]. intros cl [Hk _]. now destruct cl.
      * exists middle. cbn [fst]. split; [|exact Fm].
        rewrite close_calls, Hm, Hc. reflexivity.
    + exists []. cbn [fst]. split; [|constructor].
      rewrite close_calls, Hc. reflexivity.
Qed.

End MainProperties.

Lemma main_connects_once_and_closes_once_witness :
  exists middle,
    calls (fst (main (MkArgs false false) (py "") script_path
                  (Some display_script) (rejecting bad_insert)))
    = CallConnect true :: middle ++ [CallClose]
    /\ Forall (fun cl => is_statement_call cl = true) middle.
Proof.
  apply (main_connects_once_and_closes_once (MkArgs false false) (py "")
           script_path (Some display_script) (rejecting bad_insert)).
  - right. reflexivity.
  - reflexivity.
Defined.

(** ** The data refresh *)

Section RefreshProperties.

Context {R : Type} `{Remote R}.

(** X15. The refresh stops at the first statement that fails.  When the
    service refuses the connection, nothing is sent and nothing is
    closed.  Otherwise the calls are the connection, then the seven
    statements of the refresh in their fixed order (six updates and the
    final count) up to and including the first one that raises, then the
    release of the connection, which happens in every case. *)
Theorem refresh_stops_at_first_failure (sf : SnowflakeConnection R) :
  (snd (connect sf) = false ->
   new_calls sf (refresh_data sf) = [CallConnect false])
  /\ (snd (connect sf) = true ->
      exists outcomes,
        new_calls sf (refresh_data sf)
        = CallConnect true
          :: with_outcomes refresh_steps outcomes ++ [CallClose]
        /\ 1 <= List.length outcomes <= 7
        /\ stops_at_failure outcomes = true
        /\ (List.length outcomes < 7 ->
            exists msg, last outcomes None = Some msg)).
Proof.
  unfold refresh_data. pose proof (connect_calls sf) as Hc.
  destruct (connect sf) as [sf1 ok]. cbn [fst snd] in *.
  split; intros ->; cbn [negb].
  - now apply new_calls_app.
  - unfold refresh_body, and_then, pure.
    pose proof (execute_update_calls use_database sf1) as H1.
    destruct (execute_update use_database sf1) as [sf2 [x1|e1]];
      cbn [fst snd raised_of] in H1.
    2: { exists [Some (exn_str e1)]. split.
         - apply new_calls_app. rewrite close_calls. cbn [fst].
           rewrite H1, Hc, <- !app_assoc. reflexivity.
         - split; [cbn; lia | split; [reflexivity | cbn; eauto]]. }
    pose proof (execute_update_calls use_schema sf2) as H2.
    destruct (execute_update use_schema sf2) as [sf3 [x2|e2]];
      cbn [fst snd raised_of] in H2.
    2: { exists [None; Some (exn_str e2)]. split.
         - apply new_calls_app. rewrite close_calls. cbn [fst].
           rewrite H2, H1, Hc, <- !app_assoc. reflexivity.
         - split; [cbn; lia | split; [reflexivity | cbn; eauto]]. }
    pose proof (execute_update_calls insert_query sf3) as H3.
    destruct (execute_update insert_query sf3) as [sf4 [x3|e3]];
      cbn [fst snd raised_of] in H3.
    2: { exists [None; None; Some (exn_str e3)]. split.
         - apply new_calls_app. rewrite close_calls. cbn [fst].
           rewrite H3, H2, H1, Hc, <- !app_assoc. reflexivity.
         - split; [cbn; lia | split; [reflexivity | cbn; eauto]]. }
    pose proof (execute_update_calls refresh_cleaned sf4) as H4.
    destruct (execute_update refresh_cleaned sf4) as [sf5 [x4|e4]];
      cbn [fst snd raised_of] in H4.
    2: { exists [None; None; None; Some (exn_str e4)]. split.
         - apply new_calls_app. rewrite close_calls. cbn [fst].
           rewrite H4, H3, H2, H1, Hc, <- !app_assoc. reflexivity.
         - split; [cbn; lia | split; [reflexivity | cbn; eauto]]. }
    pose proof (execute_update_calls refresh_view sf5) as H5.
    destruct (execute_update refresh_view sf5) as [sf6 [x5|e5]];
      cbn [fst snd raised_of] in H5.
    2: { exists [None; None; None; None; Some (exn_str e5)]. split.
         - apply new_calls_app. rewrite close_calls. cbn [fst].
           rewrite H5, H4, H3, H2, H1, Hc, <- !app_assoc. reflexivity.
         - split; [cbn; lia | split; [reflexivity | cbn; eauto]]. }
    pose proof (execute_update_calls refresh_store sf6) as H6.
    destruct (execute_update refresh_store sf6) as [sf7 [x6|e6]];
      cbn [fst snd raised_of] in H6.
    2: { exists [None; None; None; None; None; Some (exn_str e6)]. split.
         - apply new_calls_app. rewrite close_calls. cbn [fst].
           rewrite H6, H5, H4, H3, H2, H1, Hc, <- !app_assoc. reflexivity.
         - split; [cbn; lia | split; [reflexivity | cbn; eauto]]. }
    pose proof (execute_query_calls count_customers sf7) as H7.
    destruct (execute_query count_customers sf7) as [sf8 [df|e7]];
      cbn [fst snd raised_of] in H7.
    + exists [None; None; None; None; None; None; None]. split.
      * apply new_calls_app. rewrite close_calls.
        destruct (customer_count_of df); cbn [fst];
          rewrite H7, H6, H5, H4, H3, H2, H1, Hc, <- !app_assoc; reflexivity.
      * split; [cbn; lia | split; [reflexivity | cbn; lia]].
    + exists [None; None; None; None; None; None; Some (exn_str e7)]. split.
      * apply new_calls_app. rewrite close_calls. cbn [fst].
        rewrite H7, H6, H5, H4, H3, H2, H1, Hc, <- !app_assoc. reflexivity.
      * split; [cbn; lia | split; [reflexivity | cbn; lia]].
Qed.

End RefreshProperties.

Lemma refresh_stops_at_first_failure_witness :
  new_calls (fresh_connection unreachable)
    (refresh_data (fresh_connection unreachable)) = [CallConnect false]
  /\ exists outcomes,
       new_calls (fresh_connection (rejecting insert_query))
         (refresh_data (fresh_connection (rejecting insert_query)))
       = CallConnect true
         :: with_outcomes refresh_steps outcomes ++ [CallClose]
       /\ 1 <= List.length outcomes <= 7
       /\ stops_at_failure outcomes = true
       /\ (List.length outcomes < 7 ->
           exists msg, last outcomes None = Some msg).
Proof.
  split.
  - apply (refresh_stops_at_first_failure (fresh_connection unreachable)).
    reflexivity.
  - apply (refresh_stops_at_first_failure
             (fresh_connection (rejecting insert_query))).
    reflexivity.
Defined.

(** ** The entries of [errors] *)

(** Each entry made of logged calls points at a tallied statement of the
    list, by its number, and carries the preview of that statement. *)
Lemma error_entries_point_at (new : list call) (stmts : list str) (i : nat)
  (e : ErrorEntry) :
  map call_text new = map Some stmts ->
  In e (error_entries i new) ->
  exists k s,
    nth_error stmts k = Some s
    /\ statement_number e = i + k
    /\ statement e = statement_preview s
    /\ is_display_query s = false.
Proof.
  revert stmts i. induction new as [|c new IH]; intros [|s stmts] i E Hin;
    try discriminate; [destruct Hin|].
  cbn [map] in E. injection E as Ht E. cbn [error_entries] in Hin.
  rewrite Ht in Hin.
  assert (Hrest : In e (error_entries (S i) new) ->
            exists k s0,
              nth_error (s :: stmts) k = Some s0
              /\ statement_number e = i + k
              /\ statement e = statement_preview s0
              /\ is_display_query s0 = false).
  { intros H. destruct (IH stmts (S i) E H) as [k [s0 (Hk & Hn & Hp & Hd)]].
    exists (S k), s0. repeat split; try assumption. lia. }
  destruct (call_raised c) as [msg|]; [|now apply Hrest].
  destruct (tallied s) eqn:Hd; [|now apply Hrest].
  destruct Hin as [<- | Hin]; [|now apply Hrest].
  exists 0, s. cbn. repeat split; [lia|].
  unfold tallied in Hd. now destruct (is_display_query s).
Qed.

Lemma error_entries_lower_bound (new : list call) (i : nat) :
  Forall (fun e => i <= statement_number e) (error_entries i new).
Proof.
  revert i. induction new as [|c new IH]; intros i; [constructor|].
  cbn [error_entries].
  assert (Hrest : Forall (fun e => i <= statement_number e)
                         (error_entries (S i) new)).
  { eapply Forall_impl; [|apply IH]. cbn. intros e He. lia. }
  destruct (call_text c); [|exact Hrest].
  destruct (call_raised c); [|exact Hrest].
  destruct (tallied s); [|exact Hrest].
  constructor; [cbn; lia | exact Hrest].
Qed.

Lemma error_entries_sorted (new : list call) (i : nat) :
  StronglySorted lt (map statement_number (error_entries i new)).
Proof.
  revert i. induction new as [|c new IH]; intros i; [constructor|].
  cbn [error_entries].
  destruct (call_text c); [|apply IH].
  destruct (call_raised c); [|apply IH].
  destruct (tallied s); [|apply IH].
  cbn [map statement_number]. constructor; [apply IH|].
  apply Forall_map. eapply Forall_impl; [|apply error_entries_lower_bound].
  cbn. intros e He. lia.
Qed.

Section ErrorEntries.

Context {R : Type} `{Remote R}.

(** X16. In the report of a run, the entries of [errors] come in script
    order, with strictly increasing statement numbers, and each points at
    a statement of the script: its number lies between 1 and the total,
    the statement with that number is not a display query, and the entry
    holds the preview of that very statement. *)
Theorem error_entries_point_at_their_statements
  (drop_existing : bool) (sql_file_path : str) (sql_file : option str)
  (sf sf' : SnowflakeConnection R) (results : Results) :
  execute_setup drop_existing sql_file_path sql_file sf = (sf', Ok results) ->
  StronglySorted lt (map statement_number (errors results))
  /\ forall e, In e (errors results) ->
       1 <= statement_number e <= total_statements results
       /\ exists sql_content s,
            sql_file = Some sql_content
            /\ nth_error (split_sql_statements sql_content)
                         (statement_number e - 1) = Some s
            /\ statement e = statement_preview s
            /\ is_display_query s = false.
Proof.
  unfold execute_setup. destruct (connect sf) as [sf1 [|]]; [|discriminate].
  cbn [negb]. destruct sql_file as [sql_content|]; [|discriminate].
  cbn [read_sql_file]. unfold execute_all.
  set (sf2 := if drop_existing then drop_existing_objects sf1 else sf1).
  set (statements := split_sql_statements sql_content).
  destruct (execute_statements_log statements 1 sf2
              (initial_results statements)) as [new [_ [Ht Hr]]].
  destruct (execute_statements 1 statements (sf2, initial_results statements))
    as [sf3 r3]. cbn [snd] in Hr. intros [= _ <-]. rewrite Hr.
  cbn [errors total_statements initial_results app].
  split; [apply error_entries_sorted|].
  intros e He.
  destruct (error_entries_point_at new statements 1 e Ht He)
    as [k [s (Hk & Hn & Hp & Hd)]].
  assert (Hlt : k < List.length statements)
    by (apply nth_error_Some; congruence).
  split; [lia|]. exists sql_content, s.
  replace (statement_number e - 1) with k by lia. now repeat split.
Qed.

End ErrorEntries.

Lemma error_entries_point_at_their_statements_witness :
  StronglySorted lt
    (map statement_number
       [MkError 2 (py "INSERT INTO missing VALUES (1)")
          (py "SQL compilation error")]).
Proof.
  apply (error_entries_point_at_their_statements false script_path
           (Some failing_script)
           (fresh_connection (rejecting bad_insert))
           (fst (execute_setup false script_path
                   (Some failing_script)
                   (fresh_connection (rejecting bad_insert))))
           (MkResults 2 1 1
              [MkError 2 (py "INSERT INTO missing VALUES (1)")
                 (py "SQL compilation error")])).
  reflexivity.
Defined.

(** ** Concrete runs of the further properties *)

Lemma report_covers_the_manifest_only_witness :
  dict_get (py "customer_agg_30d")
    (tables (snd (verify_setup
                    (fresh_connection (catalog (py "customer_transactions"))))))
  = Some true
  \/ dict_get (py "customer_agg_30d")
       (views (snd (verify_setup
                      (fresh_connection (catalog (py "customer_transactions"))))))
     = Some true.
Proof.
  pose proof (report_covers_the_manifest_only
                (fresh_connection (catalog (py "customer_transactions"))))
    as H.
  cbv zeta in H. destruct H as (_ & _ & _ & Hbacked).
  apply (Hbacked (py "customer_agg_30d") (CInt 7)). reflexivity.
Defined.

Lemma split_sql_statements_shape_witness :
  Forall (fun s => strip s = s /\ truthy (strip s) = true /\ ~ In newline s)
         [py "a;"].
Proof.
  apply (split_sql_statements_shape (py "a; ;")).
Defined.

(** ** A block comment within one line *)

(** A pattern of two characters occurs where its two characters stand. *)
Lemma occurs_at_two (p q : ascii) (i : nat) (s : str) :
  occurs_at [p; q] i s = true
  <-> nth_error s i = Some p /\ nth_error s (S i) = Some q.
Proof.
  unfold occurs_at. revert s. induction i as [|i IH]; intros s.
  - cbn [skipn]. destruct s as [|x [|y s]]; cbn [startswith nth_error].
    + split; [discriminate | intros [E _]; discriminate].
    + rewrite andb_false_r. split; [discriminate | intros [_ E]; discriminate].
    + rewrite andb_true_r, andb_true_iff, !Ascii.eqb_eq.
      split; [intros [-> ->]; now split | intros [[= ->] [= ->]]; now split].
  - destruct s as [|x s]; cbn [skipn nth_error].
    + split; [discriminate | intros [E _]; discriminate].
    + apply IH.
Qed.

Lemma nth_error_absent (c : ascii) (s : str) (i : nat) :
  ~ In c s -> nth_error s i <> Some c.
Proof. intros Hc E. apply Hc. now apply nth_error_In with i. Qed.

Section InlineBlockComment.

Variables before inside after : str.

Hypothesis before_star : ~ In "*"%char before.
Hypothesis inside_star : ~ In "*"%char inside.
Hypothesis inside_slash : first_char inside <> Some "/"%char.

Lemma inline_open_at :
  find (py "/*") (before ++ py "/*" ++ inside ++ py "*/" ++ after)
  = Some (List.length before).
Proof.
  apply find_lowest.
  - apply occurs_at_two. split.
    + rewrite nth_error_app2, Nat.sub_diag by lia. reflexivity.
    + rewrite nth_error_app2 by lia.
      replace (S (List.length before) - List.length before) with 1 by lia.
      reflexivity.
  - intros i Hi.
    destruct (occurs_at (py "/*") i
                (before ++ py "/*" ++ inside ++ py "*/" ++ after)) eqn:E;
      [|reflexivity].
    apply occurs_at_two in E. destruct E as [_ E].
    destruct (Nat.eq_dec (S i) (List.length before)) as [Heq | Hne].
    + rewrite nth_error_app2, Heq, Nat.sub_diag in E by lia. discriminate.
    + rewrite nth_error_app1 in E by lia.
      now apply nth_error_absent in E.
Qed.

Lemma inline_close_at :
  find (py "*/") (before ++ py "/*" ++ inside ++ py "*/" ++ after)
  = Some (List.length before + 2 + List.length inside).
Proof.
  assert (Hshape : before ++ py "/*" ++ inside ++ py "*/" ++ after
                   = (before ++ py "/*" ++ inside) ++ py "*/" ++ after)
    by (now rewrite <- !app_assoc).
  assert (Hlen : List.length (before ++ py "/*" ++ inside)
                 = List.length before + 2 + List.length inside)
    by (rewrite !length_app; cbn; lia).
  apply find_lowest.
  - apply occurs_at_two. rewrite Hshape, <- Hlen. split.
    + rewrite nth_error_app2, Nat.sub_diag by lia. reflexivity.
    + rewrite nth_error_app2 by lia.
      replace (S (List.length (before ++ py "/*" ++ inside))
               - List.length (before ++ py "/*" ++ inside)) with 1 by lia.
      reflexivity.
  - intros j Hj.
    destruct (occurs_at (py "*/") j
                (before ++ py "/*" ++ inside ++ py "*/" ++ after)) eqn:E;
      [|reflexivity].
    apply occurs_at_two in E. destruct E as [E1 E2]. exfalso.
    destruct (Nat.lt_ge_cases j (List.length before)) as [Hb | Hb].
    { rewrite nth_error_app1 in E1 by exact Hb.
      now apply nth_error_absent in E1. }
    rewrite nth_error_app2 in E1 by exact Hb.
    rewrite nth_error_app2 in E2 by lia.
    destruct (j - List.length before) as [|[|k]] eqn:Ek.
    + discriminate.
    + replace (S j - List.length before) with 2 in E2 by lia.
      cbn [py list_ascii_of_string app nth_error] in E2.
      destruct inside as [|x inside']; [discriminate|].
      cbn [app nth_error] in E2. apply inside_slash. cbn. congruence.
    + cbn [py list_ascii_of_string app nth_error] in E1.
      rewrite nth_error_app1 in E1 by lia.
      now apply nth_error_absent in E1.
Qed.

(** X19. A block comment opened and closed within one line is cut out
    and the text on both sides is kept, when the text before it and the
    comment text hold no star and the comment text does not begin with a
    slash.  Outside a comment the line becomes the two sides joined. *)
Theorem inline_block_comment_is_cut_out :
  strip_block_line false (before ++ py "/*" ++ inside ++ py "*/" ++ after)
  = (false, Some (before ++ after)).
Proof.
  unfold strip_block_line. rewrite inline_open_at, inline_close_at.
  f_equal. f_equal.
  rewrite firstn_app, firstn_all, Nat.sub_diag. cbn [firstn].
  rewrite app_nil_r. f_equal.
  rewrite skipn_app, skipn_all2 by lia. cbn [app].
  replace (List.length before + 2 + List.length inside + 2
           - List.length before) with (2 + (List.length inside + 2)) by lia.
  cbn [py list_ascii_of_string app skipn Nat.add].
  rewrite skipn_app, skipn_all2 by lia. cbn [app].
  replace (List.length inside + 2 - List.length inside) with 2 by lia.
  reflexivity.
Qed.

End InlineBlockComment.

Lemma inline_block_comment_is_cut_out_witness :
  strip_block_line false (py "SELECT 1 /* one */ AS x;")
  = (false, Some (py "SELECT 1  AS x;")).
Proof.
  apply (inline_block_comment_is_cut_out (py "SELECT 1 ") (py " one ")
           (py " AS x;")).
  - cbn. intros H. repeat (destruct H as [H | H]; [discriminate|]). exact H.
  - cbn. intros H. repeat (destruct H as [H | H]; [discriminate|]). exact H.
  - discriminate.
Defined.

(* ===================================================================== *)
(** * Part IV: the design's wording against the code                      *)
(* ===================================================================== *)

Import Scenarios3.

(** ** Line-comment markers after the first *)

(** C6 as stated fails: the line [a -- 'b -- c] has a marker at index 8
    with one single quote before it, an odd number, and that marker is
    removed with the rest of the line all the same, because the code
    looks at the first marker only, the one at index 2. *)
Lemma later_marker_after_odd_quotes_is_removed :
  occurs_at (py "--") 8 two_markers = true
  /\ Nat.even (count quote (firstn 8 two_markers)) = false
  /\ remove_inline_comment two_markers = py "a "
  /\ remove_inline_comment two_markers <> two_markers.
Proof. repeat split. vm_compute. discriminate. Qed.

(** ** A comment reopened on the line that closed one *)

(** C10 as stated fails: the first line of [reopened_comment] holds a
    start marker with no end marker after it, its one end marker closing
    an earlier comment.  The code finds both markers on the line and
    takes the same-line branch: the text before the first start marker
    is emitted, and the following lines are kept although the second
    comment runs to the third line. *)
Lemma reopened_comment_keeps_prefix_and_lines :
  find (py "/*") (py "a /* x */ b /* y") = Some 2
  /\ find (py "*/") (py "a /* x */ b /* y") = Some 7
  /\ occurs_at (py "/*") 12 (py "a /* x */ b /* y") = true
  /\ (forall i, 12 <= i ->
        occurs_at (py "*/") i (py "a /* x */ b /* y") = false)
  /\ strip_block_from false reopened_comment
     = [py "a  b /* y"; py "c"; py "d */ e"].
Proof.
  repeat split.
  intros i Hi. do 12 (destruct i as [|i]; [lia|]).
  do 5 (destruct i as [|i]; [reflexivity|]).
  unfold occurs_at. now rewrite skipn_all2 by (cbn; lia).
Qed.

(** ** The line count of the comment stripper *)

Lemma comments_closed_iff_none_opens (raw : list str) :
  comments_closed_on_line raw = true <-> filter opens_comment raw = [].
Proof.
  induction raw as [|l raw IH]; [now split|].
  cbn [comments_closed_on_line forallb filter] .
  fold (comments_closed_on_line raw). unfold opens_comment at 1.
  destruct (contains (py "/*") l), (contains (py "*/") l); cbn;
    rewrite ?IH; split; congruence.
Qed.

(** Every line that opens a comment without closing it is dropped, in
    whatever state the loop reaches it. *)
Lemma strip_block_from_opening_bound (b : bool) (raw : list str) :
  List.length (strip_block_from b raw)
  + List.length (filter opens_comment raw) <= List.length raw.
Proof.
  revert b. induction raw as [|l raw IH]; intros b; [cbn; lia|].
  cbn [strip_block_from filter List.length].
  destruct (opens_comment l) eqn:Ho.
  - unfold opens_comment in Ho. apply andb_true_iff in Ho.
    destruct Ho as [Hopen Hclose]. apply negb_true_iff in Hclose.
    rewrite (strip_block_line_opening b l Hopen Hclose).
    specialize (IH true). cbn [List.length]. lia.
  - destruct (strip_block_line b l) as [b1 [l'|]]; specialize (IH b1);
      cbn [List.length]; lia.
Qed.

(** C5, as the code has it. The comment stripper never adds a line.  It
    keeps the line count exactly when no line holds a start marker
    without holding an end marker as well; every line that holds a start
    marker and no end marker is dropped, so the output is then shorter
    than the input by at least the number of such lines. *)
Theorem line_count_kept_iff_comments_closed (sql_content : str) :
  List.length (strip_block_comments sql_content)
    <= List.length (split_lines sql_content)
  /\ (List.length (strip_block_comments sql_content)
      = List.length (split_lines sql_content)
      <-> comments_closed_on_line (split_lines sql_content) = true)
  /\ List.length (strip_block_comments sql_content)
     + List.length (filter opens_comment (split_lines sql_content))
     <= List.length (split_lines sql_content).
Proof.
  unfold strip_block_comments.
  pose proof (strip_block_from_opening_bound false (split_lines sql_content))
    as Hb.
  split; [lia|]. split; [|exact Hb]. split.
  - intros E. apply comments_closed_iff_none_opens.
    destruct (filter opens_comment (split_lines sql_content)) as [|l ls];
      [reflexivity|]. cbn [List.length] in Hb. lia.
  - apply strip_block_from_closed_length.
Qed.

Lemma line_count_kept_iff_comments_closed_witness :
  (List.length (strip_block_comments closed_comment) = 2
   /\ comments_closed_on_line (split_lines closed_comment) = true)
  /\ (comments_closed_on_line (split_lines spanning_comment) = false
      /\ List.length (strip_block_comments spanning_comment) + 1 <= 2)
  /\ (comments_closed_on_line
        (split_lines (py "a /* x */ b /* y" ++ [newline] ++ py "c"
                      ++ [newline] ++ py "d */ e")) = true
      /\ List.length
           (strip_block_comments
              (py "a /* x */ b /* y" ++ [newline] ++ py "c"
               ++ [newline] ++ py "d */ e")) = 3).
Proof.
  split; [|split].
  - split; [|reflexivity].
    transitivity (List.length (split_lines closed_comment)); [|reflexivity].
    apply (proj1 (proj2 (line_count_kept_iff_comments_closed closed_comment))).
    reflexivity.
  - split; [reflexivity|].
    apply (proj2 (proj2 (line_count_kept_iff_comments_closed
                           spanning_comment))).
  - split; [reflexivity|].
    transitivity
      (List.length
         (split_lines (py "a /* x */ b /* y" ++ [newline] ++ py "c"
                       ++ [newline] ++ py "d */ e"))); [|reflexivity].
    apply (proj1 (proj2 (line_count_kept_iff_comments_closed _))).
    reflexivity.
Defined.

(** ** The context manager *)

Section ContextManagerProperties.

Context {R : Type} `{Remote R}.

(** X17. Once the constructor has returned, the example [main] of the
    client always closes what its context manager opened: the calls are
    the connection, made or refused, then the two queries up to and
    including the first that raises, then the release.  The second query
    is left out only after a failure of the first.  When the connection
    was refused the first query raises for want of a connection and the
    second is not sent. *)
Theorem context_manager_always_closes (r : R) :
  exists outcomes,
    calls (connection_main r)
    = CallConnect (snd (remote_connect r))
      :: with_outcomes [CallQuery version_query; CallQuery tables_query]
                       outcomes
      ++ [CallClose]
    /\ 1 <= List.length outcomes <= 2
    /\ stops_at_failure outcomes = true
    /\ (List.length outcomes < 2 ->
        exists msg, last outcomes None = Some msg)
    /\ (snd (remote_connect r) = false ->
        outcomes = [Some (exn_str not_connected)]).
Proof.
  unfold connection_main, with_connection, enter, exit, and_then, pure.
  pose proof (connect_calls (fresh_connection r)) as Hc.
  assert (Hconn : snd (remote_connect r) = false ->
                  conn (fst (connect (fresh_connection r))) = false).
  { unfold connect, fresh_connection. cbn [remote].
    destruct (remote_connect r) as [r' [|]]; [discriminate | reflexivity]. }
  rewrite connect_fresh in Hc. cbn [fresh_connection calls app] in Hc.
  set (sf1 := fst (connect (fresh_connection r))) in *.
  pose proof (execute_query_calls version_query sf1) as H1.
  assert (Hnc : snd (remote_connect r) = false ->
                snd (execute_query version_query sf1) = Raise not_connected).
  { intros Hf. unfold execute_query. now rewrite (Hconn Hf). }
  destruct (execute_query version_query sf1) as [sf2 [df1|e1]];
    cbn [fst snd raised_of] in *.
  - pose proof (execute_query_calls tables_query sf2) as H2.
    destruct (execute_query tables_query sf2) as [sf3 [df2|e2]];
      cbn [fst snd raised_of] in *.
    + exists [None; None]. split.
      * rewrite close_calls, H2, H1, Hc. reflexivity.
      * split; [cbn; lia | split; [reflexivity|]].
        split; [cbn; lia|].
        intros Hf. specialize (Hnc Hf). discriminate.
    + exists [None; Some (exn_str e2)]. split.
      * rewrite close_calls, H2, H1, Hc. reflexivity.
      * split; [cbn; lia | split; [reflexivity|]].
        split; [cbn; lia|].
        intros Hf. specialize (Hnc Hf). discriminate.
  - exists [Some (exn_str e1)]. split.
    + rewrite close_calls, H1, Hc. reflexivity.
    + split; [cbn; lia | split; [reflexivity|]].
      split; [intros _; now exists (exn_str e1)|].
      intros Hf. specialize (Hnc Hf). now injection Hnc as ->.
Qed.

End ContextManagerProperties.

(** Three runs: the connection refused, the first query failing, and
    both queries answered. *)
Lemma context_manager_always_closes_witness :
  calls (connection_main unreachable)
  = [CallConnect false;
     CallQuery version_query (Some (exn_str not_connected)); CallClose]
  /\ calls (connection_main (rejecting version_query))
     = [CallConnect true;
        CallQuery version_query (Some (py "SQL compilation error"));
        CallClose]
  /\ calls (connection_main accepting)
     = [CallConnect true; CallQuery version_query None;
        CallQuery tables_query None; CallClose].
Proof.
  split; [|split].
  - destruct (context_manager_always_closes unreachable)
      as [outcomes (Hcalls & _ & _ & _ & Hrefused)].
    rewrite Hcalls, (Hrefused eq_refl). reflexivity.
  - destruct (context_manager_always_closes (rejecting version_query))
      as [outcomes (Hcalls & Hlen & _ & Hshort & _)].
    rewrite Hcalls.
    assert (E : nth_error (calls (connection_main (rejecting version_query))) 1
                = Some (CallQuery version_query
                          (Some (py "SQL compilation error"))))
      by reflexivity.
    assert (E2 : nth_error (calls (connection_main (rejecting version_query))) 2
                = Some CallClose) by reflexivity.
    rewrite Hcalls in E, E2.
    destruct outcomes as [|o1 [|o2 [|o3 outcomes]]]; cbn in Hlen; try lia.
    + cbn in E. injection E as ->. reflexivity.
    + cbn in E2. discriminate.
  - destruct (context_manager_always_closes accepting)
      as [outcomes (Hcalls & Hlen & _ & Hshort & _)].
    rewrite Hcalls.
    assert (E : nth_error (calls (connection_main accepting)) 1
                = Some (CallQuery version_query None)) by reflexivity.
    assert (E2 : nth_error (calls (connection_main accepting)) 2
                = Some (CallQuery tables_query None)) by reflexivity.
    rewrite Hcalls in E, E2.
    destruct outcomes as [|o1 [|o2 [|o3 outcomes]]]; cbn in Hlen; try lia.
    + cbn in E2. discriminate.
    + cbn in E, E2. injection E as ->. injection E2 as ->. reflexivity.
Defined.

(** ** The ends of the process *)

Section ProcessProperties.

Context {R : Type} `{Remote R}.

Lemma execute_setup_io_agrees (drop_existing : bool) (sql_file_path : str)
  (sql_file : option str) (sf : SnowflakeConnection R) :
  execute_setup_io drop_existing sql_file_path (file_of sql_file) sf
  = execute_setup drop_existing sql_file_path sql_file sf.
Proof.
  unfold execute_setup_io, execute_setup.
  destruct (connect sf) as [sf1 [|]]; [|reflexivity].
  now destruct sql_file.
Qed.

(** Where the constructor and the prompt return and the script is
    missing or readable, [main_process] makes the calls of [main] and
    ends as [main] does. *)
Lemma main_process_agrees (args : Args) (response : str)
  (sql_file_path : str) (sql_file : option str) (r : R) :
  main_process args (Ok r) (Ok response) sql_file_path (file_of sql_file)
  = (calls (fst (main args response sql_file_path sql_file r)),
     snd (main args response sql_file_path sql_file r)).
Proof.
  unfold main_process, main, setup_then_verify.
  rewrite execute_setup_io_agrees.
  destruct (arg_verify_only args); [reflexivity|].
  destruct (arg_drop_existing args);
    destruct (str_eqb (lower response) (py "yes"));
    cbn [andb negb]; try reflexivity.
  all: destruct (execute_setup _ sql_file_path sql_file (fresh_connection r))
         as [sf1 [results|e]]; [|reflexivity];
       now destruct (failed results =? 0).
Qed.



End ProcessProperties.


(** ** What a completed category check records *)

(** A name is found in the upper-cased listing exactly when the column
    [name] of the frame holds a string equal to it up to letter case. *)
Lemma listed_upper_names (name : str) (df : DataFrame) (cells : list cell) :
  column (py "name") df = Ok cells ->
  listed name (upper_names df) = true
  <-> exists s, In (CStr s) cells /\ upper s = upper name.
Proof.
  intros Hcol. unfold listed, upper_names. rewrite Hcol.
  rewrite existsb_exists. split.
  - intros [[u|] [Hin Hu]]; [|discriminate].
    apply in_map_iff in Hin. destruct Hin as [[s| |] [Hs Hc]];
      try discriminate.
    injection Hs as <-. apply str_eqb_eq in Hu. now exists s.
  - intros [s [Hin Hu]]. exists (Some (upper s)). split.
    + apply in_map_iff. now exists (CStr s).
    + rewrite Hu. apply str_eqb_refl.
Qed.

Lemma dict_get_of_key {V : Type} (name : str) (d : dict V) :
  In name (keys d) -> exists x, dict_get name d = Some x.
Proof.
  induction d as [|[k x] d IH]; [intros []|].
  intros Hin. cbn [dict_get]. destruct (str_eqb k name) eqn:E; [eauto|].
  apply IH. destruct Hin as [Hk | Hin]; [|exact Hin].
  cbn in Hk. subst k. now rewrite str_eqb_refl in E.
Qed.

Section CompletedCategory.

Context {R : Type} `{Remote R}.

(** X9. When the listing of a category returns a frame with one column
    [name] that the string accessor applies to, and the loop over the
    expected names runs to its end without an exception, every expected
    name is on record: as existing exactly when the column holds a
    string equal to the name up to letter case, and then with a row
    count. *)
Theorem completed_category_records_every_name
  (c : category) (sf sf1 : SnowflakeConnection R) (v : Verification)
  (df : DataFrame) (cells : list cell) (name : str) :
  execute_query (listing_query c) sf = (sf1, Ok df) ->
  labelled_once (py "name") df = true ->
  column (py "name") df = Ok cells ->
  str_accessor_applies cells = true ->
  snd (check_objects c (upper_names df) (names_to_check c) (sf1, v)) = Ok tt ->
  In name (names_to_check c) ->
  exists b,
    dict_get name (existence c (snd (check_category c (sf, v)))) = Some b
    /\ (b = true <-> exists s, In (CStr s) cells /\ upper s = upper name)
    /\ (b = true ->
        exists n,
          dict_get name (data_counts (snd (check_category c (sf, v))))
          = Some n).
Proof.
  intros Hq _ Hcol _ Hok Hin.
  unfold check_category. rewrite Hq.
  destruct (check_objects_complete c (upper_names df) (names_to_check c) []
              (sf1, v) (fun m (Hm : In m []) => match Hm with end) Hok
              name Hin) as [Hg Hc].
  exists (listed name (upper_names df)). split; [exact Hg|]. split.
  - now apply listed_upper_names.
  - intros Hl. apply dict_get_of_key. now apply Hc.
Qed.

End CompletedCategory.

(** A listing in lower case: [tx_cleaned] is found and counted, and
    [feature_store], which the listing does not hold, is on record as
    missing. *)
Lemma completed_category_records_every_name_witness :
  dict_get (py "tx_cleaned")
    (tables (snd (check_category Tables
                    (connected_to lower_case_catalog, initial_verification))))
  = Some true
  /\ dict_get (py "feature_store")
       (tables (snd (check_category Tables
                       (connected_to lower_case_catalog,
                        initial_verification))))
     = Some false
  /\ exists n,
       dict_get (py "tx_cleaned")
         (data_counts
            (snd (check_category Tables
                    (connected_to lower_case_catalog, initial_verification))))
       = Some n.
Proof.
  assert (Hq : execute_query (listing_query Tables)
                 (connected_to lower_case_catalog)
               = (fst (execute_query (listing_query Tables)
                         (connected_to lower_case_catalog)),
                  Ok lower_case_listing)) by reflexivity.
  destruct (completed_category_records_every_name Tables
              (connected_to lower_case_catalog) _ initial_verification
              lower_case_listing
              [CStr (py "tx_cleaned"); CStr (py "other")] (py "tx_cleaned")
              Hq eq_refl eq_refl eq_refl eq_refl
              (or_intror (or_introl eq_refl)))
    as [b (Hg & Hiff & Hcount)].
  destruct (completed_category_records_every_name Tables
              (connected_to lower_case_catalog) _ initial_verification
              lower_case_listing
              [CStr (py "tx_cleaned"); CStr (py "other")] (py "feature_store")
              Hq eq_refl eq_refl eq_refl eq_refl
              (or_intror (or_intror (or_introl eq_refl))))
    as [b' (Hg' & Hiff' & _)].
  assert (Hb : b = true).
  { apply Hiff. exists (py "tx_cleaned"). split; [now left | reflexivity]. }
  assert (Hb' : b' = false).
  { destruct b'; [|reflexivity]. destruct (proj1 Hiff' eq_refl)
      as [s [[[= <-] | [[= <-] | []]] Hu]]; discriminate. }
  subst b b'. split; [exact Hg|]. split; [exact Hg'|]. now apply Hcount.
Defined.

(** ** The preview, character by character *)

(** What the code computes is the preview of the statement. *)
Lemma statement_preview_is_preview (s : str) :
  preview_of s (statement_preview s).
Proof.
  unfold preview_of, statement_preview.
  assert (Hlen : List.length (replace_newlines (firstn 60 s))
                 = Nat.min 60 (List.length s)).
  { unfold replace_newlines. now rewrite length_map, length_firstn. }
  assert (Hnth : forall i c, i < 60 -> nth_error s i = Some c ->
            nth_error (replace_newlines (firstn 60 s)) i
            = Some (if Ascii.eqb c newline then space else c)).
  { intros i c Hi Hc. unfold replace_newlines.
    rewrite nth_error_map, nth_error_firstn.
    apply Nat.ltb_lt in Hi. rewrite Hi, Hc. reflexivity. }
  destruct (60 <? List.length s) eqn:E.
  - apply Nat.ltb_lt in E. split; [|split].
    + rewrite length_app, Hlen. change (List.length (py "...")) with 3. lia.
    + intros i c Hi Hc. rewrite nth_error_app1 by (rewrite Hlen; lia).
      now apply Hnth.
    + intros _. rewrite skipn_app, skipn_all2 by (rewrite Hlen; lia).
      replace (60 - List.length (replace_newlines (firstn 60 s))) with 0
        by (rewrite Hlen; lia).
      reflexivity.
  - apply Nat.ltb_ge in E. split; [|split].
    + rewrite Hlen. lia.
    + exact Hnth.
    + lia.
Qed.

(** The wording leaves no choice: a statement has one preview. *)
Lemma preview_of_unique (s p q : str) :
  preview_of s p -> preview_of s q -> p = q.
Proof.
  intros (Lp & Np & Dp) (Lq & Nq & Dq).
  assert (Hfirst : firstn 60 p = firstn 60 q).
  { apply nth_error_ext. intros i. rewrite !nth_error_firstn.
    destruct (i <? 60) eqn:Hi; [|reflexivity]. apply Nat.ltb_lt in Hi.
    destruct (nth_error s i) as [c|] eqn:Hc.
    - now rewrite (Np i c Hi Hc), (Nq i c Hi Hc).
    - apply nth_error_None in Hc.
      assert (Hs : (60 <? List.length s) = false) by (apply Nat.ltb_ge; lia).
      rewrite Hs in Lp, Lq.
      rewrite (proj2 (nth_error_None p i)), (proj2 (nth_error_None q i));
        [reflexivity | lia | lia]. }
  rewrite <- (firstn_skipn 60 p), <- (firstn_skipn 60 q), Hfirst. f_equal.
  destruct (60 <? List.length s) eqn:Hs.
  - apply Nat.ltb_lt in Hs. now rewrite (Dp Hs), (Dq Hs).
  - apply Nat.ltb_ge in Hs. now rewrite !skipn_all2 by lia.
Qed.

(** ** Failures in the main loop *)

(** Each entry made of logged calls comes from a call that raised on a
    tallied statement. *)
Lemma error_entries_from_calls (new : list call) (i : nat) (e : ErrorEntry) :
  In e (error_entries i new) ->
  exists k c stmt,
    nth_error new k = Some c
    /\ call_text c = Some stmt
    /\ call_raised c = Some (error e)
    /\ tallied stmt = true
    /\ statement_number e = i + k
    /\ statement e = statement_preview stmt.
Proof.
  revert i. induction new as [|c new IH]; intros i Hin; [destruct Hin|].
  cbn [error_entries] in Hin.
  assert (Hrest : In e (error_entries (S i) new) ->
            exists k c0 stmt,
              nth_error (c :: new) k = Some c0
              /\ call_text c0 = Some stmt
              /\ call_raised c0 = Some (error e)
              /\ tallied stmt = true
              /\ statement_number e = i + k
              /\ statement e = statement_preview stmt).
  { intros Hr. destruct (IH (S i) Hr) as [k [c0 [stmt (Hk & Ht & Hm & Hd & Hn & Hp)]]].
    exists (S k), c0, stmt. repeat split; try assumption. lia. }
  destruct (call_text c) as [q|] eqn:Ht; [|now apply Hrest].
  destruct (call_raised c) as [msg|] eqn:Hm; [|now apply Hrest].
  destruct (tallied q) eqn:Hd; [|now apply Hrest].
  destruct Hin as [<- | Hin]; [|now apply Hrest].
  exists 0, c, q. cbn. repeat split; try assumption. lia.
Qed.

(** C2 as stated fails: five statements, of which only the third fails
    at the service; the first is a display query, which the loop leaves
    out of both tallies, so the report counts three successes and not
    four.  The same on the whole of [execute_setup], from the script that
    holds the five statements. *)
Lemma display_query_among_five_counts_three :
  map call_raised
    (new_calls (connected_to (rejecting bad_insert))
       (fst (execute_statements 1 five_with_display
               (connected_to (rejecting bad_insert),
                initial_results five_with_display))))
  = [None; None; Some (py "SQL compilation error"); None; None]
  /\ snd (execute_statements 1 five_with_display
            (connected_to (rejecting bad_insert),
             initial_results five_with_display))
     = MkResults 5 3 1
         [MkError 3 bad_insert (py "SQL compilation error")]
  /\ split_sql_statements five_line_script = five_with_display
  /\ snd (execute_setup false script_path (Some five_line_script)
            (fresh_connection (rejecting bad_insert)))
     = Ok (MkResults 5 3 1
             [MkError 3 bad_insert (py "SQL compilation error")])
  /\ successful
       (snd (execute_statements 1 five_with_display
               (connected_to (rejecting bad_insert),
                initial_results five_with_display))) <> 4.
Proof. repeat split. vm_compute. discriminate. Qed.

Section FailuresInTheLoop.

Context {R : Type} `{Remote R}.

(** C2, as the code has it. The loop sends every statement to the
    client, in order, whatever failed before.  A statement off the
    display path whose call raises adds one to [failed] and appends to
    [errors] its number counted from one, its preview (the first 60
    characters, line feeds turned into blanks, then three dots when the
    statement is longer) and the message raised; [errors] holds nothing
    else, in the order of the script.  When five statements run, only
    the third raises and it is off the display path, the report has
    total 5, failed 1 and the one entry of statement 3; [successful] is
    one less than the number of statements off the display path, so it
    is 4 exactly when none of the five is a display query. *)
Theorem failure_is_recorded_and_run_continues
  (statements : list str) (sf : SnowflakeConnection R) :
  let out := execute_statements 1 statements
               (sf, initial_results statements) in
  let new := new_calls sf (fst out) in
  calls (fst out) = calls sf ++ new
  /\ map call_text new = map Some statements
  /\ (forall k c stmt msg,
        nth_error new k = Some c ->
        call_text c = Some stmt -> call_raised c = Some msg ->
        is_display_query stmt = false ->
        exists preview,
          preview_of stmt preview
          /\ In (MkError (k + 1) preview msg) (errors (snd out)))
  /\ (forall e,
        In e (errors (snd out)) ->
        exists k c stmt,
          nth_error new k = Some c
          /\ call_text c = Some stmt
          /\ call_raised c = Some (error e)
          /\ is_display_query stmt = false
          /\ statement_number e = k + 1
          /\ preview_of stmt (statement e))
  /\ StronglySorted lt (map statement_number (errors (snd out)))
  /\ failed (snd out) = List.length (errors (snd out))
  /\ successful (snd out) + failed (snd out)
     = List.length (filter tallied statements)
  /\ total_statements (snd out) = List.length statements
  /\ (forall s1 s2 s3 s4 s5 msg,
        statements = [s1; s2; s3; s4; s5] ->
        map call_raised new = [None; None; Some msg; None; None] ->
        is_display_query s3 = false ->
        exists preview,
          preview_of s3 preview
          /\ snd out
             = MkResults 5 (List.length (filter tallied statements) - 1) 1
                 [MkError 3 preview msg]
          /\ (successful (snd out) = 4
              <-> forallb tallied statements = true)).
Proof.
  cbv zeta.
  destruct (execute_statements_log statements 1 sf
              (initial_results statements)) as [new [Hc [Ht Hr]]].
  rewrite (new_calls_app _ _ new Hc). rewrite Hr.
  cbn [total_statements successful failed errors initial_results app Nat.add].
  split; [exact Hc|]. split; [exact Ht|].
  split; [|split; [|split; [|split; [|split; [|split]]]]].
  - intros k c s msg Hk Hs Hm Hd.
    exists (statement_preview s). split; [apply statement_preview_is_preview|].
    rewrite Nat.add_comm.
    apply error_entries_in with c; try assumption.
    unfold tallied. now rewrite Hd.
  - intros e He.
    destruct (error_entries_from_calls new 1 e He)
      as [k [c [s (Hk & Hs & Hm & Hd & Hn & Hp)]]].
    exists k, c, s. split; [exact Hk|]. split; [exact Hs|].
    split; [exact Hm|]. split; [|split; [lia|]].
    + unfold tallied in Hd. now destruct (is_display_query s).
    + rewrite Hp. apply statement_preview_is_preview.
  - apply error_entries_sorted.
  - reflexivity.
  - now apply tallies_partition.
  - reflexivity.
  - intros s1 s2 s3 s4 s5 msg -> Hraised D3.
    exists (statement_preview s3).
    split; [apply statement_preview_is_preview|].
    destruct new as [|c1 [|c2 [|c3 [|c4 [|c5 [|c6 new]]]]]];
      try discriminate.
    cbn [map] in Ht, Hraised.
    injection Ht as T1 T2 T3 T4 T5. injection Hraised as R1 R2 R3 R4 R5.
    cbn [successes error_entries filter forallb].
    rewrite T1, T2, T3, T4, T5, R1, R2, R3, R4, R5.
    assert (D3' : tallied s3 = true) by (unfold tallied; now rewrite D3).
    rewrite D3'.
    destruct (tallied s1), (tallied s2), (tallied s4), (tallied s5);
      cbn; (split; [reflexivity | split; congruence]).
Qed.

End FailuresInTheLoop.

(** Two runs of five statements in which the third fails: one in which
    it is longer than 60 characters and no statement is a display query,
    and the run with a display query. *)
Lemma failure_is_recorded_and_run_continues_witness :
  (exists preview,
     preview
     = py "CREATE OR REPLACE TABLE FEAT_DB.FEAT_SCHEMA.tx_cleaned AS SE..."
     /\ snd (execute_statements 1 five_with_long
               (connected_to (rejecting long_statement),
                initial_results five_with_long))
        = MkResults 5 4 1 [MkError 3 preview (py "SQL compilation error")])
  /\ (exists preview,
        preview_of bad_insert preview
        /\ snd (execute_statements 1 five_with_display
                  (connected_to (rejecting bad_insert),
                   initial_results five_with_display))
           = MkResults 5 3 1 [MkError 3 preview (py "SQL compilation error")]).
Proof.
  split.
  - pose proof (failure_is_recorded_and_run_continues five_with_long
                  (connected_to (rejecting long_statement))) as H.
    cbv zeta in H. destruct H as (_ & _ & _ & _ & _ & _ & _ & _ & H5).
    destruct (H5 (py "CREATE DATABASE FEAT_DB") (py "CREATE SCHEMA FEAT_SCHEMA")
                long_statement (py "SHOW TABLES")
                (py "CREATE VIEW v AS SELECT 1") (py "SQL compilation error")
                eq_refl eq_refl eq_refl) as [preview (Hp & Hr & _)].
    exists preview. split; [|exact Hr].
    apply (preview_of_unique long_statement); [exact Hp|].
    split; [reflexivity | split].
    + intros i c Hi Hc.
      do 60 (destruct i as [|i]; [injection Hc as <-; reflexivity|]). lia.
    + reflexivity.
  - pose proof (failure_is_recorded_and_run_continues five_with_display
                  (connected_to (rejecting bad_insert))) as H.
    cbv zeta in H. destruct H as (_ & _ & _ & _ & _ & _ & _ & _ & H5).
    destruct (H5 (py "SELECT * FROM t LIMIT 5") (py "CREATE SCHEMA FEAT_SCHEMA")
                bad_insert (py "SHOW TABLES")
                (py "CREATE VIEW v AS SELECT 1") (py "SQL compilation error")
                eq_refl eq_refl eq_refl) as [preview (Hp & Hr & _)].
    exists preview. split; [exact Hp | exact Hr].
Defined.

(** ** Trimming and joining, said over the characters *)

Section Removed.

Variable p : ascii -> bool.

(** What [lstrip] removes is a prefix of characters of the set. *)
Lemma lstrip_with_removed (s : str) :
  exists removed,
    s = removed ++ lstrip_with p s
    /\ Forall (fun c => p c = true) removed.
Proof.
  induction s as [|c s (removed & E & F)]; cbn [lstrip_with].
  - exists []. split; [reflexivity | constructor].
  - destruct (p c) eqn:Hc.
    + exists (c :: removed). split; [cbn; now f_equal | now constructor].
    + exists []. split; [reflexivity | constructor].
Qed.

(** What [rstrip] removes is a suffix of characters of the set. *)
Lemma rstrip_with_removed (s : str) :
  exists removed,
    s = rstrip_with p s ++ removed
    /\ Forall (fun c => p c = true) removed.
Proof.
  unfold rstrip_with.
  destruct (lstrip_with_removed (rev s)) as (removed & E & F).
  exists (rev removed). split.
  - rewrite <- rev_app_distr, <- E. symmetry. apply rev_involutive.
  - now apply Forall_rev.
Qed.

Lemma lstrip_with_all (s : str) :
  Forall (fun c => p c = true) s -> lstrip_with p s = [].
Proof.
  induction 1 as [|c s Hc _ IH]; [reflexivity|].
  cbn [lstrip_with]. now rewrite Hc.
Qed.

Lemma lstrip_with_lead (lead s : str) :
  Forall (fun c => p c = true) lead ->
  lstrip_with p (lead ++ s) = lstrip_with p s.
Proof.
  induction 1 as [|c lead Hc _ IH]; [reflexivity|].
  cbn [app lstrip_with]. now rewrite Hc.
Qed.

Lemma rstrip_with_trail (s trail : str) :
  Forall (fun c => p c = true) trail ->
  rstrip_with p (s ++ trail) = rstrip_with p s.
Proof.
  intros F. unfold rstrip_with. rewrite rev_app_distr.
  rewrite lstrip_with_lead; [reflexivity | now apply Forall_rev].
Qed.

(** A string that is empty or ends with a kept character is what
    [rstrip] leaves of it. *)
Lemma rstrip_with_unchanged (s : str) :
  (forall z, last_char s = Some z -> p z = false) ->
  rstrip_with p s = s.
Proof.
  intros Hlast. destruct (last_char s) as [z|] eqn:E.
  - now apply rstrip_with_kept with z; [|apply Hlast].
  - unfold last_char in E. unfold rstrip_with.
    destruct (rev s) eqn:R; [|discriminate].
    rewrite <- (rev_involutive s), R. reflexivity.
Qed.

End Removed.

(** What [strip] returns is the string trimmed. *)
Lemma strip_is_trimmed (s : str) : trimmed_of s (strip s).
Proof.
  unfold trimmed_of, strip. split.
  - destruct (lstrip_with_removed is_space s) as (lead & E1 & F1).
    destruct (rstrip_with_removed is_space (lstrip_with is_space s))
      as (trail & E2 & F2).
    exists lead, trail. split; [|split; assumption].
    rewrite <- E2. exact E1.
  - destruct (rstrip_with is_space (lstrip_with is_space s)) eqn:E;
      [now left | right].
    rewrite <- E. apply strip_both_kept_ends. rewrite E. discriminate.
Qed.

(** Trimming leaves no choice. *)
Lemma trimmed_is_strip (s t : str) : trimmed_of s t -> t = strip s.
Proof.
  intros [(lead & trail & E & Fl & Ft) Hends]. subst s. unfold strip.
  rewrite lstrip_with_lead by exact Fl.
  destruct Hends as [-> | Hk].
  - cbn [app]. now rewrite lstrip_with_all.
  - pose proof Hk as [[a [Ha Hpa]] _].
    rewrite (lstrip_with_kept is_space (t ++ trail) a); [| |exact Hpa].
    + rewrite rstrip_with_trail by exact Ft.
      symmetry. pose proof (kept_ends_fixed is_space t Hk) as Hfix.
      now rewrite (lstrip_with_kept is_space t a Ha Hpa) in Hfix.
    + rewrite first_char_app; [exact Ha|]. intros ->. discriminate.
Qed.

Lemma all_semicolons (l : str) :
  Forall (fun c => Ascii.eqb c semicolon = true) l ->
  l = repeat semicolon (List.length l).
Proof.
  induction 1 as [|c l Hc _ IH]; [reflexivity|].
  apply Ascii.eqb_eq in Hc. subst c. cbn. now f_equal.
Qed.

Lemma repeat_semicolons (k : nat) :
  Forall (fun c => Ascii.eqb c semicolon = true) (repeat semicolon k).
Proof. induction k; constructor; [apply Ascii.eqb_refl | assumption]. Qed.

(** What [rstrip(';')] returns is the string without the semicolons at
    its end, and nothing else is. *)
Lemma rstrip_semicolons_removes (s : str) :
  without_trailing_semicolons s (rstrip_semicolons s).
Proof.
  unfold without_trailing_semicolons, rstrip_semicolons. split.
  - destruct (rstrip_with_removed (fun c => Ascii.eqb c semicolon) s)
      as (removed & E & F).
    exists (List.length removed). now rewrite <- (all_semicolons removed F).
  - destruct (rstrip_with_last (fun c => Ascii.eqb c semicolon) s)
      as [-> | (z & -> & Hz)]; [discriminate|].
    intros [= ->]. now rewrite Ascii.eqb_refl in Hz.
Qed.

Lemma without_semicolons_is_rstrip (s r : str) :
  without_trailing_semicolons s r -> r = rstrip_semicolons s.
Proof.
  intros [[k ->] Hlast]. unfold rstrip_semicolons.
  rewrite rstrip_with_trail by apply repeat_semicolons.
  symmetry. apply rstrip_with_unchanged.
  intros z Hz. destruct (Ascii.eqb z semicolon) eqn:E; [|reflexivity].
  apply Ascii.eqb_eq in E. subst z. now elim Hlast.
Qed.

(** [' '.join] puts a single blank between two parts. *)
Lemma join_is_spaced (parts : list str) : join (py " ") parts = spaced parts.
Proof.
  destruct parts as [|p rest]; [reflexivity|]. cbn [spaced].
  revert p. induction rest as [|q rest IH]; intros p.
  - cbn. now rewrite app_nil_r.
  - rewrite join_cons by discriminate. rewrite IH. reflexivity.
Qed.

(** The boundary test of the code is the last character being a
    semicolon. *)
Lemma is_boundary_ends_with_semicolon (t : str) :
  is_boundary t = true <-> ends_with_semicolon t.
Proof.
  unfold is_boundary, ends_with_semicolon. rewrite semicolon_literal.
  rewrite endswith_last_char. unfold last_char. split.
  - destruct (rev t) as [|z r] eqn:R; [discriminate|]. cbn [hd_error].
    intros E. apply Ascii.eqb_eq in E. subst z.
    exists (rev r). rewrite <- (rev_involutive t), R. reflexivity.
  - intros [body ->]. rewrite rev_app_distr. reflexivity.
Qed.

Lemma not_boundary_not_ends (t : str) :
  is_boundary t = false <-> ~ ends_with_semicolon t.
Proof.
  rewrite <- is_boundary_ends_with_semicolon.
  destruct (is_boundary t); split; congruence.
Qed.

Lemma closed_group_by_boundary (g : list str) :
  closed_group g <-> closed_by_boundary g.
Proof.
  unfold closed_group, closed_by_boundary. split.
  - intros (body & t & E & Ht & Hb). exists body, t.
    split; [exact E|]. split; [now apply is_boundary_ends_with_semicolon|].
    eapply Forall_impl; [|exact Hb]. intros x. apply not_boundary_not_ends.
  - intros (body & t & E & Ht & Hb). exists body, t.
    split; [exact E|]. split; [now apply is_boundary_ends_with_semicolon|].
    eapply Forall_impl; [|exact Hb]. intros x. apply not_boundary_not_ends.
Qed.

(** What the code makes of a closed group is its statement, and nothing
    else is. *)
Lemma emit_closed_is_statement (g : list str) :
  closed_statement g (emit_closed g).
Proof.
  unfold closed_statement, emit_closed.
  exists (rstrip_semicolons (join (py " ") g)),
         (strip (rstrip_semicolons (join (py " ") g))).
  split; [|split].
  - rewrite <- join_is_spaced. apply rstrip_semicolons_removes.
  - apply strip_is_trimmed.
  - now destruct (strip (rstrip_semicolons (join (py " ") g))).
Qed.

Lemma closed_statement_is_emit (g out : list str) :
  closed_statement g out -> out = emit_closed g.
Proof.
  intros (r & t & Hr & Ht & ->). unfold emit_closed.
  rewrite join_is_spaced.
  rewrite <- (without_semicolons_is_rstrip _ _ Hr).
  rewrite <- (trimmed_is_strip _ _ Ht). now destruct t.
Qed.

Lemma emit_open_is_statement (rest : list str) :
  emit_open rest = open_statement rest.
Proof.
  unfold emit_open, open_statement. destruct rest; [reflexivity|].
  now rewrite join_is_spaced.
Qed.

(** ** The grouping leaves no choice *)

Lemma groups_open (buffer body ts : list str) :
  Forall (fun x => is_boundary x = false) body ->
  groups buffer (body ++ ts) = groups (buffer ++ body) ts.
Proof.
  intros Hb. revert buffer. induction Hb as [|x body Hx _ IH]; intros buffer.
  - now rewrite app_nil_r.
  - cbn [app groups]. rewrite Hx, IH, <- app_assoc. reflexivity.
Qed.

Lemma groups_determined (gs : list (list str)) (rest : list str) :
  Forall closed_group gs ->
  Forall (fun x => is_boundary x = false) rest ->
  groups [] (List.concat gs ++ rest) = (gs, rest).
Proof.
  intros Hgs Hrest. induction Hgs as [|g gs (body & t & -> & Ht & Hb) _ IH].
  - cbn [List.concat app]. rewrite <- (app_nil_r rest) at 1.
    rewrite groups_open by exact Hrest. reflexivity.
  - cbn [List.concat]. rewrite <- !app_assoc.
    rewrite groups_open by exact Hb. cbn [app groups]. rewrite Ht, IH.
    reflexivity.
Qed.

Lemma trimmed_lines_determined (lines ts : list str) :
  Forall2 (fun line t => trimmed_of (remove_inline_comment line) t) lines ts ->
  ts = map trimmed lines.
Proof.
  induction 1 as [|line t lines ts Ht _ IH]; [reflexivity|].
  cbn [map]. f_equal; [|exact IH]. now apply trimmed_is_strip.
Qed.

Lemma trimmed_lines_are_trimmed (lines : list str) :
  Forall2 (fun line t => trimmed_of (remove_inline_comment line) t)
          lines (map trimmed lines).
Proof.
  induction lines as [|line lines IH]; constructor; [|exact IH].
  apply strip_is_trimmed.
Qed.

Lemma closed_statements_determined (gs outs : list (list str)) :
  Forall2 closed_statement gs outs -> outs = map emit_closed gs.
Proof.
  induction 1 as [|g out gs outs Hg _ IH]; [reflexivity|].
  cbn [map]. f_equal; [now apply closed_statement_is_emit | exact IH].
Qed.

Lemma closed_statements_emitted (gs : list (list str)) :
  Forall2 closed_statement gs (map emit_closed gs).
Proof.
  induction gs as [|g gs IH]; constructor; [|exact IH].
  apply emit_closed_is_statement.
Qed.

(** ** The splitter and the boundary rule *)

(** C3. On the lines left by the comment stripper, what the splitter
    returns is what the boundary rule gives, and the rule gives nothing
    else: each line is trimmed once its inline comment is removed; the
    trimmed lines that are not empty, in source order, are cut after
    every line whose last character is a semicolon and nowhere else, so
    that a semicolon within a line closes nothing; the lines of a closed
    group are joined with single blanks, the semicolons at the end of
    the join are taken off, the result is trimmed and becomes a
    statement unless it is empty; the lines after the last boundary,
    joined the same way, become the final statement. *)
Theorem splitter_follows_boundary_rule (lines out : list str) :
  follows_boundary_rule lines out <-> out = split_lines_to_statements lines.
Proof.
  assert (Hcode : split_lines_to_statements lines = split_spec lines).
  { unfold split_lines_to_statements, split_spec.
    now rewrite (split_loop_groups lines [] [] (Forall_nil _)). }
  rewrite Hcode. unfold split_spec, trimmed_lines. split.
  - intros (ts & gs & rest & outs & Hts & Hcat & Hgs & Hrest & Houts & ->).
    rewrite <- (trimmed_lines_determined lines ts Hts), <- Hcat.
    rewrite groups_determined.
    + rewrite flat_map_concat_map, emit_open_is_statement.
      now rewrite (closed_statements_determined gs outs Houts).
    + eapply Forall_impl; [|exact Hgs]. intros g. apply closed_group_by_boundary.
    + eapply Forall_impl; [|exact Hrest]. intros x. apply not_boundary_not_ends.
  - intros ->.
    pose proof (groups_concat (filter truthy (map trimmed lines)) []) as Hc.
    pose proof (groups_boundaries (filter truthy (map trimmed lines)) []
                  (Forall_nil _)) as [Hgs Hrest].
    destruct (groups [] (filter truthy (map trimmed lines))) as [gs rest].
    cbn [fst snd app] in Hc, Hgs, Hrest.
    exists (map trimmed lines), gs, rest, (map emit_closed gs).
    split; [apply trimmed_lines_are_trimmed|]. split; [exact Hc|].
    split.
    { eapply Forall_impl; [|exact Hgs]. intros g. apply closed_group_by_boundary. }
    split.
    { eapply Forall_impl; [|exact Hrest]. intros x. apply not_boundary_not_ends. }
    split; [apply closed_statements_emitted|].
    now rewrite flat_map_concat_map, emit_open_is_statement.
Qed.

(** A script of six lines: a statement over three lines with an inline
    comment, a blank line, a line with a semicolon in its middle and two
    at its end, and a last line left open. *)
Lemma splitter_follows_boundary_rule_witness :
  follows_boundary_rule sample_lines
    [py "CREATE TABLE t ( a INT )"; py "SELECT 1; SELECT 2"; py "tail"].
Proof.
  apply (splitter_follows_boundary_rule sample_lines
           [py "CREATE TABLE t ( a INT )"; py "SELECT 1; SELECT 2";
            py "tail"]).
  reflexivity.
Defined.
